(** * robohub auth-service: token-exchange pipeline

    A shallow embedding of the Go packages [types], [policy], [ratelimit],
    [oidc], [token], [httpapi] and [config] of
    github.com/robohub/auth-service, and
    the properties of the pipeline proved over it. The definitions come
    first, package by package in the order of their imports; the
    properties follow.

    Conventions.
    - A Go [string] is a [string] (a sequence of bytes).
    - A Go [error] is an error type of its own per package, inside a
      [Result] or an [option]; where the text of the error reaches the
      caller ([policy]) the error is its text.
    - A [time.Time] is the number of nanoseconds since the Unix epoch, a
      [time.Duration] a number of nanoseconds, both as [Z]. A call of
      [Verify], [Allow], [Mint] or [Validate] sees one reading of the
      clock; the handler reads the clock again for its response.
    - A Go map is a [gmap]; a value behind a pointer that a call changes
      is passed in and returned. Calls run one after the other: the locks
      of the cache and of the limiter are not modelled.
    - The libraries that the packages call ([encoding/json],
      [encoding/base64], [strings], [strconv], [golang-jwt/jwt/v5],
      [golang.org/x/time/rate]) are modelled as far as the packages use
      them; signatures (RSA, HMAC) and the parsing of a floating-point
      number are parameters.
    - The environment of the process is a [gmap] from the names of the
      variables to their values. *)

From Stdlib Require Import ZArith String Ascii List Lia QArith Floats DecimalString.
From stdpp Require Import gmap strings list.

Local Open Scope string_scope.
Local Open Scope Z_scope.

(** ** Results of fallible calls *)

Inductive Result (E A : Type) : Type :=
| Ok (a : A)
| Err (e : E).
Arguments Ok {E A} a.
Arguments Err {E A} e.

Definition isOk {E A} (r : Result E A) : bool :=
  match r with Ok _ => true | Err _ => false end.

Definition toOption {E A} (r : Result E A) : option A :=
  match r with Ok a => Some a | Err _ => None end.

(** ** Time *)

Abbreviation Time := Z (only parsing).
Abbreviation Duration := Z (only parsing).

Definition Second : Z := 1000000000.

(** [time.Time{}], January 1 of year 1, in nanoseconds from the Unix epoch. *)
Definition zeroTime : Z := -62135596800 * Second.

(** [t.Unix()]: whole seconds since the epoch, rounded down. *)
Definition Unix_of (t : Z) : Z := t / Second.

(** The 64 bits of an [int64]: a result out of range wraps around. *)
Definition wrapInt64 (z : Z) : Z := (z + 2 ^ 63) mod 2 ^ 64 - 2 ^ 63.

(** A [time.Time] keeps its seconds from January 1 of year 1 in an
    [int64]; these are the seconds from there to the Unix epoch. *)
Definition unixToInternal : Z := 62135596800.

(** [time.Unix(sec, nsec)]: the nanoseconds are brought between 0 and a
    second, and the seconds from year 1 wrap around in their 64 bits. *)
Definition time_Unix_ns (sec nsec : Z) : Z :=
  let '(sec, nsec) :=
    if (nsec <? 0) || (Second <=? nsec) then
      let n := Z.quot nsec Second in
      let sec := wrapInt64 (sec + n) in
      let nsec := nsec - n * Second in
      if nsec <? 0 then (wrapInt64 (sec - 1), nsec + Second) else (sec, nsec)
    else (sec, nsec) in
  (wrapInt64 (sec + unixToInternal) - unixToInternal) * Second + nsec.

(** [time.Unix(sec, 0)]. *)
Definition time_Unix (sec : Z) : Z := time_Unix_ns sec 0.

Definition maxDuration : Z := 2 ^ 63 - 1.
Definition minDuration : Z := - 2 ^ 63.

(** [t.Sub(u)], which saturates at the largest and smallest duration. *)
Definition time_Sub (t u : Z) : Z :=
  Z.max minDuration (Z.min maxDuration (t - u)).

(** [t.Add(d)] for a time without a monotonic reading: the duration is
    split into seconds and nanoseconds, and the seconds from year 1
    saturate when their sum leaves the 64 bits. *)
Definition time_Add (t d : Z) : Z :=
  let ext := t / Second + unixToInternal in
  let dsec := Z.quot d Second in
  let nsec := t mod Second + Z.rem d Second in
  let '(dsec, nsec) :=
    if Second <=? nsec then (dsec + 1, nsec - Second)
    else if nsec <? 0 then (dsec - 1, nsec + Second)
    else (dsec, nsec) in
  let sum := wrapInt64 (ext + dsec) in
  let ext :=
    if Bool.eqb (ext <? sum) (0 <? dsec) then sum
    else if 0 <? dsec then 2 ^ 63 - 1
    else - (2 ^ 63 - 1) in
  (ext - unixToInternal) * Second + nsec.


(** ** float64, as the JSON decoder and the claims code use it

    A [float64] is a [spec_float] of the Standard Library (precision 53,
    [emax] 1024). *)

Module float64.

(** The integer [n] converted to the nearest [float64], ties to even: what
    decoding the JSON number [n] yields. *)
Definition of_Z (n : Z) : spec_float := binary_normalize prec emax n 0 false.

(** [m * 2^e] with the fraction cut off, for a mantissa [m >= 0]. *)
Definition scale_trunc (m : Z) (e : Z) : Z :=
  if 0 <=? e then m * 2 ^ e else m / 2 ^ (- e).

(** [m * 2^e] rounded to the nearest integer, ties to even. *)
Definition scale_round (m : Z) (e : Z) : Z :=
  if 0 <=? e then m * 2 ^ e
  else
    let d := 2 ^ (- e) in
    let q := m / d in
    let r := m mod d in
    match 2 * r ?= d with
    | Lt => q
    | Gt => q + 1
    | Eq => if Z.even q then q else q + 1
    end.

(** The integer part, towards zero. *)
Definition trunc (f : spec_float) : option Z :=
  match f with
  | S754_zero _ => Some 0
  | S754_finite s m e =>
      let z := scale_trunc (Z.pos m) e in Some (if s then - z else z)
  | _ => None
  end.

(** The fraction that [math.Modf] returns: what the number has beyond its
    integer part, with the sign of the number; it is a [float64] without
    rounding. The fraction of an infinity is NaN. *)
Definition modf_frac (f : spec_float) : spec_float :=
  match f with
  | S754_finite s m e =>
      if 0 <=? e then S754_zero s
      else
        let r := Z.pos m mod 2 ^ (- e) in
        binary_normalize prec emax (if s then - r else r) e s
  | S754_infinity _ => S754_nan
  | _ => f
  end.

Definition minInt64 : Z := - 2 ^ 63.
Definition maxInt64 : Z := 2 ^ 63 - 1.

(** The conversion [int64(f)]. The fraction is discarded; a value outside
    the range of [int64] (and an infinity or a NaN) converts to an
    implementation-specific value, here the smallest [int64] as on amd64. *)
Definition to_int64 (f : spec_float) : Z :=
  match trunc f with
  | Some z => if (minInt64 <=? z) && (z <=? maxInt64) then z else minInt64
  | None => minInt64
  end.

(** The nanoseconds [int64(frac * 1e9)] of [math.Modf]'s fraction: the
    product is rounded to a [float64], then cut to an integer. *)
Definition frac_nanos (f : spec_float) : Z :=
  to_int64 (SFmul prec emax (modf_frac f) (of_Z 1000000000)).

(** [f == 0] *)
Definition is_zero (f : spec_float) : bool := SFeqb f (S754_zero false).

Definition decimal (n : Z) : string := NilZero.string_of_uint (N.to_uint (Z.to_N n)).

(** [fmt.Sprintf("%.0f", f)]: the sign, then the decimal digits of the
    absolute value rounded to the nearest integer, ties to even. *)
Definition format_0f (f : spec_float) : string :=
  match f with
  | S754_zero s => if s then "-0" else "0"
  | S754_finite s m e =>
      (if s then "-" else "") +:+ decimal (scale_round (Z.pos m) e)
  | S754_infinity s => if s then "-Inf" else "+Inf"
  | S754_nan => "NaN"
  end.

End float64.

(** ** encoding/json: values and strings *)

Module json.

(** What [json.Unmarshal] stores in an [interface{}]. *)
#[local] Set Warnings "-register-all".
Inductive Value :=
| VNil
| VBool (b : bool)
| VFloat64 (f : spec_float)
| VString (s : string)
| VArray (l : list Value)
| VObject (m : list (string * Value)).

Definition byte (c : ascii) : Z := Z.of_N (N_of_ascii c).

Definition between (lo hi b : Z) : bool := (lo <=? b) && (b <=? hi).

Definition cont (b : Z) : bool := between 128 191 b.

Definition two_ok (b0 b1 : Z) : bool := between 194 223 b0 && cont b1.

Definition three_ok (b0 b1 b2 : Z) : bool :=
  ((b0 =? 224) && between 160 191 b1
   || between 225 236 b0 && cont b1
   || (b0 =? 237) && between 128 159 b1
   || between 238 239 b0 && cont b1)
  && cont b2.

Definition four_ok (b0 b1 b2 b3 : Z) : bool :=
  ((b0 =? 240) && between 144 191 b1
   || between 241 243 b0 && cont b1
   || (b0 =? 244) && between 128 143 b1)
  && cont b2 && cont b3.

(** U+FFFD in UTF-8. *)
Definition replacement (s : string) : string :=
  String "239" (String "191" (String "189" s)).

(** A string as it comes back from [json.Marshal] followed by
    [json.Unmarshal]: every byte that does not start a well-formed UTF-8
    sequence is replaced by U+FFFD. *)
Fixpoint coerceUTF8 (s : string) : string :=
  match s with
  | EmptyString => EmptyString
  | String c0 r0 =>
      if byte c0 <? 128 then String c0 (coerceUTF8 r0)
      else
        match r0 with
        | String c1 r1 =>
            if two_ok (byte c0) (byte c1) then
              String c0 (String c1 (coerceUTF8 r1))
            else
              match r1 with
              | String c2 r2 =>
                  if three_ok (byte c0) (byte c1) (byte c2) then
                    String c0 (String c1 (String c2 (coerceUTF8 r2)))
                  else
                    match r2 with
                    | String c3 r3 =>
                        if four_ok (byte c0) (byte c1) (byte c2) (byte c3) then
                          String c0 (String c1 (String c2 (String c3 (coerceUTF8 r3))))
                        else replacement (coerceUTF8 r0)
                    | EmptyString => replacement (coerceUTF8 r0)
                    end
              | EmptyString => replacement (coerceUTF8 r0)
              end
        | EmptyString => replacement (coerceUTF8 r0)
        end
  end.

Definition validUTF8 (s : string) : Prop := coerceUTF8 s = s.

(** Go values that the minter puts into its claims. *)
Inductive GoValue :=
| GoString (s : string)
| GoInt64 (n : Z)
| GoStrings (l : list string).

(** [json.Marshal] of a Go value followed by [json.Unmarshal] into an
    [interface{}]. *)
Definition roundTrip (v : GoValue) : Value :=
  match v with
  | GoString s => VString (coerceUTF8 s)
  | GoInt64 n => VFloat64 (float64.of_Z n)
  | GoStrings l => VArray (map (fun s => VString (coerceUTF8 s)) l)
  end.

End json.

(** ** Token strings

    A compact token string is given by what its three segments decode to:
    the header and the claims as decoded JSON objects, and the signature.
    [Malformed raw] is a string [raw] that does not split into three
    segments, or whose header or claims segment is not base64url-encoded
    JSON; the empty string is [Malformed ""]. [BadSignature header claims
    segment] is a string whose header and claims decode and whose third
    segment [segment] is not base64url. *)
Inductive TokenString :=
| Malformed (raw : string)
| Compact (header : gmap string json.Value) (claims : gmap string json.Value)
    (signature : string)
| BadSignature (header : gmap string json.Value) (claims : gmap string json.Value)
    (segment : string).

Definition isEmpty (t : TokenString) : bool :=
  match t with
  | Malformed "" => true
  | _ => false
  end.

(** ** Packages strings and strconv, as far as the service calls them *)

Module strings.
Import json.

(** [s[n:]] *)
Fixpoint skip (n : nat) (s : string) : string :=
  match n, s with
  | O, _ => s
  | S n, String _ r => skip n r
  | S _, EmptyString => EmptyString
  end.

Definition HasPrefix (s prefix : string) : bool := String.prefix prefix s.

Definition TrimPrefix (s prefix : string) : string :=
  if HasPrefix s prefix then skip (String.length prefix) s else s.

(** [strings.Split(s, sep)] for a separator [sep] of one byte: the pieces
    between the separators, in order; the empty string gives one empty
    piece. *)
Fixpoint Split (s : string) (sep : ascii) : list string :=
  match s with
  | EmptyString => [EmptyString]
  | String c r =>
      if Ascii.eqb c sep then EmptyString :: Split r sep
      else
        match Split r sep with
        | part :: parts => String c part :: parts
        | [] => [String c EmptyString]
        end
  end.

(** [unicode.IsSpace], on the UTF-8 encoding of a rune of one, of two and
    of three bytes: the ASCII white space; U+0085 and U+00A0; U+1680,
    U+2000 to U+200A, U+2028, U+2029, U+202F, U+205F and U+3000. *)
Definition space1 (b0 : Z) : bool := between 9 13 b0 || (b0 =? 32).

Definition space2 (b0 b1 : Z) : bool :=
  (b0 =? 194) && ((b1 =? 133) || (b1 =? 160)).

Definition space3 (b0 b1 b2 : Z) : bool :=
  (b0 =? 225) && (b1 =? 154) && (b2 =? 128)
  || (b0 =? 226) && (b1 =? 128)
     && (between 128 138 b2 || between 168 169 b2 || (b2 =? 175))
  || (b0 =? 226) && (b1 =? 129) && (b2 =? 159)
  || (b0 =? 227) && (b1 =? 128) && (b2 =? 128).

Section Trim.

(** What counts as a rune to cut, by the bytes in the order in which the
    list has them. *)
Variable p1 : Z -> bool.
Variable p2 : Z -> Z -> bool.
Variable p3 : Z -> Z -> Z -> bool.

(** The number of bytes of the rune to cut at the head of the list, 0 when
    the list does not start with one. *)
Definition width (l : list ascii) : nat :=
  match l with
  | c0 :: r0 =>
      if p1 (byte c0) then 1%nat
      else
        match r0 with
        | c1 :: r1 =>
            if p2 (byte c0) (byte c1) then 2%nat
            else
              match r1 with
              | c2 :: _ => if p3 (byte c0) (byte c1) (byte c2) then 3%nat else 0%nat
              | [] => 0%nat
              end
        | [] => 0%nat
        end
  | [] => 0%nat
  end.

(** The list without the runes to cut at its head. *)
Fixpoint trimRunes (l : list ascii) : list ascii :=
  match l with
  | c0 :: r0 =>
      if p1 (byte c0) then trimRunes r0
      else
        match r0 with
        | c1 :: r1 =>
            if p2 (byte c0) (byte c1) then trimRunes r1
            else
              match r1 with
              | c2 :: r2 =>
                  if p3 (byte c0) (byte c1) (byte c2) then trimRunes r2 else l
              | [] => l
              end
        | [] => l
        end
  | [] => []
  end.

End Trim.

(** [strings.TrimLeftFunc(s, unicode.IsSpace)] on the bytes of [s]. *)
Definition trimStart : list ascii -> list ascii := trimRunes space1 space2 space3.

(** [strings.TrimRightFunc(s, unicode.IsSpace)] on the bytes of [s] in
    reverse: the last rune is found from the end of the string. *)
Definition trimEnd : list ascii -> list ascii :=
  trimRunes space1 (fun b0 b1 => space2 b1 b0) (fun b0 b1 b2 => space3 b2 b1 b0).

(** [strings.TrimSpace]: the white space at the start is cut, then the
    white space at the end. *)
Definition TrimSpace (s : string) : string :=
  string_of_list_ascii (rev (trimEnd (rev (trimStart (list_ascii_of_string s))))).

End strings.

Module strconv.
Import json.

(** The value of a string of decimal digits read after [acc]; [None] when
    a byte is not a digit. *)
Fixpoint digits (s : string) (acc : Z) : option Z :=
  match s with
  | EmptyString => Some acc
  | String c r =>
      if between 48 57 (byte c) then digits r (acc * 10 + (byte c - 48))
      else None
  end.

(** [strconv.Atoi] with its error reduced to [None]: an optional sign and
    at least one decimal digit, the value within the 64 bits of [int]. *)
Definition Atoi (s : string) : option Z :=
  match s with
  | EmptyString => None
  | String c r =>
      let neg := Ascii.eqb c "-" in
      let body := if Ascii.eqb c "-" || Ascii.eqb c "+" then r else s in
      match body with
      | EmptyString => None
      | _ =>
          match digits body 0 with
          | None => None
          | Some n =>
              let v := if neg then - n else n in
              if (float64.minInt64 <=? v) && (v <=? float64.maxInt64) then Some v
              else None
          end
      end
  end.

(** [strconv.ParseBool] with its error reduced to [None]. *)
Definition ParseBool (str : string) : option bool :=
  if bool_decide (str ∈ ["1"; "t"; "T"; "TRUE"; "true"; "True"]) then Some true
  else if bool_decide (str ∈ ["0"; "f"; "F"; "FALSE"; "false"; "False"]) then Some false
  else None.

End strconv.

(** ** Package types *)

Module types.

Record AuthRequest := { OIDCToken : TokenString }.

Record SubjectDetails := {
  sd_Provider : string;
  sd_Repository : string;
  sd_Ref : string;
  sd_Workflow : string;
  sd_RunID : string;
  sd_Actor : string }.

Record AuthResponse := {
  AccessToken : TokenString;
  ExpiresIn : Z;
  TokenType : string;
  ar_IssuedAt : string;
  Subject : SubjectDetails }.

Record ErrorResponse := { Error : string; Message : string }.

Record VerifiedClaims := {
  Repository : string;
  Ref : string;
  Actor : string;
  RunID : string;
  Workflow : string;
  IssuedAt : Z;
  ExpiresAt : Z }.

Record RoboHubClaims := {
  rc_Issuer : string;
  rc_Subject : string;
  rc_Audience : string;
  rc_IssuedAt : Z;
  rc_ExpiresAt : Z;
  rc_JTI : string;
  rc_Repo : string;
  rc_Ref : string;
  rc_Actor : string;
  rc_RunID : string;
  rc_Scopes : list string }.

End types.

(** ** Package policy *)

Module policy.

Record Enforcer := {
  defaultBranchOnly : bool;
  defaultBranch : string;
  allowList : gmap string bool;
  denyList : gmap string bool }.

(** [for _, repo := range l { m[repo] = true }] *)
Definition mark_all (l : list string) : gmap string bool :=
  foldl (fun m repo => <[repo := true]> m) ∅ l.

Definition NewEnforcer (dbo : bool) (branch : string)
    (allow deny : list string) : Enforcer :=
  {| defaultBranchOnly := dbo;
     defaultBranch := branch;
     allowList := mark_all allow;
     denyList := mark_all deny |}.

(** [m[k]] on a [map[string]bool]: [false] when the key is missing. *)
Definition index (m : gmap string bool) (k : string) : bool :=
  default false (m !! k).

Definition errDenied (repository : string) : string :=
  "repository " +:+ repository +:+ " is denied by policy".

Definition errNotAllowed (repository : string) : string :=
  "repository " +:+ repository +:+ " is not in allowlist".

Definition errBranch (expectedRef ref : string) : string :=
  "only default branch " +:+ expectedRef +:+ " is allowed, got " +:+ ref.

Definition Evaluate (e : Enforcer) (repository ref : string) : option string :=
  if index (denyList e) repository then
    Some (errDenied repository)
  else if Nat.ltb 0 (size (allowList e)) && negb (index (allowList e) repository) then
    Some (errNotAllowed repository)
  else if defaultBranchOnly e then
    let expectedRef := "refs/heads/" +:+ defaultBranch e in
    if negb (String.eqb ref expectedRef) then
      Some (errBranch expectedRef ref)
    else None
  else None.

Definition IsDefaultBranch (e : Enforcer) (ref : string) : bool :=
  String.eqb ref ("refs/heads/" +:+ defaultBranch e).

Definition ExtractBranch (ref : string) : string :=
  if strings.HasPrefix ref "refs/heads/" then strings.TrimPrefix ref "refs/heads/"
  else ref.

(** The order of checks as the policy section words it, over the
    configured lists read as sets. *)
Definition Evaluate_spec (dbo : bool) (branch : string)
    (allow deny : list string) (repository ref : string) : option string :=
  if decide (repository ∈ deny) then
    Some (errDenied repository)
  else if decide (allow ≠ [] ∧ repository ∉ allow) then
    Some (errNotAllowed repository)
  else if decide (dbo = true ∧ ref ≠ "refs/heads/" +:+ branch) then
    Some (errBranch ("refs/heads/" +:+ branch) ref)
  else None.

End policy.

(** ** golang.org/x/time/rate (v0.14.0), the token bucket behind the limiter

    The library computes the number of tokens in [float64]. The model
    computes the same expressions over the rationals, so no rounding takes
    place; on whole numbers of tokens up to 2^53 both agree. Where a
    fraction of a token is at stake the rounding of the library can move
    the instant at which a call first passes by a nanosecond, and the
    statements about refilling leave this nanosecond open. *)

Module rate.

Local Open Scope Q_scope.

Definition InfDuration : Z := maxDuration.

(** [rate.Inf = Limit(math.MaxFloat64)] *)
Definition Inf : Q := inject_Z (2 ^ 1024 - 2 ^ 971).

Record Limiter := {
  limit : Q;
  burst : Z;
  tokens : Q;
  last : Z;
  lastEvent : Z }.

(** A new limiter holds a full bucket. *)
Definition NewLimiter (r : Q) (b : Z) : Limiter :=
  {| limit := r; burst := b; tokens := inject_Z b;
     last := zeroTime; lastEvent := zeroTime |}.

(** Conversion of a number to [int64] nanoseconds: the fraction is cut. *)
Definition Qtrunc (q : Q) : Z := Z.quot (Qnum q) (Z.pos (Qden q)).

Definition Qltb (a b : Q) : bool := negb (Qle_bool b a).

Definition tokensFromDuration (lim : Q) (d : Z) : Q :=
  if Qle_bool lim 0 then 0
  else (inject_Z d / inject_Z Second) * lim.

Definition durationFromTokens (lim : Q) (toks : Q) : Z :=
  if Qle_bool lim 0 then InfDuration
  else
    let duration := (toks / lim) * inject_Z Second in
    if Qltb (inject_Z (2 ^ 63 - 1)) duration then InfDuration
    else Qtrunc duration.

(** [advance] returns the number of tokens at time [t]; the state is
    left as it is. *)
Definition advance (lim : Limiter) (t : Z) : Z * Q :=
  let last0 := if Z.ltb t (last lim) then t else last lim in
  let elapsed := time_Sub t last0 in
  let delta := tokensFromDuration (limit lim) elapsed in
  let toks := tokens lim + delta in
  let toks := if Qltb (inject_Z (burst lim)) toks then inject_Z (burst lim) else toks in
  (t, toks).

(** [reserveN(t, n, maxFutureReserve)]: the [ok] of the reservation and
    the limiter after the call. *)
Definition reserveN (lim : Limiter) (t : Z) (n : Z) (maxFutureReserve : Z)
    : bool * Limiter :=
  if Qeq_bool (limit lim) Inf then (true, lim)
  else
    let '(t, toks) := advance lim t in
    let toks := toks - inject_Z n in
    let waitDuration :=
      if Qltb toks 0 then durationFromTokens (limit lim) (- toks) else 0%Z in
    let ok := Z.leb n (burst lim) && Z.leb waitDuration maxFutureReserve in
    if ok then
      (true, {| limit := limit lim; burst := burst lim; tokens := toks;
                last := t; lastEvent := (t + waitDuration)%Z |})
    else (false, lim).

(** [lim.Allow()] is [lim.AllowN(time.Now(), 1)]. *)
Definition Allow (lim : Limiter) (now : Z) : bool * Limiter :=
  reserveN lim now 1 0.

End rate.

(** ** Package ratelimit *)

Module ratelimit.

Record Limiter := {
  limiters : gmap string rate.Limiter;
  rps : Q;
  burst : Z }.

Definition NewLimiter (rps : Q) (burst : Z) : Limiter :=
  {| limiters := ∅; rps := rps; burst := burst |}.

(** The limiter of a repository, created on first use. Both look-ups of
    the double-checked locking see the same map in a sequential run. *)
Definition getLimiter (l : Limiter) (repository : string)
    : rate.Limiter * Limiter :=
  match limiters l !! repository with
  | Some limiter => (limiter, l)
  | None =>
      match limiters l !! repository with
      | Some limiter => (limiter, l)
      | None =>
          let limiter := rate.NewLimiter (rps l) (burst l) in
          (limiter,
           {| limiters := <[repository := limiter]> (limiters l);
              rps := rps l; burst := burst l |})
      end
  end.

(** [Allow]: the bucket is shared through a pointer, so the map entry
    holds the bucket after the call. *)
Definition Allow (l : Limiter) (repository : string) (now : Z)
    : bool * Limiter :=
  let '(limiter, l) := getLimiter l repository in
  let '(ok, limiter) := rate.Allow limiter now in
  (ok, {| limiters := <[repository := limiter]> (limiters l);
          rps := rps l; burst := burst l |}).

Definition Reset (l : Limiter) : Limiter :=
  {| limiters := ∅; rps := rps l; burst := burst l |}.

Definition GetLimiterCount (l : Limiter) : Z := Z.of_nat (size (limiters l)).

(** [n] calls of [Allow] for one repository, all at the instant [now]. *)
Fixpoint AllowTimes (n : nat) (l : Limiter) (repository : string) (now : Z)
    : list bool * Limiter :=
  match n with
  | O => ([], l)
  | S n =>
      let '(ok, l) := Allow l repository now in
      let '(oks, l) := AllowTimes n l repository now in
      (ok :: oks, l)
  end.

(** The bucket that a call for the repository works on (a fresh, full one
    when none was created yet). *)
Definition bucketOf (l : Limiter) (repository : string) : rate.Limiter :=
  fst (getLimiter l repository).

End ratelimit.

(** ** github.com/golang-jwt/jwt/v5 (v5.2.0): parsing and validation *)

Module jwt.
Import json.

(** The registered signing methods, by the Go type of the method. *)
Inductive SigningMethod :=
| SigningMethodHMAC (alg : string)
| SigningMethodRSA (alg : string)
| SigningMethodRSAPSS (alg : string)
| SigningMethodECDSA (alg : string)
| SigningMethodEd25519
| signingMethodNone.

Definition GetSigningMethod (alg : string) : option SigningMethod :=
  if String.eqb alg "HS256" || String.eqb alg "HS384" || String.eqb alg "HS512"
  then Some (SigningMethodHMAC alg)
  else if String.eqb alg "RS256" || String.eqb alg "RS384" || String.eqb alg "RS512"
  then Some (SigningMethodRSA alg)
  else if String.eqb alg "PS256" || String.eqb alg "PS384" || String.eqb alg "PS512"
  then Some (SigningMethodRSAPSS alg)
  else if String.eqb alg "ES256" || String.eqb alg "ES384" || String.eqb alg "ES512"
  then Some (SigningMethodECDSA alg)
  else if String.eqb alg "EdDSA" then Some SigningMethodEd25519
  else if String.eqb alg "none" then Some signingMethodNone
  else None.

Record Token := {
  Method : SigningMethod;
  Header : gmap string Value;
  Claims : gmap string Value;
  Signature : string;
  Valid : bool }.

Inductive ClaimError :=
| ErrTokenExpired
| ErrTokenNotValidYet
| ErrInvalidType (key : string).

Inductive Error (E : Type) :=
| ErrTokenMalformed
| ErrAlgUnavailable
| ErrAlgUnspecified
| ErrKeyfunc (e : E)
| ErrTokenSignatureInvalid
| ErrTokenInvalidClaims (errs : list ClaimError).
Arguments ErrTokenMalformed {E}.
Arguments ErrAlgUnavailable {E}.
Arguments ErrAlgUnspecified {E}.
Arguments ErrKeyfunc {E} e.
Arguments ErrTokenSignatureInvalid {E}.
Arguments ErrTokenInvalidClaims {E} errs.

(** [t.Truncate(time.Second)]: rounded down to a whole second. *)
Definition Truncate_Second (t : Z) : Z := t / Second * Second.

(** [newNumericDateFromSeconds(f)]: [time.Unix] of the integer part and of
    the fraction in nanoseconds, truncated to the precision of a second. *)
Definition numericDate (f : spec_float) : Z :=
  Truncate_Second (time_Unix_ns (float64.to_int64 f) (float64.frac_nanos f)).

(** [MapClaims.parseNumericDate]: a missing claim and the number 0 count
    as no date, a claim that is not a number is an error. *)
Definition parseNumericDate (m : gmap string Value) (key : string)
    : Result ClaimError (option Z) :=
  match m !! key with
  | None => Ok None
  | Some (VFloat64 f) =>
      if float64.is_zero f then Ok None else Ok (Some (numericDate f))
  | Some _ => Err (ErrInvalidType key)
  end.

Definition verifyExpiresAt (leeway : Z) (m : gmap string Value) (now : Z)
    : list ClaimError :=
  match parseNumericDate m "exp" with
  | Err e => [e]
  | Ok None => []
  | Ok (Some exp) => if now <? time_Add exp leeway then [] else [ErrTokenExpired]
  end.

Definition verifyNotBefore (leeway : Z) (m : gmap string Value) (now : Z)
    : list ClaimError :=
  match parseNumericDate m "nbf" with
  | Err e => [e]
  | Ok None => []
  | Ok (Some nbf) =>
      if now <? time_Add nbf (wrapInt64 (- leeway)) then [ErrTokenNotValidYet] else []
  end.

(** [Validator.Validate] with the default options and a leeway: [exp] and
    [nbf] are checked, both optional; the errors are collected. *)
Definition Validate (leeway : Z) (m : gmap string Value) (now : Z)
    : list ClaimError :=
  verifyExpiresAt leeway m now ++ verifyNotBefore leeway m now.

Definition ParseUnverified {E} (tokenString : TokenString) : Result (Error E) Token :=
  match tokenString with
  | Malformed _ => Err ErrTokenMalformed
  | Compact header claims signature =>
      match header !! "alg" with
      | Some (VString alg) =>
          match GetSigningMethod alg with
          | Some method =>
              Ok {| Method := method; Header := header; Claims := claims;
                    Signature := signature; Valid := false |}
          | None => Err ErrAlgUnavailable
          end
      | _ => Err ErrAlgUnspecified
      end
  | BadSignature header claims _ =>
      match header !! "alg" with
      | Some (VString alg) =>
          match GetSigningMethod alg with
          | Some method =>
              Ok {| Method := method; Header := header; Claims := claims;
                    Signature := ""; Valid := false |}
          | None => Err ErrAlgUnavailable
          end
      | _ => Err ErrAlgUnspecified
      end
  end.

(** [p.DecodeSegment(parts[2])], the signature of the token. *)
Definition DecodeSignature (tokenString : TokenString) : option string :=
  match tokenString with
  | Compact _ _ signature => Some signature
  | _ => None
  end.

Section Parse.
Context {K E S : Type}.

(** [token.Method.Verify(signingString, signature, key) == nil] *)
Variable verify : SigningMethod -> TokenString -> K -> bool.

(** [jwt.Parse(tokenString, keyFunc, jwt.WithLeeway(leeway))] at the
    instant [now]; the key function may change the state [S]. The
    signature is decoded before the key function is called. *)
Definition Parse (tokenString : TokenString)
    (keyFunc : Token -> S -> Result E K * S) (leeway : Z) (now : Z) (st : S)
    : Result (Error E) Token * S :=
  match ParseUnverified tokenString with
  | Err e => (Err e, st)
  | Ok token =>
      match DecodeSignature tokenString with
      | None => (Err ErrTokenMalformed, st)
      | Some _ =>
          match keyFunc token st with
          | (Err e, st) => (Err (ErrKeyfunc e), st)
          | (Ok key, st) =>
              if negb (verify (Method token) tokenString key) then
                (Err ErrTokenSignatureInvalid, st)
              else
                match Validate leeway (Claims token) now with
                | [] =>
                    (Ok {| Method := Method token; Header := Header token;
                           Claims := Claims token; Signature := Signature token;
                           Valid := true |}, st)
                | errs => (Err (ErrTokenInvalidClaims errs), st)
                end
          end
      end
  end.

End Parse.

End jwt.

(** ** Package oidc *)

Module oidc.
Import json jwt types.

(** *** encoding/base64, [RawURLEncoding.DecodeString] *)

Definition sextet (c : ascii) : option Z :=
  let b := byte c in
  if between 65 90 b then Some (b - 65)
  else if between 97 122 b then Some (b - 97 + 26)
  else if between 48 57 b then Some (b - 48 + 52)
  else if b =? 45 then Some 62
  else if b =? 95 then Some 63
  else None.

(** The characters of the input as 6-bit values; carriage returns and
    line feeds are skipped, any other character outside the alphabet is an
    error. *)
Fixpoint sextets (s : string) : option (list Z) :=
  match s with
  | EmptyString => Some []
  | String c r =>
      if (byte c =? 10) || (byte c =? 13) then sextets r
      else
        match sextet c, sextets r with
        | Some v, Some vs => Some (v :: vs)
        | _, _ => None
        end
  end.

Fixpoint quanta (l : list Z) : option (list Z) :=
  match l with
  | [] => Some []
  | [_] => None
  | [a; b] => Some [Z.lor (Z.shiftl a 2) (Z.shiftr b 4)]
  | [a; b; c] =>
      Some [Z.lor (Z.shiftl a 2) (Z.shiftr b 4);
            Z.lor (Z.shiftl (Z.land b 15) 4) (Z.shiftr c 2)]
  | a :: b :: c :: d :: r =>
      match quanta r with
      | Some bs =>
          Some (Z.lor (Z.shiftl a 2) (Z.shiftr b 4)
                :: Z.lor (Z.shiftl (Z.land b 15) 4) (Z.shiftr c 2)
                :: Z.lor (Z.shiftl (Z.land c 3) 6) d
                :: bs)
      | None => None
      end
  end.

Definition DecodeString (s : string) : option (list Z) :=
  match sextets s with
  | Some l => quanta l
  | None => None
  end.

(** *** Keys *)

Record PublicKey := { N : Z; E : Z }.

(** Go's [int] is 64 bits wide. *)
Definition wrap64 (z : Z) : Z := (z + 2 ^ 63) mod 2 ^ 64 - 2 ^ 63.

Inductive ParseKeyError := ErrDecodeN | ErrDecodeE.

Definition parseRSAPublicKey (nStr eStr : string) : Result ParseKeyError PublicKey :=
  match DecodeString nStr with
  | None => Err ErrDecodeN
  | Some nBytes =>
      match DecodeString eStr with
      | None => Err ErrDecodeE
      | Some eBytes =>
          let n := foldl (fun n b => n * 256 + b) 0 nBytes in
          let e := foldl (fun e b => wrap64 (e * 256 + b)) 0 eBytes in
          Ok {| N := n; E := e |}
      end
  end.

(** One entry of the key set document. *)
Record JWK := { Kid : string; Kty : string; Use : string; jwk_N : string; jwk_E : string }.

(** *** The key set endpoint, as one fetch finds it *)

Inductive Body :=
| ReadError
| Content (doc : option (list JWK)).
(** [Content None] is a body that [json.Unmarshal] rejects. *)

Inductive HTTPResult :=
| RequestError
| DoError
| Response (StatusCode : Z) (body : Body).

Record Env := { now : Z; jwksResponse : HTTPResult }.

Inductive FetchError :=
| ErrCreateRequest
| ErrDo
| ErrStatusCode (code : Z)
| ErrReadBody
| ErrUnmarshal.

Inductive CacheError :=
| ErrFetchJWKS (e : FetchError)
| ErrKeyNotFound (kid : string).

(** *** JWKSCache *)

Record JWKSCache := {
  url : string;
  ttl : Z;
  keys : gmap string PublicKey;
  fetchedAt : Z }.

Definition NewJWKSCache (url : string) (ttl : Z) : JWKSCache :=
  {| url := url; ttl := ttl; keys := ∅; fetchedAt := zeroTime |}.

(** The loop over [jwks.Keys]: an entry of another key type and an entry
    whose modulus or exponent does not decode are passed over. *)
Definition addKey (newKeys : gmap string PublicKey) (key : JWK) : gmap string PublicKey :=
  if negb (String.eqb (Kty key) "RSA") then newKeys
  else
    match parseRSAPublicKey (jwk_N key) (jwk_E key) with
    | Err _ => newKeys
    | Ok pubKey => <[Kid key := pubKey]> newKeys
    end.

Definition fetchJWKS (env : Env) (c : JWKSCache) : option FetchError * JWKSCache :=
  match jwksResponse env with
  | RequestError => (Some ErrCreateRequest, c)
  | DoError => (Some ErrDo, c)
  | Response code body =>
      if negb (code =? 200) then (Some (ErrStatusCode code), c)
      else
        match body with
        | ReadError => (Some ErrReadBody, c)
        | Content None => (Some ErrUnmarshal, c)
        | Content (Some jwks) =>
            (None,
             {| url := url c; ttl := ttl c;
                keys := foldl addKey ∅ jwks;
                fetchedAt := now env |})
        end
  end.

(** [key, exists := c.keys[kid]; exists && time.Since(c.fetchedAt) < c.ttl] *)
Definition cached (env : Env) (c : JWKSCache) (kid : string) : option PublicKey :=
  match keys c !! kid with
  | Some key => if time_Sub (now env) (fetchedAt c) <? ttl c then Some key else None
  | None => None
  end.

(** What a call does to the outside, in the order of the calls. *)
Inductive Event :=
| EvGetKey (kid : string)
| EvFetch (url : string).

Record World := { cache : JWKSCache; trace : list Event }.

Definition emit (ev : Event) (w : World) : World :=
  {| cache := cache w; trace := trace w ++ [ev] |}.

(** [GetKey]: the check under the read lock, the same check under the
    write lock, then the fetch. *)
Definition GetKey (env : Env) (kid : string) (w : World)
    : Result CacheError PublicKey * World :=
  let w := emit (EvGetKey kid) w in
  match cached env (cache w) kid with
  | Some key => (Ok key, w)
  | None =>
      match cached env (cache w) kid with
      | Some key => (Ok key, w)
      | None =>
          let w := emit (EvFetch (url (cache w))) w in
          match fetchJWKS env (cache w) with
          | (Some err, c) => (Err (ErrFetchJWKS err), {| cache := c; trace := trace w |})
          | (None, c) =>
              let w := {| cache := c; trace := trace w |} in
              match keys c !! kid with
              | Some key => (Ok key, w)
              | None => (Err (ErrKeyNotFound kid), w)
              end
          end
      end
  end.

(** *** GitHubVerifier *)

Record GitHubVerifier := {
  issuer : string;
  audience : string;
  clockSkew : Z }.

(** [NewGitHubVerifier]: the verifier and the key cache behind its
    pointer, which holds no key yet. *)
Definition NewGitHubVerifier (issuer audience : string) (clockSkew jwksTTL : Z)
    : GitHubVerifier * JWKSCache :=
  ({| issuer := issuer; audience := audience; clockSkew := clockSkew |},
   NewJWKSCache (issuer +:+ "/.well-known/jwks") jwksTTL).

Inductive KeyfuncError :=
| ErrUnexpectedSigningMethod (alg : option Value)
| ErrMissingKid
| ErrGetPublicKey (e : CacheError).

Inductive VerifyError :=
| ErrVerifyToken (e : jwt.Error KeyfuncError)
| ErrTokenInvalid
| ErrInvalidIssuer (expected got : string)
| ErrInvalidAudienceType
| ErrAudienceMismatch (expected : string)
| ErrRepository
| ErrRef
| ErrActor
| ErrRunID
| ErrWorkflow.

(** [claims[key].(string)] *)
Definition asString (claims : gmap string Value) (key : string) : option string :=
  match claims !! key with
  | Some (VString s) => Some s
  | _ => None
  end.

Definition extractAudience (claims : gmap string Value) : option (list string) :=
  match claims !! "aud" with
  | Some (VString a) => Some [a]
  | Some (VArray a) =>
      Some (omap (fun item => match item with VString s => Some s | _ => None end) a)
  | _ => None
  end.

Definition containsAudience (audiences : list string) (expected : string) : bool :=
  existsb (fun aud => String.eqb aud expected) audiences.

Definition extractRunID (claims : gmap string Value) : string :=
  match claims !! "run_id" with
  | Some (VString runID) => runID
  | Some (VFloat64 runID) => float64.format_0f runID
  | _ => ""
  end.

Definition extractTimestamp (claims : gmap string Value) (key : string) : Z :=
  match claims !! key with
  | Some (VFloat64 val) => time_Unix (float64.to_int64 val)
  | _ => zeroTime
  end.

Definition keyFunc (env : Env) (token : Token) (w : World)
    : Result KeyfuncError PublicKey * World :=
  match Method token with
  | SigningMethodRSA _ =>
      match Header token !! "kid" with
      | Some (VString kid) =>
          match GetKey env kid w with
          | (Err err, w) => (Err (ErrGetPublicKey err), w)
          | (Ok publicKey, w) => (Ok publicKey, w)
          end
      | _ => (Err ErrMissingKid, w)
      end
  | _ => (Err (ErrUnexpectedSigningMethod (Header token !! "alg")), w)
  end.

(** The part of [Verify] after [jwt.Parse]: the checks on the claims, in
    the order of the code. *)
Definition checkClaims (v : GitHubVerifier) (claims : gmap string Value)
    : Result VerifyError VerifiedClaims :=
  match asString claims "iss" with
  | None => Err (ErrInvalidIssuer (issuer v) "")
  | Some iss =>
  if negb (String.eqb iss (issuer v)) then Err (ErrInvalidIssuer (issuer v) iss) else
  match extractAudience claims with
  | None => Err ErrInvalidAudienceType
  | Some aud =>
  if negb (containsAudience aud (audience v)) then Err (ErrAudienceMismatch (audience v)) else
  match asString claims "repository" with
  | None | Some "" => Err ErrRepository
  | Some repository =>
  match asString claims "ref" with
  | None | Some "" => Err ErrRef
  | Some ref =>
  match asString claims "actor" with
  | None | Some "" => Err ErrActor
  | Some actor =>
  let runID := extractRunID claims in
  if String.eqb runID "" then Err ErrRunID else
  let workflow :=
    match asString claims "workflow_ref" with
    | Some wf => wf
    | None =>
        match asString claims "job_workflow_ref" with
        | Some jwf => jwf
        | None => ""
        end
    end in
  if String.eqb workflow "" then Err ErrWorkflow else
  let iat := extractTimestamp claims "iat" in
  let exp := extractTimestamp claims "exp" in
  Ok {| Repository := repository; Ref := ref; Actor := actor;
        RunID := runID; Workflow := workflow;
        IssuedAt := iat; ExpiresAt := exp |}
  end end end end end.

Section Verifier.

(** The RSA signature check of the jwt library, [SigningMethodRSA.Verify]. *)
Variable rsaVerify : SigningMethod -> TokenString -> PublicKey -> bool.

Definition Verify (v : GitHubVerifier) (env : Env) (tokenString : TokenString)
    (w : World) : Result VerifyError VerifiedClaims * World :=
  match Parse rsaVerify tokenString (keyFunc env) (clockSkew v) (now env) w with
  | (Err err, w) => (Err (ErrVerifyToken err), w)
  | (Ok token, w) =>
      if negb (Valid token) then (Err ErrTokenInvalid, w)
      else (checkClaims v (Claims token), w)
  end.

End Verifier.

(** [FakeVerifier]: [VerifyFunc] when it is set, a fixed claim set
    otherwise. *)
Definition FakeVerifier {VS VE : Type}
    (VerifyFunc : option (TokenString -> VS -> Result VE VerifiedClaims * VS))
    (now : Z) (tokenString : TokenString) (vs : VS)
    : Result VE VerifiedClaims * VS :=
  match VerifyFunc with
  | Some f => f tokenString vs
  | None =>
      (Ok {| Repository := "test/repo";
             Ref := "refs/heads/main";
             Actor := "testuser";
             RunID := "123456789";
             Workflow := ".github/workflows/test.yml@refs/heads/main";
             IssuedAt := now;
             ExpiresAt := now + 3600 * Second |}, vs)
  end.

End oidc.

(** ** Package token *)

Module token.
Import json jwt types.

Record Minter := { secret : string; ttl : Z }.

Definition NewMinter (secret : string) (ttl : Z) : Minter :=
  {| secret := secret; ttl := ttl |}.

Inductive SignError := ErrHashUnavailable.

Inductive KeyfuncError := ErrUnexpectedSigningMethod (alg : option Value).

Inductive MintError := ErrSign (e : SignError).

Inductive ValidateError :=
| ErrParseToken (e : jwt.Error KeyfuncError)
| ErrInvalidToken.

(** The claims of [Mint], as the Go map literal gives them. *)
Definition tokenClaims (claims : VerifiedClaims) (now exp : Z) (jti : string)
    : gmap string GoValue :=
  <["iss" := GoString "robohub-auth"]>
  (<["sub" := GoString ("repo:" +:+ Repository claims)]>
  (<["aud" := GoString "robohub-api"]>
  (<["iat" := GoInt64 (Unix_of now)]>
  (<["exp" := GoInt64 (Unix_of exp)]>
  (<["jti" := GoString jti]>
  (<["repo" := GoString (Repository claims)]>
  (<["ref" := GoString (Ref claims)]>
  (<["actor" := GoString (Actor claims)]>
  (<["run_id" := GoString (RunID claims)]>
  (<["scopes" := GoStrings ["ingest:build"]]> ∅)))))))))).

(** The claims as the token carries them: through [json.Marshal] when
    the token is signed and [json.Unmarshal] when it is parsed. *)
Definition minted (claims : VerifiedClaims) (now exp : Z) (jti : string)
    : gmap string Value :=
  roundTrip <$> tokenClaims claims now exp jti.

(** The header of [jwt.NewWithClaims(jwt.SigningMethodHS256, _)]. *)
Definition headerHS256 : gmap string Value :=
  <["typ" := VString "JWT"]> (<["alg" := VString "HS256"]> ∅).

Definition stringsOf (l : list Value) : list string :=
  omap (fun v => match v with VString s => Some s | _ => None end) l.

Section Minter.

(** The MAC of the jwt library's HMAC methods over the first two segments
    of a token, by algorithm name and key. *)
Variable hmac : string -> string -> gmap string Value -> gmap string Value
  -> Result SignError string.

(** [token.SignedString(key)] for a token of the HMAC method [alg]. *)
Definition SignedString (alg : string) (header claims : gmap string Value)
    (key : string) : Result SignError TokenString :=
  match hmac alg key header claims with
  | Ok sig => Ok (Compact header claims sig)
  | Err e => Err e
  end.

(** [SigningMethodHMAC.Verify]: the MAC is computed again and compared. *)
Definition hmacVerify (method : SigningMethod) (tokenString : TokenString)
    (key : string) : bool :=
  match method, tokenString with
  | SigningMethodHMAC alg, Compact header claims sig =>
      match hmac alg key header claims with
      | Ok sig' => String.eqb sig sig'
      | Err _ => false
      end
  | _, _ => false
  end.

(** [Mint] at the instant [now], with [jti] the fresh UUID. *)
Definition Mint (m : Minter) (now : Z) (jti : string) (claims : VerifiedClaims)
    : Result MintError (TokenString * Z) :=
  let exp := now + ttl m in
  match SignedString "HS256" headerHS256 (minted claims now exp jti) (secret m) with
  | Err err => Err (ErrSign err)
  | Ok tokenString => Ok (tokenString, exp)
  end.

Definition keyFunc (m : Minter) (token : Token) (st : unit)
    : Result KeyfuncError string * unit :=
  match Method token with
  | SigningMethodHMAC _ => (Ok (secret m), st)
  | _ => (Err (ErrUnexpectedSigningMethod (Header token !! "alg")), st)
  end.

Definition asString (claims : gmap string Value) (key : string) : string :=
  match claims !! key with
  | Some (VString s) => s
  | _ => ""
  end.

Definition asInt64 (claims : gmap string Value) (key : string) : Z :=
  match claims !! key with
  | Some (VFloat64 f) => float64.to_int64 f
  | _ => 0
  end.

(** [Validate] at the instant [now]. *)
Definition Validate (m : Minter) (now : Z) (tokenString : TokenString)
    : Result ValidateError RoboHubClaims :=
  match Parse hmacVerify tokenString (keyFunc m) 0 now tt with
  | (Err err, _) => Err (ErrParseToken err)
  | (Ok token, _) =>
      if negb (Valid token) then Err ErrInvalidToken
      else
        let claims := Claims token in
        Ok {| rc_Issuer := asString claims "iss";
              rc_Subject := asString claims "sub";
              rc_Audience := asString claims "aud";
              rc_IssuedAt := asInt64 claims "iat";
              rc_ExpiresAt := asInt64 claims "exp";
              rc_JTI := asString claims "jti";
              rc_Repo := asString claims "repo";
              rc_Ref := asString claims "ref";
              rc_Actor := asString claims "actor";
              rc_RunID := asString claims "run_id";
              rc_Scopes :=
                match claims !! "scopes" with
                | Some (VArray scopes) => stringsOf scopes
                | _ => []
                end |}
  end.

End Minter.

End token.

(** ** Package httpapi *)

Module httpapi.
Import types.

(** The collaborators of the handler. *)
Inductive Stage := StageVerify | StageAllow | StageEvaluate | StageMint.

(** The order of the stages as the ordering guarantee words it. *)
Definition pipeline : list Stage :=
  [StageVerify; StageAllow; StageEvaluate; StageMint].

(** The failure categories of the transport boundary and their codes. *)
Inductive Outcome :=
| MalformedRequest
| VerificationFailure
| RateLimitExhausted
| PolicyDenial
| InternalFailure
| Success.

Definition codeOf (o : Outcome) : option string :=
  match o with
  | MalformedRequest => Some "invalid_request"
  | VerificationFailure => Some "invalid_token"
  | RateLimitExhausted => Some "rate_limited"
  | PolicyDenial => Some "policy_violation"
  | InternalFailure => Some "internal_error"
  | Success => None
  end.

Inductive Response :=
| RespondError (status : Z) (body : ErrorResponse)
| RespondJSON (status : Z) (body : AuthResponse).

Definition StatusOK : Z := 200.
Definition StatusBadRequest : Z := 400.
Definition StatusUnauthorized : Z := 401.
Definition StatusForbidden : Z := 403.
Definition StatusTooManyRequests : Z := 429.
Definition StatusInternalServerError : Z := 500.

Definition respondError (status : Z) (errorCode message : string) : Response :=
  RespondError status {| Error := errorCode; Message := message |}.

(** The error code of a response, [None] for a success. *)
Definition errorCode (r : Response) : option string :=
  match r with
  | RespondError _ body => Some (Error body)
  | RespondJSON _ _ => None
  end.

Section Server.

(** The verifier is an interface: any state [VS] and any error type. *)
Context {VS VE : Type}.

Variable hmac : string -> string -> gmap string json.Value -> gmap string json.Value
  -> Result token.SignError string.

(** [t.Format(time.RFC3339)] *)
Variable formatRFC3339 : Z -> string.

Record Server := {
  verifier : TokenString -> VS -> Result VE VerifiedClaims * VS;
  policy : policy.Enforcer;
  minter : token.Minter }.

(** What a request changes: the state behind the verifier and the buckets
    of the limiter. [calls] records the collaborators in the order in
    which the handler calls them. *)
Record State := {
  vstate : VS;
  limiter : ratelimit.Limiter;
  calls : list Stage }.

(** What a request reads from outside: the clock as [Allow] and [Mint]
    see it, the fresh UUID, and the two later readings of the clock, for
    [time.Until(expiresAt)] and for the time of issue in the response. *)
Record Env := { now : Z; jti : string; nowUntil : Z; nowIssued : Z }.

(** [d.Seconds()], in [float64]. *)
Definition Seconds (d : Z) : spec_float :=
  SFadd prec emax (float64.of_Z (Z.quot d Second))
    (SFdiv prec emax (float64.of_Z (Z.rem d Second)) (float64.of_Z 1000000000)).

Definition called (stage : Stage) (st : State) : State :=
  {| vstate := vstate st; limiter := limiter st; calls := calls st ++ [stage] |}.

(** [handleGitHubOIDC]; [body] is what decoding the request body into an
    [AuthRequest] yields, [None] when the decoder returns an error. *)
Definition handleGitHubOIDC (s : Server) (env : Env) (body : option AuthRequest)
    (st : State) : Response * State :=
  match body with
  | None =>
      (respondError StatusBadRequest "invalid_request" "invalid JSON in request body", st)
  | Some req =>
  if isEmpty (OIDCToken req) then
    (respondError StatusBadRequest "invalid_request" "missing oidc_token field", st)
  else
  let st := called StageVerify st in
  let '(verified, vs) := verifier s (OIDCToken req) (vstate st) in
  let st := {| vstate := vs; limiter := limiter st; calls := calls st |} in
  match verified with
  | Err _ =>
      (respondError StatusUnauthorized "invalid_token" "failed to verify OIDC token", st)
  | Ok claims =>
  let st := called StageAllow st in
  let '(allowed, lim) := ratelimit.Allow (limiter st) (Repository claims) (now env) in
  let st := {| vstate := vstate st; limiter := lim; calls := calls st |} in
  if negb allowed then
    (respondError StatusTooManyRequests "rate_limited" "rate limit exceeded for repository", st)
  else
  let st := called StageEvaluate st in
  match policy.Evaluate (policy s) (Repository claims) (Ref claims) with
  | Some err => (respondError StatusForbidden "policy_violation" err, st)
  | None =>
  let st := called StageMint st in
  match token.Mint hmac (minter s) (now env) (jti env) claims with
  | Err _ =>
      (respondError StatusInternalServerError "internal_error" "failed to create access token", st)
  | Ok (accessToken, expiresAt) =>
      let expiresIn := float64.to_int64 (Seconds (time_Sub expiresAt (nowUntil env))) in
      (RespondJSON StatusOK
         {| AccessToken := accessToken;
            ExpiresIn := expiresIn;
            TokenType := "Bearer";
            ar_IssuedAt := formatRFC3339 (nowIssued env);
            Subject :=
              {| sd_Provider := "github_actions";
                 sd_Repository := Repository claims;
                 sd_Ref := Ref claims;
                 sd_Workflow := Workflow claims;
                 sd_RunID := RunID claims;
                 sd_Actor := Actor claims |} |}, st)
  end end end end.

(** How far a request gets: the first failure among the request shape and
    the results of the collaborators, each taken on the state the handler
    calls it with. *)
Definition outcome (s : Server) (env : Env) (body : option AuthRequest)
    (st : State) : Outcome :=
  match body with
  | None => MalformedRequest
  | Some req =>
      if isEmpty (OIDCToken req) then MalformedRequest
      else
        match fst (verifier s (OIDCToken req) (vstate st)) with
        | Err _ => VerificationFailure
        | Ok claims =>
            if negb (fst (ratelimit.Allow (limiter st) (Repository claims) (now env)))
            then RateLimitExhausted
            else
              match policy.Evaluate (policy s) (Repository claims) (Ref claims) with
              | Some _ => PolicyDenial
              | None =>
                  match token.Mint hmac (minter s) (now env) (jti env) claims with
                  | Err _ => InternalFailure
                  | Ok _ => Success
                  end
              end
        end
  end.

(** The number of stages that run for an outcome: a stage runs when all
    stages before it succeeded. *)
Definition stagesFor (o : Outcome) : nat :=
  match o with
  | MalformedRequest => 0
  | VerificationFailure => 1
  | RateLimitExhausted => 2
  | PolicyDenial => 3
  | InternalFailure => 4
  | Success => 4
  end.

End Server.

End httpapi.
(** ** Package config *)

Module config.

Record Config := {
  Port : string;
  JWTSecret : string;
  OIDCIssuer : string;
  OIDCAudience : string;
  ClockSkew : Z;
  JWKSTTLSeconds : Z;
  DefaultBranchOnly : bool;
  DefaultBranch : string;
  RepoDenyList : list string;
  RepoAllowList : list string;
  RateLimitRPS : Q;
  RateLimitBurst : Z;
  TokenTTL : Z }.

(** The environment of the process; [os.Getenv] gives the empty string for
    a variable that is not set. *)
Definition Getenv (environ : gmap string string) (key : string) : string :=
  default "" (environ !! key).

(** [time.Duration(n) * time.Second], in the 64 bits of a duration. *)
Definition seconds (n : Z) : Z := oidc.wrap64 (n * Second).

Inductive LoadError := ErrSecretRequired.

Definition parseCommaSeparated (value : string) : list string :=
  if String.eqb value "" then []
  else
    foldl (fun result part =>
             let trimmed := strings.TrimSpace part in
             if negb (String.eqb trimmed "") then (result ++ [trimmed])%list else result)
          [] (strings.Split value ",").

Section Env.

Variable environ : gmap string string.

(** [strconv.ParseFloat(value, 64)] with its error reduced to [None]; the
    rate is kept as the rational that the limiter computes with. *)
Variable ParseFloat : string -> option Q.

Definition getEnv (key defaultValue : string) : string :=
  let value := Getenv environ key in
  if negb (String.eqb value "") then value else defaultValue.

Definition getEnvInt (key : string) (defaultValue : Z) : Z :=
  let value := Getenv environ key in
  if negb (String.eqb value "") then
    match strconv.Atoi value with
    | Some intVal => intVal
    | None => defaultValue
    end
  else defaultValue.

Definition getEnvFloat (key : string) (defaultValue : Q) : Q :=
  let value := Getenv environ key in
  if negb (String.eqb value "") then
    match ParseFloat value with
    | Some floatVal => floatVal
    | None => defaultValue
    end
  else defaultValue.

Definition getEnvBool (key : string) (defaultValue : bool) : bool :=
  let value := Getenv environ key in
  if negb (String.eqb value "") then
    match strconv.ParseBool value with
    | Some boolVal => boolVal
    | None => defaultValue
    end
  else defaultValue.

Definition LoadFromEnv : Result LoadError Config :=
  let cfg :=
    {| Port := getEnv "PORT" "8080";
       JWTSecret := Getenv environ "ROBOHUB_JWT_SECRET";
       OIDCIssuer := getEnv "ROBOHUB_OIDC_ISSUER" "https://token.actions.githubusercontent.com";
       OIDCAudience := getEnv "ROBOHUB_OIDC_AUDIENCE" "robohub";
       ClockSkew := seconds (getEnvInt "ROBOHUB_CLOCK_SKEW_SECONDS" 60);
       JWKSTTLSeconds := getEnvInt "ROBOHUB_JWKS_TTL_SECONDS" 3600;
       DefaultBranchOnly := getEnvBool "ROBOHUB_DEFAULT_BRANCH_ONLY" false;
       DefaultBranch := getEnv "ROBOHUB_DEFAULT_BRANCH" "main";
       RepoDenyList := parseCommaSeparated (getEnv "ROBOHUB_REPO_DENYLIST" "");
       RepoAllowList := parseCommaSeparated (getEnv "ROBOHUB_REPO_ALLOWLIST" "");
       RateLimitRPS := getEnvFloat "ROBOHUB_RATE_LIMIT_RPS" 1%Q;
       RateLimitBurst := getEnvInt "ROBOHUB_RATE_LIMIT_BURST" 5;
       TokenTTL := seconds (getEnvInt "ROBOHUB_TOKEN_TTL_SECONDS" 600) |} in
  if String.eqb (JWTSecret cfg) "" then Err ErrSecretRequired
  else Ok cfg.

End Env.

End config.


(** * Notions used in the statements *)

Module props.
Import json jwt oidc.

(** The signing algorithms of the RSA family. *)
Definition RSAFamily : list string := ["RS256"; "RS384"; "RS512"].

(** The token went through [jwt.Parse] up to and including the check of
    its signature: header, claims and signature decode, its key was found,
    and the signature verifies under that key. *)
Definition signatureVerified
    (rsaVerify : SigningMethod -> TokenString -> PublicKey -> bool)
    (env : Env) (tokenString : TokenString) (w : World)
    (token : Token) (w1 : World) : Prop :=
  ParseUnverified (E := KeyfuncError) tokenString = Ok token /\
  DecodeSignature tokenString = Some (Signature token) /\
  exists key, keyFunc env token w = (Ok key, w1) /\
              rsaVerify (Method token) tokenString key = true.

(** The instant [now] is inside the validity window of the claims, the
    leeway widening the window at both ends: before [exp + leeway] and
    not before [nbf - leeway], where the bound is present. The bounds are
    the dates that the library reads from the claims ([time.Unix] of the
    number, which wraps around in 64 bits of seconds counted from the
    year 1), as instants on the clock of [now]. *)
Definition withinValidity (leeway : Z) (claims : gmap string Value) (now : Z) : Prop :=
  match parseNumericDate claims "exp" with
  | Ok None => True
  | Ok (Some exp) => now < exp + leeway
  | Err _ => False
  end /\
  match parseNumericDate claims "nbf" with
  | Ok None => True
  | Ok (Some nbf) => nbf - leeway <= now
  | Err _ => False
  end.

(** The fetch of the key set ends in an error: the request cannot be
    made or sent, the status is not 200, the body cannot be read, or the
    body is not a key set document. *)
Definition fetchFails (r : HTTPResult) : Prop :=
  match r with
  | Response 200 (Content (Some _)) => False
  | _ => True
  end.

(** The fetch loop passes over the entry. *)
Definition skipped (key : JWK) : Prop :=
  Kty key <> "RSA" \/
  exists e, parseRSAPublicKey (jwk_N key) (jwk_E key) = Err e.

(** [n] is the integer nearest to [m * 2^e] (for [m >= 0]), the even one
    of the two when [m * 2^e] lies halfway between two integers. *)
Definition nearestEven (m e n : Z) : Prop :=
  if 0 <=? e then n = m * 2 ^ e
  else
    2 * Z.abs (n * 2 ^ (- e) - m) <= 2 ^ (- e) /\
    (2 * Z.abs (n * 2 ^ (- e) - m) = 2 ^ (- e) -> Z.even n = true).

(** A claim that is present and neither a string nor a number. *)
Definition otherType (x : Value) : Prop :=
  match x with
  | VString _ | VFloat64 _ => False
  | _ => True
  end.

(** The claims pass the checks of [checkClaims] that come before the run
    identifier: issuer, audience, repository, ref and actor. *)
Definition upToActor (v : GitHubVerifier) (m : gmap string Value) : Prop :=
  asString m "iss" = Some (issuer v) /\
  (exists aud, extractAudience m = Some aud /\ containsAudience aud (audience v) = true) /\
  (exists s, asString m "repository" = Some s /\ s <> "") /\
  (exists s, asString m "ref" = Some s /\ s <> "") /\
  (exists s, asString m "actor" = Some s /\ s <> "").

(** The state of a bucket of rate 1 and burst [B] that holds [k] tokens at
    the instant [t]: it is full, or its last event was at [t]. *)
Definition holds (B : Z) (t : Z) (k : Z) (lim : rate.Limiter) : Prop :=
  rate.limit lim = 1%Q /\ rate.burst lim = B /\
  (rate.tokens lim == inject_Z k)%Q /\
  0 <= k <= B /\ (k = B \/ rate.last lim = t).

(** The cache can answer for the key identifier: it holds a key under it
    and its last fetch is less than the TTL ago. *)
Definition fresh (env : Env) (c : JWKSCache) (kid : string) : Prop :=
  is_Some (keys c !! kid) /\ time_Sub (now env) (fetchedAt c) < ttl c.

(** The entry of a key set document yields the key. *)
Definition usable (jwk : JWK) (key : PublicKey) : Prop :=
  Kty jwk = "RSA" /\ parseRSAPublicKey (jwk_N jwk) (jwk_E jwk) = Ok key.

(** The key identifier that [Verify] looks up for a token: that of a
    token whose three segments decode, with an algorithm of the RSA family
    and a key identifier that is a string in its header. *)
Definition keyIdOf (tokenString : TokenString) : option string :=
  match tokenString with
  | Malformed _ => None
  | Compact header _ _ =>
      match header !! "alg", header !! "kid" with
      | Some (VString alg), Some (VString kid) =>
          if bool_decide (alg ∈ RSAFamily) then Some kid else None
      | _, _ => None
      end
  | BadSignature _ _ _ => None
  end.

(** The signing algorithms of the HMAC family. *)
Definition HMACFamily : list string := ["HS256"; "HS384"; "HS512"].

(** Calls of [Allow] one after the other, each for a repository at an
    instant. *)
Fixpoint AllowEach (reqs : list (string * Z)) (l : ratelimit.Limiter)
    : list bool * ratelimit.Limiter :=
  match reqs with
  | [] => ([], l)
  | (repository, t) :: reqs =>
      let '(ok, l) := ratelimit.Allow l repository t in
      let '(oks, l) := AllowEach reqs l in
      (ok :: oks, l)
  end.

(** The two lists have the same members. *)
Definition sameMembers (l1 l2 : list string) : Prop := forall x, x ∈ l1 <-> x ∈ l2.

(** The HTTP status of a response and the status of each outcome. *)
Definition statusCode (r : httpapi.Response) : Z :=
  match r with
  | httpapi.RespondError status _ => status
  | httpapi.RespondJSON status _ => status
  end.

Definition statusOf (o : httpapi.Outcome) : Z :=
  match o with
  | httpapi.MalformedRequest => 400
  | httpapi.VerificationFailure => 401
  | httpapi.RateLimitExhausted => 429
  | httpapi.PolicyDenial => 403
  | httpapi.InternalFailure => 500
  | httpapi.Success => 200
  end.

(** [strings.Join(elems, sep)] *)
Fixpoint Join (elems : list string) (sep : string) : string :=
  match elems with
  | [] => ""
  | [e] => e
  | e :: rest => e +:+ sep +:+ Join rest sep
  end.

(** An entry of a list setting as it is kept: not empty, without a comma,
    and without white space at its start and at its end. *)
Definition entry (e : string) : Prop :=
  e <> "" /\ (","%char ∉ list_ascii_of_string e) /\ strings.TrimSpace e = e.

(** What the loop of [parseCommaSeparated] keeps of a piece. *)
Definition kept (part : string) : option string :=
  let trimmed := strings.TrimSpace part in
  if negb (String.eqb trimmed "") then Some trimmed else None.

(** The variables that [LoadFromEnv] reads besides the secret. *)
Definition optionalVariables : list string :=
  ["PORT"; "ROBOHUB_OIDC_ISSUER"; "ROBOHUB_OIDC_AUDIENCE";
   "ROBOHUB_CLOCK_SKEW_SECONDS"; "ROBOHUB_JWKS_TTL_SECONDS";
   "ROBOHUB_DEFAULT_BRANCH_ONLY"; "ROBOHUB_DEFAULT_BRANCH";
   "ROBOHUB_REPO_DENYLIST"; "ROBOHUB_REPO_ALLOWLIST";
   "ROBOHUB_RATE_LIMIT_RPS"; "ROBOHUB_RATE_LIMIT_BURST";
   "ROBOHUB_TOKEN_TTL_SECONDS"].

(** The configuration of the defaults test. *)
Definition defaultConfig (jwtSecret : string) : config.Config :=
  {| config.Port := "8080";
     config.JWTSecret := jwtSecret;
     config.OIDCIssuer := "https://token.actions.githubusercontent.com";
     config.OIDCAudience := "robohub";
     config.ClockSkew := 60 * Second;
     config.JWKSTTLSeconds := 3600;
     config.DefaultBranchOnly := false;
     config.DefaultBranch := "main";
     config.RepoDenyList := [];
     config.RepoAllowList := [];
     config.RateLimitRPS := 1%Q;
     config.RateLimitBurst := 5;
     config.TokenTTL := 600 * Second |}.

End props.

(** * Concrete inputs *)

Module fixtures.
Import json jwt types oidc.

(** The example exponent of the key test: AQAB is 65537. *)
Definition key1 : PublicKey := {| N := 3233; E := 65537 |}.

Definition verifier1 : GitHubVerifier :=
  {| issuer := "https://token.actions.githubusercontent.com";
     audience := "robohub";
     clockSkew := 60 * Second |}.

(** 14 November 2023, 22:13:20 UTC. *)
Definition now1 : Z := 1700000000 * Second.

(** A cache that holds [key1] under the identifier k1, fetched a minute
    before [now1] and kept for an hour. *)
Definition cache1 : JWKSCache :=
  {| url := "https://token.actions.githubusercontent.com/.well-known/jwks";
     ttl := 3600 * Second;
     keys := {["k1" := key1]};
     fetchedAt := now1 - 60 * Second |}.

Definition world1 : World := {| cache := cache1; trace := [] |}.

(** The endpoint is down. *)
Definition env1 : Env := {| now := now1; jwksResponse := DoError |}.

(** A signature check that accepts every token under every key. *)
Definition acceptAll (m : SigningMethod) (t : TokenString) (k : PublicKey) : bool := true.

Definition headerRS256 : gmap string Value :=
  <["alg" := VString "RS256"]> (<["kid" := VString "k1"]> (<["typ" := VString "JWT"]> ∅)).

(** The same header with a symmetric algorithm. *)
Definition headerHMAC : gmap string Value :=
  <["alg" := VString "HS256"]> (<["kid" := VString "k1"]> (<["typ" := VString "JWT"]> ∅)).

(** The claims of a workflow run, without time bounds. *)
Definition baseClaims : gmap string Value :=
  <["iss" := VString "https://token.actions.githubusercontent.com"]>
  (<["aud" := VString "robohub"]>
  (<["repository" := VString "owner/repo"]>
  (<["ref" := VString "refs/heads/main"]>
  (<["actor" := VString "testuser"]>
  (<["run_id" := VString "123456789"]>
  (<["workflow_ref" := VString "owner/repo/.github/workflows/ci.yml@refs/heads/main"]> ∅)))))).

(** 42.9 as a [float64]. *)
Definition f42_9 : spec_float := S754_finite false 6037638250443571 (-47).

(** 2.5 and 3.5 as [float64]. *)
Definition f2_5 : spec_float := S754_finite false 5629499534213120 (-51).
Definition f3_5 : spec_float := S754_finite false 7881299347898368 (-51).

(** -7 as a [float64]. *)
Definition fm7 : spec_float := S754_finite true 7881299347898368 (-50).

(** The same run with another issuer and an expiry in September 2020. *)
Definition expiredForeignClaims : gmap string Value :=
  <["iss" := VString "https://issuer.example"]>
  (<["exp" := VFloat64 (float64.of_Z 1600000000)]> baseClaims).

(** The same run with another issuer and no expiry. *)
Definition foreignClaims : gmap string Value :=
  <["iss" := VString "https://issuer.example"]> baseClaims.

(** The run with an expiry that is a string. *)
Definition textExpClaims : gmap string Value :=
  <["exp" := VString "1700003600"]> baseClaims.

(** The run without its run identifier. *)
Definition noRunIDClaims : gmap string Value := delete "run_id" baseClaims.

(** A date so far ahead that [time.Unix] wraps it around into the past:
    9223372000000000000 seconds, which [float64] holds exactly. *)
Definition farDate : spec_float := float64.of_Z 9223372000000000000.

(** The run with another issuer and this date as its expiry, and the run
    with this date as the start of its validity. *)
Definition farExpForeignClaims : gmap string Value :=
  <["iss" := VString "https://issuer.example"]> (<["exp" := VFloat64 farDate]> baseClaims).

Definition farNbfClaims : gmap string Value := <["nbf" := VFloat64 farDate]> baseClaims.

(** The run with an empty [workflow_ref] beside a [job_workflow_ref]. *)
Definition emptyWorkflowClaims : gmap string Value :=
  <["workflow_ref" := VString ""]>
  (<["job_workflow_ref" := VString "owner/repo/.github/workflows/ci.yml@refs/heads/main"]>
   baseClaims).

(** What [Verify] returns for [baseClaims]. *)
Definition baseVerified : VerifiedClaims :=
  {| Repository := "owner/repo"; Ref := "refs/heads/main"; Actor := "testuser";
     RunID := "123456789";
     Workflow := "owner/repo/.github/workflows/ci.yml@refs/heads/main";
     IssuedAt := zeroTime; ExpiresAt := zeroTime |}.

(** What [ParseUnverified] makes of a token with the RS256 header. *)
Definition parsed (claims : gmap string Value) : Token :=
  {| Method := SigningMethodRSA "RS256"; Header := headerRS256;
     Claims := claims; Signature := "sig"; Valid := false |}.

(** [world1] after one call of [GetKey] that the cache answers. *)
Definition world1' : World := {| cache := cache1; trace := [EvGetKey "k1"] |}.

(** A stand-in for the MAC: it depends on the algorithm and the key. *)
Definition mac (alg key : string) (header claims : gmap string Value)
    : Result token.SignError string :=
  Ok ("mac(" +:+ alg +:+ "," +:+ key +:+ ")").

Definition minter600 : token.Minter := token.NewMinter "test-secret" (600 * Second).

(** A minter whose TTL is a second and a half. *)
Definition minter1500ms : token.Minter := token.NewMinter "test-secret" 1500000000.

Definition claims1 : VerifiedClaims :=
  {| Repository := "owner/repo"; Ref := "refs/heads/main"; Actor := "testuser";
     RunID := "123456789";
     Workflow := ".github/workflows/test.yml@refs/heads/main";
     IssuedAt := now1; ExpiresAt := now1 + 3600 * Second |}.

(** The same claims with a repository that is the single byte 0xFF. *)
Definition claimsFF : VerifiedClaims :=
  {| Repository := String "255" ""; Ref := "refs/heads/main"; Actor := "testuser";
     RunID := "123456789";
     Workflow := ".github/workflows/test.yml@refs/heads/main";
     IssuedAt := now1; ExpiresAt := now1 + 3600 * Second |}.

(** Nine tenths of a second after [now1]. *)
Definition now1_9 : Z := now1 + 900000000.

(** Six tenths of a second after [now1]. *)
Definition now1_6 : Z := now1 + 600000000.

(** The token that [minter] mints at [now] from [claims]. *)
Definition tokenOf (minter : token.Minter) (now : Z) (claims : VerifiedClaims)
    : TokenString :=
  match token.Mint mac minter now "jti-1" claims with
  | Ok (t, _) => t
  | Err _ => Malformed ""
  end.

(** The test server of the handler tests: the fake verifier, no policy,
    and a limiter of rate 10 and burst 10. *)
Definition testServer (enforcer : policy.Enforcer) : httpapi.Server (VS := unit) (VE := unit) :=
  {| httpapi.verifier := oidc.FakeVerifier None now1;
     httpapi.policy := enforcer;
     httpapi.minter := token.NewMinter "test-secret" (600 * Second) |}.

Definition testState (rps : Q) (burst : Z) : httpapi.State (VS := unit) :=
  {| httpapi.vstate := tt;
     httpapi.limiter := ratelimit.NewLimiter rps burst;
     httpapi.calls := [] |}.

(** The clock is read again a millisecond and two milliseconds after the
    token was minted. *)
Definition testEnv : httpapi.Env :=
  {| httpapi.now := now1; httpapi.jti := "jti-1";
     httpapi.nowUntil := now1 + 1000000; httpapi.nowIssued := now1 + 2000000 |}.

Definition rfc3339 (t : Z) : string := "2023-11-14T22:13:20Z".

Definition validRequest : option AuthRequest :=
  Some {| OIDCToken := Malformed "valid-token" |}.

(** Two hours after [now1] the endpoint serves a key set with another
    key only. *)
Definition rotatedDoc : list JWK :=
  [ {| Kid := "k2"; Kty := "RSA"; Use := "sig"; jwk_N := "AQAB"; jwk_E := "AQAB" |} ].

Definition rotatedEnv : Env :=
  {| now := now1 + 7200 * Second;
     jwksResponse := Response 200 (Content (Some rotatedDoc)) |}.

(** The claims that the fake verifier returns at [now1]. *)
Definition fakeClaims : VerifiedClaims :=
  {| Repository := "test/repo"; Ref := "refs/heads/main"; Actor := "testuser";
     RunID := "123456789";
     Workflow := ".github/workflows/test.yml@refs/heads/main";
     IssuedAt := now1; ExpiresAt := now1 + 3600 * Second |}.

(** The test server without any policy, and its answer to the valid
    request. *)
Definition openServer : httpapi.Server (VS := unit) (VE := unit) :=
  testServer (policy.NewEnforcer false "main" [] []).

Definition okResponse : AuthResponse :=
  {| AccessToken := tokenOf minter600 now1 fakeClaims;
     ExpiresIn := 599;
     TokenType := "Bearer";
     ar_IssuedAt := rfc3339 (now1 + 2000000);
     Subject :=
       {| sd_Provider := "github_actions";
          sd_Repository := "test/repo";
          sd_Ref := "refs/heads/main";
          sd_Workflow := ".github/workflows/test.yml@refs/heads/main";
          sd_RunID := "123456789";
          sd_Actor := "testuser" |} |}.

(** An environment with the secret, a token lifetime and a deny list. *)
Definition testEnviron : gmap string string :=
  <["ROBOHUB_JWT_SECRET" := "custom-secret"]>
  (<["ROBOHUB_TOKEN_TTL_SECONDS" := "300"]>
  (<["ROBOHUB_REPO_DENYLIST" := "evil/repo, bad/actor ,"]> ∅)).

(** A parser of numbers that accepts nothing. *)
Definition parseNoFloat (s : string) : option Q := None.

(** What [LoadFromEnv] makes of [testEnviron]. *)
Definition testConfig : config.Config :=
  {| config.Port := "8080";
     config.JWTSecret := "custom-secret";
     config.OIDCIssuer := "https://token.actions.githubusercontent.com";
     config.OIDCAudience := "robohub";
     config.ClockSkew := 60 * Second;
     config.JWKSTTLSeconds := 3600;
     config.DefaultBranchOnly := false;
     config.DefaultBranch := "main";
     config.RepoDenyList := ["evil/repo"; "bad/actor"];
     config.RepoAllowList := [];
     config.RateLimitRPS := 1%Q;
     config.RateLimitBurst := 5;
     config.TokenTTL := 300 * Second |}.

End fixtures.
(** * Times in 64 bits *)

Section TimeProps.

Lemma wrapInt64_small (z : Z) : - 2 ^ 63 <= z < 2 ^ 63 -> wrapInt64 z = z.
Proof. intros H. unfold wrapInt64. rewrite Z.mod_small by lia. lia. Qed.

Lemma wrapInt64_range (z : Z) : - 2 ^ 63 <= wrapInt64 z < 2 ^ 63.
Proof.
  unfold wrapInt64. pose proof (Z.mod_pos_bound (z + 2 ^ 63) (2 ^ 64) ltac:(lia)). lia.
Qed.

(** The result of [time.Unix] is a number of seconds within the 64 bits
    from year 1, and less than a second on top of it. *)
Lemma time_Unix_ns_form (sec nsec : Z) :
  exists x r, time_Unix_ns sec nsec = (wrapInt64 x - unixToInternal) * Second + r /\
              0 <= r < Second.
Proof.
  unfold time_Unix_ns.
  destruct ((nsec <? 0) || (Second <=? nsec)) eqn:E.
  - pose proof (Z.quot_rem' nsec Second) as Hqr.
    pose proof (Z.rem_bound_abs nsec Second ltac:(discriminate)) as Hb.
    assert (Hr : nsec - Z.quot nsec Second * Second = Z.rem nsec Second) by lia.
    rewrite Hr. change (Z.abs Second) with Second in Hb.
    destruct (Z.ltb_spec (Z.rem nsec Second) 0); eexists; eexists; (split; [reflexivity|]); lia.
  - apply orb_false_elim in E as [E1 E2].
    apply Z.ltb_ge in E1. apply Z.leb_gt in E2.
    eexists; eexists; (split; [reflexivity|]); lia.
Qed.

Lemma time_Unix_small (sec : Z) :
  Z.abs sec < 2 ^ 53 -> time_Unix_ns sec 0 = sec * Second.
Proof.
  intros H. unfold time_Unix_ns. cbn [Z.ltb Z.compare orb].
  replace (Second <=? 0) with false by reflexivity.
  rewrite wrapInt64_small by (unfold unixToInternal; lia). lia.
Qed.

(** Without nanoseconds the result is a whole number of seconds. *)
Lemma time_Unix_ns_whole (sec : Z) : exists e, time_Unix_ns sec 0 = e * Second.
Proof.
  unfold time_Unix_ns. cbn [Z.ltb Z.compare orb].
  replace (Second <=? 0) with false by reflexivity.
  eexists. apply Z.add_0_r.
Qed.

Lemma Second_pos : 0 < Second.
Proof. reflexivity. Qed.

Lemma Truncate_whole (e r : Z) :
  0 <= r < Second -> (e * Second + r) / Second * Second = e * Second.
Proof.
  intros Hr. rewrite Z.div_add_l by discriminate.
  rewrite (Z.div_small r) by lia. lia.
Qed.

(** [t.Add(d)] adds the duration as long as the seconds stay within their
    64 bits, and stops at the largest or smallest number of seconds
    otherwise. *)
Lemma time_Add_spec (t d : Z) :
  - 2 ^ 63 <= t / Second + unixToInternal < 2 ^ 63 ->
  - 2 ^ 63 <= d < 2 ^ 63 ->
  let ext := t / Second + unixToInternal in
  let q := (t mod Second + d) / Second in
  let r := (t mod Second + d) mod Second in
  time_Add t d
  = ((if (- 2 ^ 63 <=? ext + q) && (ext + q <? 2 ^ 63) then ext + q
      else if 0 <? q then 2 ^ 63 - 1 else - (2 ^ 63 - 1)) - unixToInternal) * Second + r.
Proof.
  intros Hext Hd ext q r. unfold time_Add. fold ext.
  pose proof (Z.mod_pos_bound t Second Second_pos) as Ht.
  pose proof (Z.quot_rem' d Second) as Hqr.
  pose proof (Z.rem_bound_abs d Second ltac:(discriminate)) as Hb.
  change (Z.abs Second) with Second in Hb.
  set (dq := Z.quot d Second) in *. set (dr := Z.rem d Second) in *.
  set (tm := t mod Second) in *.
  assert (Hdiv : forall a b, 0 <= b < Second -> tm + d = a * Second + b -> a = q /\ b = r).
  { intros a b Hb' Heq. subst q r. rewrite Heq. split.
    - rewrite Z.div_add_l by discriminate. rewrite (Z.div_small b) by lia. lia.
    - rewrite Z.add_comm, Z.mod_add by discriminate. symmetry. apply Z.mod_small. lia. }
  assert (Hq : - 2 ^ 63 <= q < 2 ^ 63).
  { destruct (Hdiv q r) as [_ _].
    - apply Z.mod_pos_bound. reflexivity.
    - subst q r. pose proof (Z.div_mod (tm + d) Second ltac:(discriminate)). lia.
    - assert (Hqd : q * Second <= tm + d < q * Second + Second).
      { subst q. pose proof (Z.div_mod (tm + d) Second ltac:(discriminate)).
        pose proof (Z.mod_pos_bound (tm + d) Second Second_pos). lia. }
      unfold Second in *. lia. }
  assert (Hsplit : exists dsec nsec,
    (if Second <=? tm + dr then (dq + 1, tm + dr - Second)
     else if tm + dr <? 0 then (dq - 1, tm + dr + Second)
     else (dq, tm + dr)) = (dsec, nsec) /\ dsec = q /\ nsec = r).
  { destruct (Z.leb_spec Second (tm + dr)).
    - eexists; eexists; split; [reflexivity|]. apply Hdiv; lia.
    - destruct (Z.ltb_spec (tm + dr) 0).
      + eexists; eexists; split; [reflexivity|]. apply Hdiv; lia.
      + eexists; eexists; split; [reflexivity|]. apply Hdiv; lia. }
  destruct Hsplit as (dsec & nsec & -> & -> & ->).
  f_equal. f_equal. f_equal.
  destruct (Z.leb_spec (- 2 ^ 63) (ext + q)) as [Hlo|Hlo];
    destruct (Z.ltb_spec (ext + q) (2 ^ 63)) as [Hhi|Hhi]; cbn [andb].
  - rewrite wrapInt64_small by lia.
    destruct (Z.ltb_spec ext (ext + q)), (Z.ltb_spec 0 q); cbn; lia.
  - assert (Hw : wrapInt64 (ext + q) = ext + q - 2 ^ 64).
    { unfold wrapInt64.
      replace ((ext + q + 2 ^ 63) mod 2 ^ 64) with (ext + q + 2 ^ 63 - 2 ^ 64); [lia|].
      apply Z.mod_unique with (q := 1); lia. }
    rewrite Hw.
    destruct (Z.ltb_spec ext (ext + q - 2 ^ 64)); [lia|].
    destruct (Z.ltb_spec 0 q); cbn; lia.
  - assert (Hw : wrapInt64 (ext + q) = ext + q + 2 ^ 64).
    { unfold wrapInt64.
      replace ((ext + q + 2 ^ 63) mod 2 ^ 64) with (ext + q + 2 ^ 63 + 2 ^ 64); [lia|].
      apply Z.mod_unique with (q := -1); lia. }
    rewrite Hw.
    destruct (Z.ltb_spec ext (ext + q + 2 ^ 64)); [|lia].
    destruct (Z.ltb_spec 0 q); cbn; lia.
  - lia.
Qed.

Lemma time_Add_zero (e : Z) :
  - 2 ^ 63 <= e + unixToInternal < 2 ^ 63 -> time_Add (e * Second) 0 = e * Second.
Proof.
  intros He.
  assert (Hdiv : e * Second / Second = e) by (apply Z.div_mul; discriminate).
  assert (Hmod : (e * Second) mod Second = 0) by (apply Z.mod_mul; discriminate).
  rewrite time_Add_spec by (rewrite ?Hdiv; lia).
  rewrite Hdiv, Hmod.
  change ((0 + 0) / Second) with 0. change ((0 + 0) mod Second) with 0.
  rewrite !Z.add_0_r.
  replace ((- 2 ^ 63 <=? e + unixToInternal) && (e + unixToInternal <? 2 ^ 63)) with true.
  - lia.
  - symmetry. apply andb_true_intro. split; [apply Z.leb_le | apply Z.ltb_lt]; lia.
Qed.

(** For a clock within the 64 bits of a count of nanoseconds, comparing
    with [t.Add(d)] is comparing with the sum. *)
Lemma time_Add_ltb (e d now : Z) :
  - 2 ^ 63 <= e + unixToInternal < 2 ^ 63 ->
  - 2 ^ 63 <= d < 2 ^ 63 ->
  minDuration <= now <= maxDuration ->
  (now <? time_Add (e * Second) d) = (now <? e * Second + d).
Proof.
  intros He Hd Hnow.
  assert (Hdiv : e * Second / Second = e) by (apply Z.div_mul; discriminate).
  assert (Hmod : (e * Second) mod Second = 0) by (apply Z.mod_mul; discriminate).
  rewrite time_Add_spec by (rewrite ?Hdiv; lia).
  rewrite Hdiv, Hmod, Z.add_0_l.
  pose proof (Z.div_mod d Second ltac:(discriminate)) as Hdm.
  pose proof (Z.mod_pos_bound d Second Second_pos) as Hr.
  set (q := d / Second) in *. set (r := d mod Second) in *.
  unfold minDuration, maxDuration, unixToInternal, Second in *.
  destruct (Z.leb_spec (- 2 ^ 63) (e + 62135596800 + q)) as [Hlo|Hlo];
    destruct (Z.ltb_spec (e + 62135596800 + q) (2 ^ 63)) as [Hhi|Hhi]; cbn [andb].
  - f_equal. lia.
  - replace (0 <? q) with true by (symmetry; apply Z.ltb_lt; lia).
    transitivity true; [apply Z.ltb_lt | symmetry; apply Z.ltb_lt]; lia.
  - replace (0 <? q) with false by (symmetry; apply Z.ltb_ge; lia).
    transitivity false; [apply Z.ltb_ge | symmetry; apply Z.ltb_ge]; lia.
  - lia.
Qed.

End TimeProps.

(** * The fixtures against the primitive floats *)

Section FloatFixtures.
Import fixtures.

Example f42_9_is_42_9 : Prim2SF 0x1.5733333333333p+5%float = f42_9.
Proof. reflexivity. Qed.

Example f2_5_is_2_5 : Prim2SF 2.5%float = f2_5.
Proof. reflexivity. Qed.

Example f3_5_is_3_5 : Prim2SF 3.5%float = f3_5.
Proof. reflexivity. Qed.

Example fm7_is_minus_7 : Prim2SF (-7)%float = fm7.
Proof. reflexivity. Qed.

Example of_Z_123456789 : float64.of_Z 123456789 = Prim2SF 123456789%float.
Proof. reflexivity. Qed.

Example format_examples :
  float64.format_0f (float64.of_Z 123456789) = "123456789" /\
  float64.format_0f f42_9 = "43" /\
  float64.format_0f f2_5 = "2" /\
  float64.format_0f f3_5 = "4" /\
  float64.format_0f fm7 = "-7".
Proof. repeat split; vm_compute; reflexivity. Qed.

(** The nanoseconds of a fraction are those of the rounded product: for
    the [float64] nearest to 0.3, a little below it, they are 300000000;
    the fraction of -1.5 is -0.5. *)
Example frac_nanos_examples :
  float64.frac_nanos (Prim2SF 0x1.3333333333333p-2%float) = 300000000 /\
  float64.frac_nanos f42_9 = 899999999 /\
  float64.frac_nanos (Prim2SF (-1.5)%float) = -500000000 /\
  float64.frac_nanos fm7 = 0.
Proof. repeat split; vm_compute; reflexivity. Qed.

End FloatFixtures.

(** * Integers below 2^53 are exact in float64 *)

Section FloatExact.

Lemma digits2_pos_iter_xO (m k : positive) :
  digits2_pos (Pos.iter xO m k) = (digits2_pos m + k)%positive.
Proof.
  induction k as [|k IH] using Pos.peano_ind.
  - cbn. by rewrite Pos.add_1_r.
  - rewrite Pos.iter_succ. cbn [digits2_pos]. rewrite IH. lia.
Qed.

Lemma Zpos_iter_xO (m k : positive) :
  Z.pos (Pos.iter xO m k) = Z.pos m * 2 ^ Z.pos k.
Proof.
  induction k as [|k IH] using Pos.peano_ind.
  - cbn. lia.
  - rewrite Pos.iter_succ, Pos2Z.inj_succ, Z.pow_succ_r by lia.
    pose proof (Pos2Z.inj_xO (Pos.iter xO m k)) as Hx. lia.
Qed.

Lemma digits2_pos_bounds (m : positive) :
  2 ^ (Z.pos (digits2_pos m) - 1) <= Z.pos m < 2 ^ Z.pos (digits2_pos m).
Proof.
  induction m as [m IH|m IH|]; cbn [digits2_pos].
  - rewrite Pos2Z.inj_succ.
    replace (Z.succ (Z.pos (digits2_pos m)) - 1) with (Z.succ (Z.pos (digits2_pos m) - 1)) by lia.
    rewrite !Z.pow_succ_r by lia. lia.
  - rewrite Pos2Z.inj_succ.
    replace (Z.succ (Z.pos (digits2_pos m)) - 1) with (Z.succ (Z.pos (digits2_pos m) - 1)) by lia.
    rewrite !Z.pow_succ_r by lia. lia.
  - cbn. lia.
Qed.

Lemma digits2_pos_le_53 (m : positive) :
  Z.pos m < 2 ^ 53 -> Z.pos (digits2_pos m) <= 53.
Proof.
  intros H. pose proof (digits2_pos_bounds m) as [Hlo _].
  destruct (Z.le_gt_cases (Z.pos (digits2_pos m)) 53) as [Hle|Hgt]; [exact Hle|].
  exfalso. assert (2 ^ 53 <= 2 ^ (Z.pos (digits2_pos m) - 1)).
  { apply Z.pow_le_mono_r; lia. }
  lia.
Qed.

Lemma binary_round_aux_exact (s : bool) (mz : positive) (ez : Z) :
  Z.pos (digits2_pos mz) = 53 -> -1074 <= ez <= 971 ->
  binary_round_aux prec emax s (Z.pos mz) ez loc_Exact = S754_finite s mz ez.
Proof.
  intros Hd He. unfold binary_round_aux, shr_fexp, fexp, emin, prec, emax.
  cbn [Zdigits2 shr_record_of_loc]. rewrite Hd.
  replace (Z.max (53 + ez - 53) (3 - 1024 - 53) - ez) with 0 by lia.
  cbn [shr shr_m loc_of_shr_record round_nearest_even Zdigits2 shr_record_of_loc].
  rewrite Hd.
  replace (Z.max (53 + ez - 53) (3 - 1024 - 53) - ez) with 0 by lia.
  cbn [shr shr_m].
  replace (ez <=? 1024 - 53) with true by (symmetry; apply Z.leb_le; lia).
  reflexivity.
Qed.

(** A positive integer below 2^53 converts to the float with the same
    value: mantissa [n * 2^k] and exponent [-k]. *)
Lemma binary_round_exact (s : bool) (m : positive) :
  Z.pos m < 2 ^ 53 ->
  exists mz k, 0 <= k /\ Z.pos mz = Z.pos m * 2 ^ k /\
    binary_round prec emax s m 0 = S754_finite s mz (- k).
Proof.
  intros Hm. pose proof (digits2_pos_le_53 m Hm) as Hd.
  unfold binary_round, shl_align, fexp, emin, prec, emax.
  set (d := Z.pos (digits2_pos m)) in *.
  assert (Hd1 : 1 <= d) by (subst d; lia).
  replace (Z.max (d + 0 - 53) (3 - 1024 - 53) - 0) with (d - 53) by lia.
  replace (Z.max (d + 0 - 53) (3 - 1024 - 53)) with (d - 53) by lia.
  destruct (d - 53) as [|p|p] eqn:E; [| lia |].
  - exists m, 0. split; [lia|]. split; [lia|].
    rewrite binary_round_aux_exact; [reflexivity | subst d; lia | lia].
  - exists (Pos.iter xO m p), (Z.pos p). split; [lia|]. split; [apply Zpos_iter_xO|].
    replace (Z.neg p) with (- Z.pos p) by reflexivity.
    rewrite binary_round_aux_exact; [reflexivity | | lia].
    rewrite digits2_pos_iter_xO, Pos2Z.inj_add. fold d. lia.
Qed.

Lemma scale_trunc_exact (n k : Z) :
  0 <= k -> float64.scale_trunc (n * 2 ^ k) (- k) = n.
Proof.
  intros Hk. unfold float64.scale_trunc.
  destruct (Z.leb_spec 0 (- k)) as [H|H].
  - replace k with 0 by lia. cbn. lia.
  - rewrite Z.opp_involutive. apply Z.div_mul. apply Z.pow_nonzero; lia.
Qed.

Lemma of_Z_cases (n : Z) :
  Z.abs n < 2 ^ 53 ->
  (n = 0 /\ float64.of_Z n = S754_zero false) \/
  (n <> 0 /\ exists mz k, 0 <= k /\ Z.pos mz = Z.abs n * 2 ^ k /\
     float64.of_Z n = S754_finite (n <? 0) mz (- k)).
Proof.
  intros H. unfold float64.of_Z, binary_normalize. destruct n as [|p|p].
  - left. split; reflexivity.
  - right. split; [discriminate|].
    destruct (binary_round_exact false p) as (mz & k & Hk & Hmz & Hr); [cbn in H; lia|].
    exists mz, k. repeat split; try assumption.
  - right. split; [discriminate|].
    destruct (binary_round_exact true p) as (mz & k & Hk & Hmz & Hr); [cbn in H; lia|].
    exists mz, k. repeat split; try assumption.
Qed.

Lemma to_int64_of_Z (n : Z) :
  Z.abs n < 2 ^ 53 -> float64.to_int64 (float64.of_Z n) = n.
Proof.
  intros H. destruct (of_Z_cases n H) as [[-> ->] | (Hn & mz & k & Hk & Hmz & ->)].
  - reflexivity.
  - unfold float64.to_int64, float64.trunc. rewrite Hmz, scale_trunc_exact by exact Hk.
    unfold float64.minInt64, float64.maxInt64.
    destruct (Z.ltb_spec n 0).
    + replace ((- 2 ^ 63 <=? - Z.abs n) && (- Z.abs n <=? 2 ^ 63 - 1)) with true; [lia|].
      symmetry. apply andb_true_intro. split; apply Z.leb_le; lia.
    + replace ((- 2 ^ 63 <=? Z.abs n) && (Z.abs n <=? 2 ^ 63 - 1)) with true; [lia|].
      symmetry. apply andb_true_intro. split; apply Z.leb_le; lia.
Qed.

Lemma frac_nanos_of_Z (n : Z) :
  Z.abs n < 2 ^ 53 -> float64.frac_nanos (float64.of_Z n) = 0.
Proof.
  intros H. destruct (of_Z_cases n H) as [[-> ->] | (Hn & mz & k & Hk & Hmz & ->)].
  - reflexivity.
  - assert (Hz : float64.modf_frac (S754_finite (n <? 0) mz (- k)) = S754_zero (n <? 0)).
    { unfold float64.modf_frac. destruct (Z.leb_spec 0 (- k)); [reflexivity|].
      rewrite Z.opp_involutive, Hmz, Z.mod_mul by (apply Z.pow_nonzero; lia).
      by destruct (n <? 0). }
    unfold float64.frac_nanos. rewrite Hz. by destruct (n <? 0).
Qed.

Lemma is_zero_of_Z (n : Z) :
  Z.abs n < 2 ^ 53 -> float64.is_zero (float64.of_Z n) = (n =? 0).
Proof.
  intros H. destruct (of_Z_cases n H) as [[-> ->] | (Hn & mz & k & Hk & Hmz & ->)].
  - reflexivity.
  - replace (n =? 0) with false by (symmetry; apply Z.eqb_neq; exact Hn).
    unfold float64.is_zero, SFeqb, SFcompare. by destruct (n <? 0).
Qed.

Lemma numericDate_of_Z (n : Z) :
  Z.abs n < 2 ^ 53 -> jwt.numericDate (float64.of_Z n) = n * Second.
Proof.
  intros H. unfold jwt.numericDate, jwt.Truncate_Second.
  rewrite to_int64_of_Z, frac_nanos_of_Z, time_Unix_small by exact H.
  rewrite Z.div_mul; [reflexivity | discriminate].
Qed.

(** A date of a claim is a whole number of seconds within the 64 bits
    from year 1. *)
Lemma numericDate_form (f : spec_float) :
  exists e, jwt.numericDate f = e * Second /\
            - 2 ^ 63 <= e + unixToInternal < 2 ^ 63.
Proof.
  unfold jwt.numericDate, jwt.Truncate_Second.
  destruct (time_Unix_ns_form (float64.to_int64 f) (float64.frac_nanos f))
    as (x & r & -> & Hr).
  exists (wrapInt64 x - unixToInternal). split; [by apply Truncate_whole|].
  pose proof (wrapInt64_range x). lia.
Qed.

End FloatExact.
(** * Properties of package policy *)

Section PolicyProps.
Import policy.

Lemma index_mark_all (l : list string) (k : string) :
  index (mark_all l) k = bool_decide (k ∈ l).
Proof.
  unfold mark_all.
  assert (G : ∀ (m : gmap string bool),
    index (foldl (fun m repo => <[repo := true]> m) m l) k
    = index m k || bool_decide (k ∈ l)).
  { induction l as [|r l IH]; intros m; cbn [foldl].
    - rewrite bool_decide_eq_false_2; [by rewrite orb_false_r | apply not_elem_of_nil].
    - rewrite IH. unfold index. destruct (decide (r = k)) as [->|Hne].
      + rewrite lookup_insert_eq. cbn [default].
        rewrite (bool_decide_eq_true_2 (k ∈ k :: l)); [by rewrite orb_true_r | by left].
      + rewrite lookup_insert_ne by done.
        f_equal. apply bool_decide_ext. rewrite elem_of_cons.
        split; [by right | intros [Heq | Hin]; [by symmetry in Heq | done]]. }
  rewrite G. unfold index. by rewrite lookup_empty.
Qed.

Lemma size_mark_all (l : list string) :
  Nat.ltb 0 (size (mark_all l)) = bool_decide (l ≠ []).
Proof.
  destruct l as [|r l].
  - by rewrite bool_decide_eq_false_2 by (intros H; by apply H).
  - rewrite bool_decide_eq_true_2 by done.
    apply Nat.ltb_lt.
    assert (H : index (mark_all (r :: l)) r = true).
    { rewrite index_mark_all. apply bool_decide_eq_true_2. by left. }
    unfold index in H.
    destruct (mark_all (r :: l) !! r) as [b|] eqn:E; [|done].
    destruct (decide (size (mark_all (r :: l)) = 0%nat)) as [Hz|Hz]; [|lia].
    apply map_size_empty_inv in Hz. rewrite Hz in E. by rewrite lookup_empty in E.
Qed.

(** C8: [Evaluate] denies a denylisted repository first (also when it is
    allowlisted), then a repository missing from a non-empty allowlist,
    then a ref other than ["refs/heads/" ++ branch] when only the default
    branch is permitted, and allows everything else. *)
Theorem Evaluate_order (dbo : bool) (branch : string)
    (allow deny : list string) (repository ref : string) :
  Evaluate (NewEnforcer dbo branch allow deny) repository ref
  = Evaluate_spec dbo branch allow deny repository ref.
Proof.
  unfold Evaluate, Evaluate_spec, NewEnforcer; simpl.
  rewrite !index_mark_all, size_mark_all.
  destruct (decide (repository ∈ deny)) as [Hd|Hd].
  { by rewrite bool_decide_eq_true_2. }
  rewrite bool_decide_eq_false_2 by done.
  destruct (decide (allow ≠ [] ∧ repository ∉ allow)) as [[Ha Hn]|Ha].
  { rewrite bool_decide_eq_true_2 by done.
    by rewrite bool_decide_eq_false_2. }
  assert (bool_decide (allow ≠ []) && negb (bool_decide (repository ∈ allow)) = false) as ->.
  { destruct (decide (allow = [])) as [->|Hne].
    - by rewrite bool_decide_eq_false_2 by (intros H; by apply H).
    - rewrite bool_decide_eq_true_2 by done. simpl.
      destruct (decide (repository ∈ allow)).
      + by rewrite bool_decide_eq_true_2.
      + exfalso. by apply Ha. }
  destruct dbo.
  - destruct (String.eqb_spec ref ("refs/heads/" +:+ branch)) as [->|Hne]; simpl.
    + rewrite decide_False; [done | intros [_ Hne]; by apply Hne].
    + by rewrite decide_True.
  - rewrite decide_False; [done | intros [Hf _]; discriminate Hf].
Qed.

End PolicyProps.

Section PolicyExamples.
Import policy.

(** The table of the policy test of the repository. *)
Example Evaluate_tests :
  Evaluate (NewEnforcer false "" [] []) "owner/repo" "refs/heads/main" = None /\
  Evaluate (NewEnforcer false "" [] ["evil/repo"]) "evil/repo" "refs/heads/main"
  = Some "repository evil/repo is denied by policy" /\
  Evaluate (NewEnforcer false "" ["good/repo"] []) "other/repo" "refs/heads/main"
  = Some "repository other/repo is not in allowlist" /\
  Evaluate (NewEnforcer false "" ["good/repo"] []) "good/repo" "refs/heads/main" = None /\
  Evaluate (NewEnforcer true "main" [] []) "owner/repo" "refs/heads/main" = None /\
  Evaluate (NewEnforcer true "main" [] []) "owner/repo" "refs/heads/develop"
  = Some "only default branch refs/heads/main is allowed, got refs/heads/develop" /\
  Evaluate (NewEnforcer false "" ["conflicted/repo"] ["conflicted/repo"])
    "conflicted/repo" "refs/heads/main"
  = Some "repository conflicted/repo is denied by policy".
Proof. repeat split; vm_compute; reflexivity. Qed.

End PolicyExamples.

(** * Properties of the rate limiter *)

Section RateProps.
Import rate props.
Local Open Scope Q_scope.

Lemma Qltb_lt (a b : Q) : Qltb a b = true <-> a < b.
Proof.
  unfold Qltb. rewrite negb_true_iff, <- not_true_iff_false, Qle_bool_iff.
  split; [apply Qnot_le_lt | apply Qlt_not_le].
Qed.

Lemma Qltb_ge (a b : Q) : Qltb a b = false <-> b <= a.
Proof.
  unfold Qltb. rewrite negb_false_iff. apply Qle_bool_iff.
Qed.

Lemma Qtrunc_inject (q : Q) (z : Z) : q == inject_Z z -> Qtrunc q = z.
Proof.
  unfold Qeq, Qtrunc. simpl. intros H.
  rewrite Z.mul_1_r in H. rewrite H. apply Z.quot_mul. discriminate.
Qed.

Lemma one_is_not_Inf : Qeq_bool 1 Inf = false.
Proof. vm_compute. reflexivity. Qed.

Lemma time_Sub_nonneg (t u : Z) : (u <= t)%Z -> (0 <= time_Sub t u)%Z.
Proof. unfold time_Sub, minDuration, maxDuration. lia. Qed.

Lemma time_Sub_diag (t : Z) : time_Sub t t = 0%Z.
Proof. unfold time_Sub, minDuration, maxDuration. lia. Qed.

Lemma tokensFromDuration_one_nonneg (d : Z) :
  (0 <= d)%Z -> 0 <= tokensFromDuration 1 d.
Proof.
  intros H. unfold tokensFromDuration. change (Qle_bool 1 0) with false. cbv iota.
  rewrite Qmult_1_r. apply Qle_shift_div_l; [reflexivity|].
  rewrite Qmult_0_l. change 0 with (inject_Z 0). rewrite <- Zle_Qle. exact H.
Qed.

Lemma tokensFromDuration_zero (lim : Q) : tokensFromDuration lim 0 == 0.
Proof.
  unfold tokensFromDuration. destruct (Qle_bool lim 0); [reflexivity|].
  unfold Qdiv. rewrite !Qmult_0_l. reflexivity.
Qed.

Lemma advance_holds (B t k : Z) (lim : Limiter) :
  holds B t k lim -> exists toks, advance lim t = (t, toks) /\ toks == inject_Z k.
Proof.
  intros (Hl & Hb & Ht & Hk & Hfull). unfold advance. rewrite Hl, Hb.
  eexists. split; [reflexivity|].
  set (last0 := if (t <? last lim)%Z then t else last lim).
  assert (Hlast : (last0 <= t)%Z).
  { subst last0. destruct (Z.ltb_spec t (last lim)); lia. }
  pose proof (tokensFromDuration_one_nonneg _ (time_Sub_nonneg _ _ Hlast)) as Hd.
  destruct (Qltb (inject_Z B) (tokens lim + tokensFromDuration 1 (time_Sub t last0))) eqn:E.
  - apply Qltb_lt in E. destruct Hfull as [-> | Hlt]; [reflexivity|].
    exfalso. subst last0. rewrite Hlt, Z.ltb_irrefl, time_Sub_diag in E.
    rewrite tokensFromDuration_zero, Ht, Qplus_0_r in E.
    rewrite <- Zlt_Qlt in E. lia.
  - apply Qltb_ge in E. destruct Hfull as [-> | Hlt].
    + apply Qle_antisym; [exact E|]. rewrite <- Ht.
      rewrite <- (Qplus_0_r (tokens lim)) at 1. apply Qplus_le_r. exact Hd.
    + subst last0. rewrite Hlt, Z.ltb_irrefl, time_Sub_diag.
      rewrite tokensFromDuration_zero, Ht, Qplus_0_r. reflexivity.
Qed.

Lemma Allow_takes (B t k : Z) (lim : Limiter) :
  holds B t k lim -> (1 <= k)%Z ->
  exists lim', Allow lim t = (true, lim') /\ holds B t (k - 1) lim'.
Proof.
  intros H Hk. destruct (advance_holds _ _ _ _ H) as (toks & Ha & Ht).
  destruct H as (Hl & Hb & _ & Hr & _).
  unfold Allow, reserveN. rewrite Hl, one_is_not_Inf, Ha, Hb.
  assert (E : Qltb (toks - inject_Z 1) 0 = false).
  { apply Qltb_ge. rewrite Ht. unfold Qminus. rewrite <- inject_Z_opp, <- inject_Z_plus.
    change 0 with (inject_Z 0). rewrite <- Zle_Qle. lia. }
  rewrite E. replace (1 <=? B)%Z with true by (symmetry; apply Z.leb_le; lia).
  simpl andb. cbv iota. eexists. split; [reflexivity|].
  repeat split; cbn [limit burst tokens last]; try lia.
  rewrite Ht. unfold Qminus. rewrite <- inject_Z_opp, <- inject_Z_plus. reflexivity.
Qed.

Lemma Allow_empty (B t : Z) (lim : Limiter) :
  holds B t 0 lim -> Allow lim t = (false, lim).
Proof.
  intros H. destruct (advance_holds _ _ _ _ H) as (toks & Ha & Ht).
  destruct H as (Hl & Hb & _ & Hr & _).
  unfold Allow, reserveN. rewrite Hl, one_is_not_Inf, Ha, Hb.
  assert (E : Qltb (toks - inject_Z 1) 0 = true).
  { apply Qltb_lt. rewrite Ht. reflexivity. }
  rewrite E.
  assert (W : durationFromTokens 1 (- (toks - inject_Z 1)) = Second).
  { unfold durationFromTokens. change (Qle_bool 1 0) with false. cbv iota.
    assert (D : - (toks - inject_Z 1) / 1 * inject_Z Second == inject_Z Second).
    { rewrite Ht. reflexivity. }
    replace (Qltb _ _) with false.
    - apply Qtrunc_inject. exact D.
    - symmetry. apply Qltb_ge. rewrite D. rewrite <- Zle_Qle. unfold Second. lia. }
  rewrite W. replace (Second <=? 0)%Z with false by reflexivity.
  rewrite andb_false_r. reflexivity.
Qed.


Lemma bucketOf_Allow (l : ratelimit.Limiter) (repository : string) (now : Z) :
  ratelimit.Allow l repository now
  = (fst (Allow (ratelimit.bucketOf l repository) now),
     {| ratelimit.limiters :=
          <[repository := snd (Allow (ratelimit.bucketOf l repository) now)]>
            (ratelimit.limiters (snd (ratelimit.getLimiter l repository)));
        ratelimit.rps := ratelimit.rps l;
        ratelimit.burst := ratelimit.burst l |}).
Proof.
  unfold ratelimit.Allow, ratelimit.bucketOf, ratelimit.getLimiter.
  destruct (ratelimit.limiters l !! repository) as [lim|] eqn:E; cbn [fst snd];
    destruct (Allow _ now) as [ok lim']; reflexivity.
Qed.

Lemma bucketOf_after (l : ratelimit.Limiter) (repository : string) (now : Z) :
  ratelimit.bucketOf (snd (ratelimit.Allow l repository now)) repository
  = snd (Allow (ratelimit.bucketOf l repository) now).
Proof.
  rewrite bucketOf_Allow. cbn [snd].
  unfold ratelimit.bucketOf at 1, ratelimit.getLimiter. cbn [ratelimit.limiters].
  rewrite lookup_insert_eq. reflexivity.
Qed.

Lemma AllowTimes_drains (repository : string) (now B : Z) (n : nat)
    (l : ratelimit.Limiter) :
  ratelimit.rps l = 1 -> ratelimit.burst l = B ->
  holds B now (Z.of_nat n) (ratelimit.bucketOf l repository) ->
  fst (ratelimit.AllowTimes n l repository now) = repeat true n /\
  holds B now 0
    (ratelimit.bucketOf (snd (ratelimit.AllowTimes n l repository now)) repository).
Proof.
  revert l. induction n as [|n IH]; intros l Hr Hb H.
  - split; [reflexivity | exact H].
  - cbn [ratelimit.AllowTimes].
    destruct (Allow_takes _ _ _ _ H) as (lim' & Ha & H'); [lia|].
    pose proof (bucketOf_after l repository now) as Hafter.
    pose proof (bucketOf_Allow l repository now) as Hallow.
    rewrite Ha in Hafter, Hallow. cbn [fst snd] in Hafter, Hallow.
    destruct (ratelimit.Allow l repository now) as [ok l1].
    injection Hallow as -> Hl1. cbn [snd] in Hafter.
    replace (Z.of_nat (S n) - 1)%Z with (Z.of_nat n) in H' by lia.
    rewrite <- Hafter in H'.
    destruct (IH l1) as [IH1 IH2]; [by subst l1 | by subst l1 | exact H' |].
    destruct (ratelimit.AllowTimes n l1 repository now) as [oks l2].
    cbn [fst snd] in *. split; [by rewrite IH1 | exact IH2].
Qed.

(** The burst test of the repository: three calls pass, the fourth does
    not. *)
Example burst_limit_3 :
  fst (ratelimit.AllowTimes 4 (ratelimit.NewLimiter 1 3) "test/repo" 1700000000000000000)
  = [true; true; true; false].
Proof. vm_compute. reflexivity. Qed.

(** C9: with rate 1 token per second and burst [N], of [N + 1] calls of
    [Allow] for one repository at one instant exactly the first [N] return
    [true] and the last returns [false], and the failing call leaves the
    bucket of the repository as it found it. *)
Theorem Allow_burst_exact (repository : string) (N : nat) (now : Z) :
  let l0 := ratelimit.NewLimiter 1 (Z.of_nat N) in
  let l1 := snd (ratelimit.AllowTimes N l0 repository now) in
  fst (ratelimit.AllowTimes N l0 repository now) = repeat true N /\
  fst (ratelimit.Allow l1 repository now) = false /\
  ratelimit.bucketOf (snd (ratelimit.Allow l1 repository now)) repository
  = ratelimit.bucketOf l1 repository.
Proof.
  intros l0 l1.
  assert (H0 : holds (Z.of_nat N) now (Z.of_nat N) (ratelimit.bucketOf l0 repository)).
  { unfold holds, l0, ratelimit.bucketOf. cbn.
    repeat split; try reflexivity; try lia. }
  destruct (AllowTimes_drains repository now (Z.of_nat N) N l0 eq_refl eq_refl H0)
    as [Hoks Hempty].
  fold l1 in Hempty. split; [exact Hoks|].
  apply Allow_empty in Hempty.
  rewrite bucketOf_after, bucketOf_Allow, Hempty. split; reflexivity.
Qed.

End RateProps.

(** * Properties of the handler *)

Section HandlerProps.
Import types httpapi.
Context {VS VE : Type}.
Variable hmac : string -> string -> gmap string json.Value -> gmap string json.Value
  -> Result token.SignError string.
Variable formatRFC3339 : Z -> string.

Local Abbreviation handle := (handleGitHubOIDC (VS := VS) (VE := VE) hmac formatRFC3339).
Local Abbreviation outcomeOf := (outcome (VS := VS) (VE := VE) hmac).

(** C2: the handler calls its collaborators in the order Verify, Allow,
    Evaluate, Mint and stops at the first failure: the calls of a request
    are the first stages of the pipeline, as many as succeeded before the
    first failure plus the failing one, none for a malformed body or an
    empty token. A stage that is not called leaves its state alone. *)
Theorem handler_stage_order (s : Server) (env : Env) (body : option AuthRequest)
    (st : State (VS := VS)) :
  let st' := snd (handle s env body st) in
  let o := outcomeOf s env body st in
  calls st' = (calls st ++ take (stagesFor o) pipeline)%list /\
  (stagesFor o < 2 -> limiter st' = limiter st)%nat /\
  (stagesFor o = 0%nat -> vstate st' = vstate st).
Proof.
  unfold handleGitHubOIDC, outcome.
  destruct body as [req|]; cbn zeta.
  2: { cbn. rewrite app_nil_r. auto. }
  destruct (isEmpty (OIDCToken req)).
  { cbn. rewrite app_nil_r. auto. }
  cbn [called vstate limiter calls].
  destruct (verifier s (OIDCToken req) (vstate st)) as [[claims|e] vs]; cbn [fst].
  2: { cbn. split; [reflexivity|]. split; [reflexivity | intros H; discriminate H]. }
  destruct (ratelimit.Allow (limiter st) (Repository claims) (now env)) as [[|] lim];
    cbn [fst negb].
  2: { cbn. rewrite <- app_assoc. split; [reflexivity|].
       split; [intros H; exfalso; lia | intros H; discriminate H]. }
  destruct (policy.Evaluate (policy s) (Repository claims) (Ref claims)) as [err|].
  { cbn. rewrite <- !app_assoc. split; [reflexivity|].
    split; [intros H; exfalso; lia | intros H; discriminate H]. }
  destruct (token.Mint hmac (minter s) (now env) (jti env) claims) as [[tok exp]|e];
    cbn; rewrite <- !app_assoc; (split; [reflexivity|]);
    (split; [intros H; exfalso; lia | intros H; discriminate H]).
Qed.

(** C3: the error code of the response is the fixed code of the failure
    category of the request: invalid_request, invalid_token, rate_limited,
    policy_violation, internal_error, and none for a success. *)
Theorem handler_error_code (s : Server) (env : Env) (body : option AuthRequest)
    (st : State (VS := VS)) :
  errorCode (fst (handle s env body st)) = codeOf (outcomeOf s env body st).
Proof.
  unfold handleGitHubOIDC, outcome.
  destruct body as [req|]; [|reflexivity].
  destruct (isEmpty (OIDCToken req)); [reflexivity|].
  cbn [called vstate limiter calls].
  destruct (verifier s (OIDCToken req) (vstate st)) as [[claims|e] vs]; [|reflexivity].
  cbn [fst].
  destruct (ratelimit.Allow (limiter st) (Repository claims) (now env)) as [[|] lim];
    [|reflexivity].
  cbn [fst negb].
  destruct (policy.Evaluate (policy s) (Repository claims) (Ref claims)) as [err|];
    [reflexivity|].
  destruct (token.Mint hmac (minter s) (now env) (jti env) claims) as [[tok exp]|e];
    reflexivity.
Qed.

End HandlerProps.

Section HandlerExamples.
Import types httpapi fixtures.

Local Abbreviation run := (handleGitHubOIDC (VS := unit) (VE := unit) mac rfc3339).

(** An empty token: invalid_request, and no collaborator is called. *)
Example handler_empty_token :
  let st := testState 10 10 in
  let r := run (testServer (policy.NewEnforcer false "main" [] [])) testEnv
             (Some {| OIDCToken := Malformed "" |}) st in
  errorCode (fst r) = Some "invalid_request" /\ snd r = st.
Proof. split; vm_compute; reflexivity. Qed.

(** A denylisted repository: policy_violation, and the minter is not
    called. *)
Example handler_policy_denied :
  let r := run (testServer (policy.NewEnforcer false "main" [] ["test/repo"])) testEnv
             validRequest (testState 10 10) in
  fst r = RespondError 403
            {| Error := "policy_violation";
               Message := "repository test/repo is denied by policy" |} /\
  calls (snd r) = [StageVerify; StageAllow; StageEvaluate].
Proof. split; vm_compute; reflexivity. Qed.

(** Two requests against a limiter of burst 1: the first gets a token, the
    second is rate limited. *)
Example handler_rate_limited :
  let s := testServer (policy.NewEnforcer false "main" [] []) in
  let r1 := run s testEnv validRequest (testState 1 1) in
  let r2 := run s testEnv validRequest (snd r1) in
  errorCode (fst r1) = None /\ errorCode (fst r2) = Some "rate_limited" /\
  calls (snd r2)
  = [StageVerify; StageAllow; StageEvaluate; StageMint; StageVerify; StageAllow].
Proof. repeat split; vm_compute; reflexivity. Qed.

(** A verifier that fails: invalid_token, and the limiter is not touched. *)
Example handler_verification_failure :
  let s := {| verifier := oidc.FakeVerifier (Some (fun _ vs => (Err tt, vs))) now1;
              policy := policy.NewEnforcer false "main" [] [];
              minter := token.NewMinter "test-secret" (600 * Second) |} in
  let r := run s testEnv validRequest (testState 10 10) in
  errorCode (fst r) = Some "invalid_token" /\
  calls (snd r) = [StageVerify] /\
  limiter (snd r) = limiter (testState 10 10).
Proof. repeat split; vm_compute; reflexivity. Qed.

End HandlerExamples.

(** * Properties of the verifier and of the key cache *)

Section VerifierProps.
Import json jwt types oidc props.
Variable rsaVerify : SigningMethod -> TokenString -> PublicKey -> bool.

Lemma GetSigningMethod_RSA (alg a : string) :
  GetSigningMethod alg = Some (SigningMethodRSA a) -> alg ∈ RSAFamily.
Proof.
  unfold GetSigningMethod, RSAFamily.
  repeat match goal with
  | |- context [String.eqb alg ?s] =>
      destruct (String.eqb_spec alg s) as [->|?]; cbn [orb]
  end; intros H; try discriminate H; set_solver.
Qed.

(** Every call of [GetKey] shows in the trace. *)
Lemma GetKey_traced (env : Env) (kid : string) (w : World) :
  exists evs, trace (snd (GetKey env kid w)) = (trace w ++ EvGetKey kid :: evs)%list.
Proof.
  unfold GetKey. cbn [emit cache trace].
  destruct (cached env (cache w) kid) as [key|].
  - exists []. reflexivity.
  - destruct (fetchJWKS env (cache w)) as [[err|] c]; cbn [snd trace].
    + exists [EvFetch (url (cache w))]. by rewrite <- app_assoc.
    + destruct (keys c !! kid); exists [EvFetch (url (cache w))];
        cbn [snd trace]; by rewrite <- app_assoc.
Qed.

(** A token of the RSA family with a key identifier does reach [GetKey]. *)
Lemma Verify_RSA_looks_up (v : GitHubVerifier) (env : Env)
    (header claims : gmap string Value) (signature alg kid : string) (w : World) :
  header !! "alg" = Some (VString alg) ->
  alg ∈ RSAFamily ->
  header !! "kid" = Some (VString kid) ->
  exists evs,
    trace (snd (Verify rsaVerify v env (Compact header claims signature) w))
    = (trace w ++ EvGetKey kid :: evs)%list.
Proof.
  intros Halg Hin Hkid. unfold Verify, Parse, ParseUnverified, DecodeSignature.
  rewrite Halg.
  assert (Hm : GetSigningMethod alg = Some (SigningMethodRSA alg)).
  { unfold RSAFamily in Hin. rewrite !elem_of_cons in Hin.
    destruct Hin as [-> | [-> | [-> | Hin]]]; try reflexivity.
    by apply elem_of_nil in Hin. }
  rewrite Hm. unfold keyFunc. cbn [Method Header]. rewrite Hkid.
  destruct (GetKey_traced env kid w) as (evs & Hevs). exists evs.
  destruct (GetKey env kid w) as [[key|e] w1]; cbn [snd] in *; [|exact Hevs].
  destruct (negb (rsaVerify _ _ key)); [exact Hevs|].
  destruct (jwt.Validate _ _ _); cbn [Valid negb snd]; exact Hevs.
Qed.

(** C1: a token whose header declares an algorithm outside the RSA family
    is rejected by [Verify] with a verification error, and the world is
    left as it was: no call of [GetKey] enters the trace and the cache is
    not touched. This holds as well when the signature segment of the
    token does not decode, where the error can be that of the malformed
    token. *)
Theorem Verify_rejects_other_algorithms (v : GitHubVerifier) (env : Env)
    (header claims : gmap string Value) (signature alg : string) (w : World) :
  header !! "alg" = Some (VString alg) ->
  alg ∉ RSAFamily ->
  (exists e,
    Verify rsaVerify v env (Compact header claims signature) w
    = (Err (ErrVerifyToken e), w) /\
    (e = ErrAlgUnavailable \/
     e = ErrKeyfunc (ErrUnexpectedSigningMethod (Some (VString alg))))) /\
  (forall segment, exists e,
    Verify rsaVerify v env (BadSignature header claims segment) w
    = (Err (ErrVerifyToken e), w) /\
    (e = ErrAlgUnavailable \/ e = ErrTokenMalformed)).
Proof.
  intros Halg Hout. split; [|intros segment];
    unfold Verify, Parse, ParseUnverified, DecodeSignature; rewrite Halg.
  - destruct (GetSigningMethod alg) as [method|] eqn:Hm.
    + unfold keyFunc. cbn [Method Header].
      destruct method as [a|a|a|a| |];
        try (eexists; split; [rewrite Halg; reflexivity | right; reflexivity]).
      exfalso. apply Hout. eapply GetSigningMethod_RSA. exact Hm.
    + eexists. split; [reflexivity | left; reflexivity].
  - destruct (GetSigningMethod alg) as [method|] eqn:Hm.
    + eexists. split; [reflexivity | right; reflexivity].
    + eexists. split; [reflexivity | left; reflexivity].
Qed.

End VerifierProps.

Section VerifierExamples.
Import json jwt types oidc props fixtures.

Lemma Verify_rejects_other_algorithms_witness :
  headerHMAC !! "alg" = Some (VString "HS256") /\
("HS256" ∉ RSAFamily) /\
  (exists e,
    Verify acceptAll verifier1 env1 (Compact headerHMAC baseClaims "sig") world1
    = (Err (ErrVerifyToken e), world1) /\
    (e = ErrAlgUnavailable \/
     e = ErrKeyfunc (ErrUnexpectedSigningMethod (Some (VString "HS256"))))) /\
  (forall segment, exists e,
    Verify acceptAll verifier1 env1 (BadSignature headerHMAC baseClaims segment) world1
    = (Err (ErrVerifyToken e), world1) /\
    (e = ErrAlgUnavailable \/ e = ErrTokenMalformed)).
Proof.
  assert (H1 : headerHMAC !! "alg" = Some (VString "HS256")) by reflexivity.
  assert (H2 : "HS256" ∉ RSAFamily).
  { unfold RSAFamily. rewrite !not_elem_of_cons. repeat split; try discriminate.
    apply not_elem_of_nil. }
  split; [exact H1|]. split; [exact H2|].
  exact (Verify_rejects_other_algorithms acceptAll verifier1 env1
           headerHMAC baseClaims "sig" "HS256" world1 H1 H2).
Defined.

End VerifierExamples.

(** * The claims read by the verifier *)

Section ClaimProps.
Import json jwt types oidc props.

Lemma scale_round_nearest (m e : Z) :
  0 <= m -> nearestEven m e (float64.scale_round m e) /\ 0 <= float64.scale_round m e.
Proof.
  intros Hm. unfold nearestEven, float64.scale_round.
  destruct (Z.leb_spec 0 e) as [He|He].
  { split; [reflexivity|]. apply Z.mul_nonneg_nonneg; [exact Hm|]. apply Z.pow_nonneg. lia. }
  set (d := 2 ^ (- e)).
  assert (Hd : 0 < d) by (apply Z.pow_pos_nonneg; lia).
  pose proof (Z.div_mod m d ltac:(lia)) as Hdm.
  pose proof (Z.mod_pos_bound m d Hd) as Hr.
  assert (Hq : 0 <= m / d) by (apply Z.div_pos; lia).
  set (q := m / d) in *. set (r := m mod d) in *.
  destruct (Z.compare_spec (2 * r) d) as [Heq|Hlt|Hgt].
  - destruct (Z.even q) eqn:Hev.
    + repeat split; try lia. intros _. exact Hev.
    + repeat split; try lia. intros _.
      rewrite Z.even_add, Hev. reflexivity.
  - repeat split; try lia.
  - repeat split; try lia.
Qed.

Lemma decimal_nonempty (n : Z) : float64.decimal n <> "".
Proof.
  unfold float64.decimal, NilZero.string_of_uint.
  destruct (N.to_uint (Z.to_N n)); discriminate.
Qed.

Lemma format_0f_nonempty (f : spec_float) : float64.format_0f f <> "".
Proof.
  destruct f as [[|]|[|]| |[|] m e]; cbn; try discriminate.
  pose proof (decimal_nonempty (float64.scale_round (Z.pos m) e)) as H.
  destruct (float64.decimal _); [congruence | discriminate].
Qed.

(** Reading a claim does not depend on the other claims. *)
Lemma asString_insert_ne (m : gmap string Value) (k k' : string) (x : Value) :
  k <> k' -> asString (<[k := x]> m) k' = asString m k'.
Proof. intros H. unfold asString. by rewrite lookup_insert_ne. Qed.

Lemma extractAudience_insert_ne (m : gmap string Value) (k : string) (x : Value) :
  k <> "aud" -> extractAudience (<[k := x]> m) = extractAudience m.
Proof. intros H. unfold extractAudience. by rewrite lookup_insert_ne. Qed.

Lemma extractRunID_insert_ne (m : gmap string Value) (k : string) (x : Value) :
  k <> "run_id" -> extractRunID (<[k := x]> m) = extractRunID m.
Proof. intros H. unfold extractRunID. by rewrite lookup_insert_ne. Qed.

Lemma extractTimestamp_insert_ne (m : gmap string Value) (k k' : string) (x : Value) :
  k <> k' -> extractTimestamp (<[k := x]> m) k' = extractTimestamp m k'.
Proof. intros H. unfold extractTimestamp. by rewrite lookup_insert_ne. Qed.

Lemma checkClaims_Ok_upToActor (v : GitHubVerifier) (m : gmap string Value)
    (vc : VerifiedClaims) :
  checkClaims v m = Ok vc -> upToActor v m.
Proof.
  unfold checkClaims, upToActor. intros H.
  destruct (asString m "iss") as [iss|]; [|discriminate].
  destruct (String.eqb_spec iss (issuer v)) as [Heq|Hne]; [|discriminate]. cbn [negb] in H.
  rewrite Heq.
  destruct (extractAudience m) as [aud|]; [|discriminate].
  destruct (containsAudience aud (audience v)) eqn:Ha; [|discriminate]. cbn [negb] in H.
  destruct (asString m "repository") as [[|c r]|]; try discriminate.
  destruct (asString m "ref") as [[|c' r']|]; try discriminate.
  destruct (asString m "actor") as [[|c'' r'']|]; try discriminate.
  repeat split; eauto; eexists; (split; [reflexivity | discriminate]).
Qed.

Lemma checkClaims_no_run_id (v : GitHubVerifier) (m : gmap string Value) :
  upToActor v m -> extractRunID m = "" -> checkClaims v m = Err ErrRunID.
Proof.
  intros (Hi & (aud & Ha & Hc) & (r & Hr & Hrn) & (f & Hf & Hfn) & (a & Hac & Han)) Hrun.
  unfold checkClaims. rewrite Hi, String.eqb_refl, Ha, Hc, Hr, Hf, Hac, Hrun.
  cbn [negb].
  destruct r; [congruence|]. destruct f; [congruence|]. destruct a; [congruence|].
  reflexivity.
Qed.

Lemma upToActor_insert_run_id (v : GitHubVerifier) (m : gmap string Value) (x : Value) :
  upToActor v (<["run_id" := x]> m) -> upToActor v m.
Proof.
  unfold upToActor.
  rewrite !asString_insert_ne, extractAudience_insert_ne by discriminate. auto.
Qed.

End ClaimProps.

Section ClaimExamples.
Import json jwt types oidc props fixtures.

(** The run identifier test of the repository. *)
Example extractRunID_tests :
  extractRunID {["run_id" := VString "123456789"]} = "123456789" /\
  extractRunID {["run_id" := VFloat64 (float64.of_Z 123456789)]} = "123456789" /\
  extractRunID (∅ : gmap string Value) = "".
Proof. repeat split; vm_compute; reflexivity. Qed.

(** C5 as stated fails: the number 42.9 is rendered as 43, not as 42, and
    a negative number keeps its minus sign. *)
Lemma extractRunID_rounds :
  float64.trunc f42_9 = Some 42 /\
  extractRunID (<["run_id" := VFloat64 f42_9]> baseClaims) = "43" /\
  extractRunID (<["run_id" := VFloat64 fm7]> baseClaims) = "-7".
Proof. repeat split; vm_compute; reflexivity. Qed.

End ClaimExamples.

(** * The order of the checks of Verify *)

Section VerifyOrder.
Import json jwt types oidc props.
Variable rsaVerify : SigningMethod -> TokenString -> PublicKey -> bool.

Lemma parseNumericDate_form (m : gmap string Value) (key : string) (d : Z) :
  parseNumericDate m key = Ok (Some d) ->
  exists e, d = e * Second /\ - 2 ^ 63 <= e + unixToInternal < 2 ^ 63.
Proof.
  unfold parseNumericDate. destruct (m !! key) as [[| |f| | |]|]; try discriminate.
  destruct (float64.is_zero f); [discriminate|].
  intros H. injection H as <-. apply numericDate_form.
Qed.

(** For a clock and a leeway within the 64 bits of a count of
    nanoseconds, the validator lets the claims pass exactly inside their
    validity window. *)
Lemma Validate_nil_iff (leeway : Z) (m : gmap string Value) (now : Z) :
  minDuration <= now <= maxDuration ->
  - maxDuration <= leeway <= maxDuration ->
  jwt.Validate leeway m now = [] <-> withinValidity leeway m now.
Proof.
  intros Hnow Hskew.
  assert (Hneg : wrapInt64 (- leeway) = - leeway)
    by (apply wrapInt64_small; unfold maxDuration in *; lia).
  unfold jwt.Validate, withinValidity, verifyExpiresAt, verifyNotBefore.
  rewrite Hneg.
  destruct (parseNumericDate m "exp") as [[exp|]|e] eqn:Eexp;
    destruct (parseNumericDate m "nbf") as [[nbf|]|e'] eqn:Enbf;
    repeat match goal with
    | H : parseNumericDate m _ = Ok (Some ?d) |- _ =>
        apply parseNumericDate_form in H as (? & -> & ?)
    end;
    rewrite ?time_Add_ltb by (unfold maxDuration in *; lia);
    repeat match goal with
    | |- context [?a <? ?b] => destruct (Z.ltb_spec a b) as [?Hlt|?Hge]
    end; cbn [app];
    (split;
     [ intros HH; try discriminate HH; split; first [exact I | lia]
     | intros [H1 H2]; try reflexivity; first [lia | destruct H1 | destruct H2] ]).
Qed.

(** Without leeway this holds at every instant. *)
Lemma Validate_nil_iff_0 (m : gmap string Value) (now : Z) :
  jwt.Validate 0 m now = [] <-> withinValidity 0 m now.
Proof.
  unfold jwt.Validate, withinValidity, verifyExpiresAt, verifyNotBefore.
  change (wrapInt64 (- 0)) with 0.
  destruct (parseNumericDate m "exp") as [[exp|]|e] eqn:Eexp;
    destruct (parseNumericDate m "nbf") as [[nbf|]|e'] eqn:Enbf;
    repeat match goal with
    | H : parseNumericDate m _ = Ok (Some ?d) |- _ =>
        apply parseNumericDate_form in H as (? & -> & ?)
    end;
    rewrite ?time_Add_zero by assumption;
    repeat match goal with
    | |- context [?a <? ?b] => destruct (Z.ltb_spec a b) as [?Hlt|?Hge]
    end; cbn [app];
    (split;
     [ intros HH; try discriminate HH; split; first [exact I | lia]
     | intros [H1 H2]; try reflexivity; first [lia | destruct H1 | destruct H2] ]).
Qed.

(** After the check of the signature, [Verify] first has the jwt library
    validate the time bounds and then runs its own checks. *)
Lemma Verify_after_signature (v : GitHubVerifier) (env : Env)
    (tokenString : TokenString) (w : World) (token : Token) (w1 : World) :
  signatureVerified rsaVerify env tokenString w token w1 ->
  Verify rsaVerify v env tokenString w =
  match jwt.Validate (clockSkew v) (Claims token) (now env) with
  | [] => (checkClaims v (Claims token), w1)
  | errs => (Err (ErrVerifyToken (ErrTokenInvalidClaims errs)), w1)
  end.
Proof.
  intros (Hp & Hd & key & Hk & Hs). unfold Verify, Parse. rewrite Hp, Hd, Hk, Hs.
  cbn [negb].
  destruct (jwt.Validate (clockSkew v) (Claims token) (now env)); reflexivity.
Qed.

Lemma containsAudience_elem (aud : list string) (expected : string) :
  containsAudience aud expected = true <-> expected ∈ aud.
Proof.
  unfold containsAudience. rewrite existsb_exists. split.
  - intros (x & Hin & Heq). apply String.eqb_eq in Heq. subst x.
    by apply list_elem_of_In.
  - intros Hin. exists expected. split; [by apply list_elem_of_In | apply String.eqb_refl].
Qed.

(** [Verify] accepts only claims that the validator of the library lets
    pass and that pass [checkClaims]. *)
Lemma Verify_Ok_checkClaims (v : GitHubVerifier) (env : Env)
    (header claims : gmap string Value) (signature : string) (w : World)
    (vc : VerifiedClaims) :
  fst (Verify rsaVerify v env (Compact header claims signature) w) = Ok vc ->
  jwt.Validate (clockSkew v) claims (now env) = [] /\ checkClaims v claims = Ok vc.
Proof.
  unfold Verify, Parse, ParseUnverified, DecodeSignature.
  destruct (header !! "alg") as [[| | |alg| |]|]; try discriminate.
  destruct (GetSigningMethod alg) as [method|]; [|discriminate].
  destruct (keyFunc env _ w) as [[key|e] w1]; [|discriminate].
  destruct (negb (rsaVerify _ _ key)); [discriminate|].
  cbn [Claims].
  destruct (jwt.Validate _ _ _); [|discriminate].
  cbn [Valid negb fst Claims]. auto.
Qed.

(** C4, as the code has it: once the signature is verified the time
    bounds come first - the token must be before [exp] plus the leeway and
    not before [nbf] minus the leeway - then the issuer, then the type of
    the audience claim, then the membership of the expected audience; the
    error is that of the first check that fails in this order.  The dates
    are those [time.Unix] makes of the claims, which wraps around in 64
    bits of seconds counted from the year 1; the clock and the skew are
    taken within the 64 bits of a count of nanoseconds. *)
Theorem Verify_check_order (v : GitHubVerifier) (env : Env)
    (tokenString : TokenString) (w : World) (token : Token) (w1 : World) :
  signatureVerified rsaVerify env tokenString w token w1 ->
  minDuration <= now env <= maxDuration ->
  - maxDuration <= clockSkew v <= maxDuration ->
  let claims := Claims token in
  let result := fst (Verify rsaVerify v env tokenString w) in
  (~ withinValidity (clockSkew v) claims (now env) ->
     exists errs, errs <> [] /\
       result = Err (ErrVerifyToken (ErrTokenInvalidClaims errs))) /\
  (withinValidity (clockSkew v) claims (now env) ->
     (asString claims "iss" <> Some (issuer v) ->
        exists got, result = Err (ErrInvalidIssuer (issuer v) got)) /\
     (asString claims "iss" = Some (issuer v) ->
        ((forall a, claims !! "aud" <> Some (VString a)) ->
         (forall l, claims !! "aud" <> Some (VArray l)) ->
         result = Err ErrInvalidAudienceType) /\
        (forall a, claims !! "aud" = Some (VString a) -> a <> audience v ->
         result = Err (ErrAudienceMismatch (audience v))) /\
        (forall l, claims !! "aud" = Some (VArray l) -> VString (audience v) ∉ l ->
         result = Err (ErrAudienceMismatch (audience v))))).
Proof.
  intros Hsig Hnow Hskew claims result. subst result.
  rewrite (Verify_after_signature v env tokenString w token w1 Hsig).
  fold claims. split.
  - intros Hout. destruct (jwt.Validate (clockSkew v) claims (now env)) as [|e errs] eqn:E.
    + exfalso. apply Hout. by apply Validate_nil_iff.
    + exists (e :: errs). split; [discriminate | reflexivity].
  - intros Hin. apply Validate_nil_iff in Hin; [|assumption..]. rewrite Hin. cbn [fst].
    unfold checkClaims. split.
    + intros Hiss. destruct (asString claims "iss") as [iss|]; [|by eexists].
      destruct (String.eqb_spec iss (issuer v)) as [Heq|Hne]; [congruence | by eexists].
    + intros Hiss. rewrite Hiss, String.eqb_refl. cbn [negb]. unfold extractAudience.
      split; [|split].
      * intros Hs Ha. destruct (claims !! "aud") as [[| | |a|l|]|] eqn:E; try reflexivity.
        -- exfalso. by eapply Hs.
        -- exfalso. by eapply Ha.
      * intros a -> Hne. cbn. destruct (String.eqb_spec a (audience v)); [congruence|reflexivity].
      * intros l -> Hnot.
        destruct (containsAudience _ (audience v)) eqn:Hc; [|reflexivity].
        exfalso. apply Hnot. apply containsAudience_elem in Hc.
        apply list_elem_of_omap in Hc as (x & Hx & Hsome).
        destruct x; try discriminate Hsome. by injection Hsome as ->.
Qed.

(** C10, as the code has it: a token without an [exp] claim is inside its
    validity window at every instant as far as expiry goes; a verified
    token inside its window gets the result of the claim checks (for a
    clock and a skew within the 64 bits of a count of nanoseconds), which
    do not depend on [iat] and [exp] at all; the returned claims carry the
    zero time for an [exp] or [iat] that is absent or not a number; and a
    verified token whose [exp] is present and not a number is turned down
    by the validator of the library, at every instant and whatever its
    other claims are - no token with these claims passes [Verify]. *)
Theorem Verify_without_timestamps (v : GitHubVerifier) (env : Env)
    (tokenString : TokenString) (w : World) (token : Token) (w1 : World) :
  signatureVerified rsaVerify env tokenString w token w1 ->
  let claims := Claims token in
  (claims !! "exp" = None ->
     forall leeway now, verifyExpiresAt leeway claims now = []) /\
  (minDuration <= now env <= maxDuration ->
   - maxDuration <= clockSkew v <= maxDuration ->
   withinValidity (clockSkew v) claims (now env) ->
     Verify rsaVerify v env tokenString w = (checkClaims v claims, w1)) /\
  (forall x y,
     isOk (checkClaims v (<["iat" := x]> (<["exp" := y]> claims)))
     = isOk (checkClaims v claims)) /\
  (forall vc, checkClaims v claims = Ok vc ->
     ((forall f, claims !! "exp" <> Some (VFloat64 f)) -> ExpiresAt vc = zeroTime) /\
     ((forall f, claims !! "iat" <> Some (VFloat64 f)) -> IssuedAt vc = zeroTime)) /\
  (forall x, claims !! "exp" = Some x -> (forall f, x <> VFloat64 f) ->
     (exists errs,
        ErrInvalidType "exp" ∈ errs /\
        Verify rsaVerify v env tokenString w
        = (Err (ErrVerifyToken (ErrTokenInvalidClaims errs)), w1)) /\
     (forall env' header' signature' w',
        isOk (fst (Verify rsaVerify v env' (Compact header' claims signature') w'))
        = false)).
Proof.
  intros Hsig claims. split_and!.
  - intros Hexp leeway now. unfold verifyExpiresAt, parseNumericDate. by rewrite Hexp.
  - intros Hnow Hskew Hin.
    rewrite (Verify_after_signature v env tokenString w token w1 Hsig).
    fold claims. apply Validate_nil_iff in Hin; [|assumption..]. by rewrite Hin.
  - intros x y. unfold checkClaims.
    rewrite !asString_insert_ne, !extractAudience_insert_ne, !extractRunID_insert_ne
      by discriminate.
    repeat match goal with
    | |- context [match ?t with _ => _ end] => destruct t
    | |- context [if ?t then _ else _] => destruct t
    end; reflexivity.
  - intros vc H. split.
    + intros Hexp. unfold checkClaims in H.
      repeat match type of H with
      | context [match ?t with _ => _ end] => destruct t; try discriminate H
      | context [if ?t then _ else _] => destruct t; try discriminate H
      end; injection H as <-; cbn [ExpiresAt]; unfold extractTimestamp;
      destruct (claims !! "exp") as [[]|] eqn:E; try reflexivity; exfalso; by eapply Hexp.
    + intros Hiat. unfold checkClaims in H.
      repeat match type of H with
      | context [match ?t with _ => _ end] => destruct t; try discriminate H
      | context [if ?t then _ else _] => destruct t; try discriminate H
      end; injection H as <-; cbn [IssuedAt]; unfold extractTimestamp;
      destruct (claims !! "iat") as [[]|] eqn:E; try reflexivity; exfalso; by eapply Hiat.
  - intros x Hx Hnum.
    assert (Hexp : forall now, verifyExpiresAt (clockSkew v) claims now
                               = [ErrInvalidType "exp"]).
    { intros now. unfold verifyExpiresAt, parseNumericDate. rewrite Hx.
      destruct x; try reflexivity. exfalso. by eapply Hnum. }
    split.
    + rewrite (Verify_after_signature v env tokenString w token w1 Hsig). fold claims.
      unfold jwt.Validate. rewrite Hexp. cbn [app].
      eexists. split; [|reflexivity]. apply list_elem_of_here.
    + intros env' header' signature' w'.
      destruct (fst (Verify rsaVerify v env' (Compact header' claims signature') w'))
        as [vc|e] eqn:E; [|reflexivity].
      apply Verify_Ok_checkClaims in E as [E _].
      unfold jwt.Validate in E. rewrite Hexp in E. discriminate E.
Qed.

(** C5, as the code has it: a run identifier that is a string is returned
    as it is; one that is a number is rendered as the integer nearest to
    it, ties going to the even integer, in decimal and with a minus sign
    when the number is negative - zero as 0, and as -0 when it is the
    negative zero - and is never rejected; a run identifier that is
    absent, empty or of another type is read as the empty string and no
    token with it passes [Verify], whatever else it holds: the checks
    fail, with the error of the run identifier when the claims before it
    are fine, and this is the error of [Verify] for a token with a
    verified signature inside its validity window. *)
Theorem extractRunID_rendering (v : GitHubVerifier) (m : gmap string Value) :
  (forall s, m !! "run_id" = Some (VString s) -> extractRunID m = s) /\
  (forall sgn mant e, m !! "run_id" = Some (VFloat64 (S754_finite sgn mant e)) ->
     exists n, nearestEven (Z.pos mant) e n /\ 0 <= n /\
       extractRunID m = (if sgn then "-" else "") +:+ float64.decimal n) /\
  (forall sgn, m !! "run_id" = Some (VFloat64 (S754_zero sgn)) ->
     extractRunID m = if sgn then "-0" else "0") /\
  (forall sgn, m !! "run_id" = Some (VFloat64 (S754_infinity sgn)) ->
     extractRunID m = if sgn then "-Inf" else "+Inf") /\
  (m !! "run_id" = Some (VFloat64 S754_nan) -> extractRunID m = "NaN") /\
  (forall f, m !! "run_id" = Some (VFloat64 f) -> extractRunID m <> "") /\
  ((m !! "run_id" = None \/ m !! "run_id" = Some (VString "") \/
    exists x, m !! "run_id" = Some x /\ otherType x) ->
   extractRunID m = "" /\
   isOk (checkClaims v m) = false /\
   (forall env header signature w,
      isOk (fst (Verify rsaVerify v env (Compact header m signature) w)) = false) /\
   (upToActor v m -> checkClaims v m = Err ErrRunID) /\
   (forall env tokenString w token w1,
      signatureVerified rsaVerify env tokenString w token w1 ->
      Claims token = m ->
      minDuration <= now env <= maxDuration ->
      - maxDuration <= clockSkew v <= maxDuration ->
      withinValidity (clockSkew v) m (now env) ->
      upToActor v m ->
      Verify rsaVerify v env tokenString w = (Err ErrRunID, w1))).
Proof.
  assert (Hfail : extractRunID m = "" -> isOk (checkClaims v m) = false).
  { intros Hrun. unfold checkClaims. rewrite Hrun. cbn [String.eqb].
    repeat match goal with
    | |- context [match ?t with _ => _ end] => destruct t
    | |- context [if ?t then _ else _] => destruct t
    end; reflexivity. }
  split_and!.
  - intros s H. unfold extractRunID. by rewrite H.
  - intros sgn mant e H. unfold extractRunID. rewrite H. cbn [float64.format_0f].
    destruct (scale_round_nearest (Z.pos mant) e ltac:(lia)) as [Hn Hpos].
    eexists. split; [exact Hn|]. split; [exact Hpos | reflexivity].
  - intros sgn H. unfold extractRunID. by rewrite H.
  - intros sgn H. unfold extractRunID. by rewrite H.
  - intros H. unfold extractRunID. by rewrite H.
  - intros f H. unfold extractRunID. rewrite H. apply format_0f_nonempty.
  - intros H.
    assert (Hrun : extractRunID m = "").
    { unfold extractRunID.
      destruct H as [-> | [-> | (x & -> & Hx)]]; try reflexivity.
      destruct x; try reflexivity; destruct Hx. }
    split_and!.
    + exact Hrun.
    + by apply Hfail.
    + intros env header signature w.
      destruct (fst (Verify rsaVerify v env (Compact header m signature) w))
        as [vc|e] eqn:E; [|reflexivity].
      apply Verify_Ok_checkClaims in E as [_ E]. specialize (Hfail Hrun).
      rewrite E in Hfail. discriminate Hfail.
    + intros Hup. by apply checkClaims_no_run_id.
    + intros env tokenString w token w1 Hsig Hm Hnow Hskew Hin Hup.
      rewrite (Verify_after_signature v env tokenString w token w1 Hsig), Hm.
      apply Validate_nil_iff in Hin; [|assumption..]. rewrite Hin.
      by rewrite checkClaims_no_run_id.
Qed.

End VerifyOrder.

Section VerifyExamples.
Import json jwt types oidc props fixtures.

Lemma signatureVerified_fixture (claims : gmap string Value) :
  signatureVerified acceptAll env1 (Compact headerRS256 claims "sig") world1
    (parsed claims) world1'.
Proof.
  split; [reflexivity|]. split; [reflexivity|]. exists key1. split; reflexivity.
Defined.

Lemma withinValidity_no_bounds (claims : gmap string Value) (leeway now : Z) :
  claims !! "exp" = None -> claims !! "nbf" = None ->
  withinValidity leeway claims now.
Proof.
  intros He Hn. unfold withinValidity, parseNumericDate. rewrite He, Hn. split; exact I.
Defined.

(** C4 as stated fails: a token that is expired and names another issuer
    is turned down for its expiry, not for its issuer; without the expiry
    the same token is turned down for its issuer. *)
Lemma Verify_expiry_before_issuer :
  asString expiredForeignClaims "iss" <> Some (issuer verifier1) /\
  fst (Verify acceptAll verifier1 env1 (Compact headerRS256 expiredForeignClaims "sig") world1)
  = Err (ErrVerifyToken (ErrTokenInvalidClaims [ErrTokenExpired])) /\
  fst (Verify acceptAll verifier1 env1 (Compact headerRS256 foreignClaims "sig") world1)
  = Err (ErrInvalidIssuer (issuer verifier1) "https://issuer.example").
Proof.
  split; [vm_compute; discriminate|]. split; vm_compute; reflexivity.
Qed.

Lemma Verify_check_order_witness :
  signatureVerified acceptAll env1 (Compact headerRS256 foreignClaims "sig") world1
    (parsed foreignClaims) world1' /\
  minDuration <= now env1 <= maxDuration /\
  - maxDuration <= clockSkew verifier1 <= maxDuration /\
  exists got,
    fst (Verify acceptAll verifier1 env1 (Compact headerRS256 foreignClaims "sig") world1)
    = Err (ErrInvalidIssuer (issuer verifier1) got).
Proof.
  split; [apply signatureVerified_fixture|].
  assert (Hnow : minDuration <= now env1 <= maxDuration) by (vm_compute; split; discriminate).
  assert (Hskew : - maxDuration <= clockSkew verifier1 <= maxDuration)
    by (vm_compute; split; discriminate).
  split; [exact Hnow|]. split; [exact Hskew|].
  destruct (Verify_check_order acceptAll verifier1 env1 _ world1 _ world1'
              (signatureVerified_fixture foreignClaims) Hnow Hskew) as [_ Hin].
  assert (Hwin : withinValidity (clockSkew verifier1) foreignClaims (now env1)).
  { apply withinValidity_no_bounds; reflexivity. }
  destruct (Hin Hwin) as [Hiss _].
  apply Hiss. vm_compute. discriminate.
Defined.

(** C10 as stated fails for an [exp] that is present and not a number: the
    token is turned down, while the same token without [exp] passes. *)
Lemma Verify_rejects_text_exp :
  textExpClaims !! "exp" = Some (VString "1700003600") /\
  fst (Verify acceptAll verifier1 env1 (Compact headerRS256 textExpClaims "sig") world1)
  = Err (ErrVerifyToken (ErrTokenInvalidClaims [ErrInvalidType "exp"])) /\
  isOk (fst (Verify acceptAll verifier1 env1 (Compact headerRS256 baseClaims "sig") world1))
  = true.
Proof. repeat split; vm_compute; reflexivity. Qed.

Lemma Verify_without_timestamps_witness :
  signatureVerified acceptAll env1 (Compact headerRS256 baseClaims "sig") world1
    (parsed baseClaims) world1' /\
  minDuration <= now env1 <= maxDuration /\
  - maxDuration <= clockSkew verifier1 <= maxDuration /\
  Verify acceptAll verifier1 env1 (Compact headerRS256 baseClaims "sig") world1
  = (checkClaims verifier1 baseClaims, world1').
Proof.
  split; [apply signatureVerified_fixture|].
  assert (Hnow : minDuration <= now env1 <= maxDuration) by (vm_compute; split; discriminate).
  assert (Hskew : - maxDuration <= clockSkew verifier1 <= maxDuration)
    by (vm_compute; split; discriminate).
  split; [exact Hnow|]. split; [exact Hskew|].
  destruct (Verify_without_timestamps acceptAll verifier1 env1 _ world1 _ world1'
              (signatureVerified_fixture baseClaims)) as (_ & Hin & _).
  apply Hin; [exact Hnow | exact Hskew |]. apply withinValidity_no_bounds; reflexivity.
Defined.

(** A token of the fixture without its run identifier. *)
Lemma extractRunID_rendering_witness :
  noRunIDClaims !! "run_id" = None /\
  signatureVerified acceptAll env1 (Compact headerRS256 noRunIDClaims "sig") world1
    (parsed noRunIDClaims) world1' /\
  upToActor verifier1 noRunIDClaims /\
  Verify acceptAll verifier1 env1 (Compact headerRS256 noRunIDClaims "sig") world1
  = (Err ErrRunID, world1').
Proof.
  assert (Hnone : noRunIDClaims !! "run_id" = None) by reflexivity.
  assert (Hup : upToActor verifier1 noRunIDClaims).
  { split_and!; [reflexivity | eexists; split; reflexivity | ..];
      (eexists; split; [reflexivity | discriminate]). }
  split; [exact Hnone|]. split; [apply signatureVerified_fixture|]. split; [exact Hup|].
  destruct (extractRunID_rendering acceptAll verifier1 noRunIDClaims)
    as (_ & _ & _ & _ & _ & _ & Habsent).
  destruct (Habsent (or_introl Hnone)) as (_ & _ & _ & _ & Hverify).
  apply (Hverify env1 _ world1 (parsed noRunIDClaims) world1').
  - apply signatureVerified_fixture.
  - reflexivity.
  - vm_compute; split; discriminate.
  - vm_compute; split; discriminate.
  - apply withinValidity_no_bounds; reflexivity.
  - exact Hup.
Defined.

(** Dates beyond the 64 bits of seconds counted from the year 1 wrap
    around: an expiry of 9223372000000000000 seconds lies in the past, so
    the token is expired, and a validity that starts at this second has
    started long ago, so the token passes. *)
Example Verify_wrapped_dates :
  float64.to_int64 farDate = 9223372000000000000 /\
  jwt.numericDate farDate = (9223372000000000000 - 2 ^ 64) * Second /\
  fst (Verify acceptAll verifier1 env1 (Compact headerRS256 farExpForeignClaims "sig") world1)
  = Err (ErrVerifyToken (ErrTokenInvalidClaims [ErrTokenExpired])) /\
  fst (Verify acceptAll verifier1 env1 (Compact headerRS256 farNbfClaims "sig") world1)
  = Ok baseVerified.
Proof. split_and!; vm_compute; reflexivity. Qed.

(** The claims of the fixture pass, with the zero time for both dates. *)
Example Verify_base_claims :
  fst (Verify acceptAll verifier1 env1 (Compact headerRS256 baseClaims "sig") world1)
  = Ok {| Repository := "owner/repo"; Ref := "refs/heads/main"; Actor := "testuser";
          RunID := "123456789";
          Workflow := "owner/repo/.github/workflows/ci.yml@refs/heads/main";
          IssuedAt := zeroTime; ExpiresAt := zeroTime |}.
Proof. vm_compute. reflexivity. Qed.

End VerifyExamples.

(** * Properties of the key cache *)

Section CacheProps.
Import json jwt types oidc props.

Lemma fetchJWKS_fails (env : Env) (c : JWKSCache) :
  fetchFails (jwksResponse env) -> exists e, fetchJWKS env c = (Some e, c).
Proof.
  unfold fetchFails, fetchJWKS. intros H.
  destruct (jwksResponse env) as [| |code body]; [by eexists | by eexists |].
  destruct (Z.eqb_spec code 200) as [->|Hne]; cbn [negb]; [|by eexists].
  destruct body as [|[jwks|]]; [by eexists | destruct H | by eexists].
Qed.

Lemma addKey_skipped (newKeys : gmap string PublicKey) (key : JWK) :
  skipped key -> addKey newKeys key = newKeys.
Proof.
  unfold addKey. intros [Hkty | (e & He)].
  - destruct (String.eqb_spec (Kty key) "RSA"); [contradiction | reflexivity].
  - rewrite He. by destruct (negb _).
Qed.

(** C7: when the fetch of the key set ends in an error, [GetKey] leaves
    the cache - key set and fetch time - as it was, and a request that the
    cache cannot answer gets the fetch error; in a key set document an
    entry of another key type or with an undecodable modulus or exponent
    is passed over: the fetch succeeds and stores what it would store
    without the entry. *)
Theorem GetKey_failed_fetch (env : Env) (kid : string) (w : World) :
  (fetchFails (jwksResponse env) ->
     cache (snd (GetKey env kid w)) = cache w /\
     (cached env (cache w) kid = None ->
        exists e, fst (GetKey env kid w) = Err (ErrFetchJWKS e))) /\
  (forall (c : JWKSCache) (l1 l2 : list JWK) (bad : JWK),
     skipped bad ->
     jwksResponse env = Response 200 (Content (Some (l1 ++ bad :: l2)%list)) ->
     fetchJWKS env c
     = (None, {| url := url c; ttl := ttl c;
                 keys := foldl addKey ∅ (l1 ++ l2)%list;
                 fetchedAt := now env |})).
Proof.
  split.
  - intros Hfail. unfold GetKey. cbn [emit cache trace].
    destruct (cached env (cache w) kid) as [key|].
    + split; [reflexivity | discriminate].
    + destruct (fetchJWKS_fails env (cache w) Hfail) as (e & ->). cbn [fst snd cache].
      split; [reflexivity | intros _; by eexists].
  - intros c l1 l2 bad Hbad Hresp. unfold fetchJWKS. rewrite Hresp. cbn [Z.eqb negb Pos.eqb].
    rewrite !foldl_app. cbn [foldl]. by rewrite addKey_skipped.
Qed.

End CacheProps.

Section CacheExamples.
Import json jwt types oidc props fixtures.

(** The exponent of the key test of the repository. *)
Example parseRSAPublicKey_AQAB :
  DecodeString "AQAB" = Some [1; 0; 1] /\
  E <$> (match parseRSAPublicKey "xjlCRBqkQRiii6JJ" "AQAB" with
         | Ok k => Some k | Err _ => None end) = Some 65537.
Proof. split; vm_compute; reflexivity. Qed.

(** A fetch that fails on a stale cache: the key stays in the cache and
    the call ends in the fetch error. *)
Example GetKey_stale_cache_endpoint_down :
  let env := {| now := now1 + 7200 * Second; jwksResponse := DoError |} in
  GetKey env "k1" world1
  = (Err (ErrFetchJWKS ErrDo),
     {| cache := cache1; trace := [EvGetKey "k1"; EvFetch (url cache1)] |}).
Proof. vm_compute. reflexivity. Qed.

(** A key set with an EC key and an RSA key whose modulus is not base64:
    only the third entry is stored. *)
Example fetchJWKS_skips :
  let doc := [ {| Kid := "a"; Kty := "EC"; Use := "sig"; jwk_N := ""; jwk_E := "" |};
               {| Kid := "b"; Kty := "RSA"; Use := "sig"; jwk_N := "!!"; jwk_E := "AQAB" |};
               {| Kid := "c"; Kty := "RSA"; Use := "sig"; jwk_N := "AQAB"; jwk_E := "AQAB" |} ] in
  let env := {| now := now1; jwksResponse := Response 200 (Content (Some doc)) |} in
  fst (fetchJWKS env cache1) = None /\
  keys (snd (fetchJWKS env cache1)) = {["c" := {| N := 65537; E := 65537 |}]}.
Proof. split; vm_compute; reflexivity. Qed.

End CacheExamples.

(** * Properties of the minter *)

Section MinterProps.
Import json jwt types token.
Variable hmac : string -> string -> gmap string Value -> gmap string Value
  -> Result SignError string.

Ltac find_claim :=
  unfold minted, tokenClaims; rewrite lookup_fmap;
  repeat (rewrite lookup_insert_ne by discriminate);
  first [rewrite lookup_insert_eq | rewrite lookup_empty]; reflexivity.

Lemma minted_repo c now exp jti :
  minted c now exp jti !! "repo" = Some (VString (coerceUTF8 (Repository c))).
Proof. find_claim. Qed.

Lemma minted_ref c now exp jti :
  minted c now exp jti !! "ref" = Some (VString (coerceUTF8 (Ref c))).
Proof. find_claim. Qed.

Lemma minted_actor c now exp jti :
  minted c now exp jti !! "actor" = Some (VString (coerceUTF8 (Actor c))).
Proof. find_claim. Qed.

Lemma minted_run_id c now exp jti :
  minted c now exp jti !! "run_id" = Some (VString (coerceUTF8 (RunID c))).
Proof. find_claim. Qed.

Lemma minted_iat c now exp jti :
  minted c now exp jti !! "iat" = Some (VFloat64 (float64.of_Z (Unix_of now))).
Proof. find_claim. Qed.

Lemma minted_exp c now exp jti :
  minted c now exp jti !! "exp" = Some (VFloat64 (float64.of_Z (Unix_of exp))).
Proof. find_claim. Qed.

Lemma minted_nbf c now exp jti : minted c now exp jti !! "nbf" = None.
Proof. find_claim. Qed.

Lemma Mint_inv (m : Minter) (now : Z) (jti : string) (claims : VerifiedClaims)
    (tokenString : TokenString) (expiresAt : Z) :
  Mint hmac m now jti claims = Ok (tokenString, expiresAt) ->
  expiresAt = now + ttl m /\
  exists sig,
    hmac "HS256" (secret m) headerHS256 (minted claims now (now + ttl m) jti) = Ok sig /\
    tokenString = Compact headerHS256 (minted claims now (now + ttl m) jti) sig.
Proof.
  unfold Mint, SignedString.
  destruct (hmac "HS256" (secret m) headerHS256 _) as [sig|e] eqn:E; [|discriminate].
  intros H. injection H as <- <-. split; [reflexivity|]. by exists sig.
Qed.

(** The expiry check of the validator on a minted token: the instant
    must be before the second of expiry. *)
Lemma Validate_minted (c : VerifiedClaims) (now exp : Z) (jti : string) (now' : Z) :
  Z.abs (Unix_of exp) < 2 ^ 53 ->
  now' < Unix_of exp * Second ->
  jwt.Validate 0 (minted c now exp jti) now' = [].
Proof.
  intros Hr Hlt. unfold jwt.Validate, verifyExpiresAt, verifyNotBefore, parseNumericDate.
  rewrite minted_exp, minted_nbf, is_zero_of_Z by exact Hr.
  destruct (Unix_of exp =? 0); [reflexivity|].
  rewrite numericDate_of_Z by exact Hr.
  rewrite time_Add_zero by (unfold unixToInternal; lia).
  replace (now' <? Unix_of exp * Second) with true; [reflexivity|].
  symmetry. apply Z.ltb_lt. lia.
Qed.

Lemma Unix_of_small (t : Z) :
  2 * minDuration <= t <= 2 * maxDuration -> Z.abs (Unix_of t) < 2 ^ 53.
Proof.
  unfold minDuration, maxDuration, Unix_of, Second. intros H.
  assert (- 2 ^ 53 < t / 1000000000 < 2 ^ 53); [|lia].
  split.
  - apply Z.lt_le_trans with (m := (- 2 ^ 64) / 1000000000); [reflexivity|].
    apply Z.div_le_mono; lia.
  - apply Z.le_lt_trans with (m := 2 ^ 64 / 1000000000); [|reflexivity].
    apply Z.div_le_mono; lia.
Qed.

(** C6, as the code has it: a token minted from claims whose repository,
    ref, actor and run identifier are valid UTF-8 (the clock and the TTL
    being 64-bit counts of nanoseconds) validates under the same secret
    at every instant before its second of expiry - the second of
    [now + ttl] - and the validated claims carry the four fields of the
    input, the second of minting as [iat] and the second of expiry as
    [exp], which is [iat] plus the TTL when the TTL is a whole number of
    seconds. *)
Theorem Mint_Validate_roundtrip (m : Minter) (now now' : Z) (jti : string)
    (claims : VerifiedClaims) (tokenString : TokenString) (expiresAt : Z) :
  Mint hmac m now jti claims = Ok (tokenString, expiresAt) ->
  validUTF8 (Repository claims) -> validUTF8 (Ref claims) ->
  validUTF8 (Actor claims) -> validUTF8 (RunID claims) ->
  minDuration <= now <= maxDuration -> minDuration <= ttl m <= maxDuration ->
  now' < Unix_of (now + ttl m) * Second ->
  exists rc,
    Validate hmac m now' tokenString = Ok rc /\
    rc_Repo rc = Repository claims /\ rc_Ref rc = Ref claims /\
    rc_Actor rc = Actor claims /\ rc_RunID rc = RunID claims /\
    rc_IssuedAt rc = Unix_of now /\ rc_ExpiresAt rc = Unix_of (now + ttl m) /\
    (forall s, ttl m = s * Second -> rc_ExpiresAt rc = rc_IssuedAt rc + s).
Proof.
  intros Hmint Hrepo Href Hactor Hrun Hnow Httl Hnow'.
  assert (Hiat : Z.abs (Unix_of now) < 2 ^ 53) by (apply Unix_of_small; unfold minDuration, maxDuration in *; lia).
  assert (Hexp : Z.abs (Unix_of (now + ttl m)) < 2 ^ 53) by (apply Unix_of_small; unfold minDuration, maxDuration in *; lia).
  destruct (Mint_inv _ _ _ _ _ _ Hmint) as (-> & sig & Hsig & ->).
  unfold Validate, Parse, ParseUnverified.
  replace (headerHS256 !! "alg") with (Some (VString "HS256")) by reflexivity.
  replace (GetSigningMethod "HS256") with (Some (SigningMethodHMAC "HS256")) by reflexivity.
  unfold keyFunc. cbn [Method Claims hmacVerify].
  rewrite Hsig, String.eqb_refl. cbn [negb].
  rewrite Validate_minted by assumption. cbn [Valid negb].
  eexists. split; [reflexivity|].
  cbn [rc_Repo rc_Ref rc_Actor rc_RunID rc_IssuedAt rc_ExpiresAt].
  unfold asString, asInt64. cbn [Claims].
  rewrite minted_repo, minted_ref, minted_actor, minted_run_id, minted_iat, minted_exp.
  rewrite !to_int64_of_Z by assumption.
  repeat split; try assumption.
  intros s Hs. unfold Unix_of. rewrite Hs, Z.div_add by discriminate. reflexivity.
Qed.

End MinterProps.

Section MinterExamples.
Import json jwt types token fixtures.

(** The minter test of the repository: the validated claims of a minted
    token. *)
Example Mint_Validate_test :
  toOption (Validate mac minter600 (now1 + Second) (tokenOf minter600 now1 claims1))
  = Some {| rc_Issuer := "robohub-auth"; rc_Subject := "repo:owner/repo";
            rc_Audience := "robohub-api";
            rc_IssuedAt := 1700000000; rc_ExpiresAt := 1700000600;
            rc_JTI := "jti-1"; rc_Repo := "owner/repo"; rc_Ref := "refs/heads/main";
            rc_Actor := "testuser"; rc_RunID := "123456789";
            rc_Scopes := ["ingest:build"] |}.
Proof. vm_compute. reflexivity. Qed.

(** The wrong-secret test of the repository. *)
Example Validate_wrong_secret :
  Validate mac (NewMinter "wrong-secret" (600 * Second)) (now1 + Second)
    (tokenOf minter600 now1 claims1)
  = Err (ErrParseToken ErrTokenSignatureInvalid).
Proof. vm_compute. reflexivity. Qed.

(** C6 as stated fails in three ways. A token minted nine tenths into a
    second with a TTL of 600 seconds is expired half a second before the
    expiry that [Mint] returns. With a TTL of a second and a half the
    validated [exp] is two seconds after [iat]. A repository that is not
    valid UTF-8 comes back as U+FFFD. *)
Lemma Mint_Validate_breaks :
  (Mint mac minter600 now1_9 "jti-1" claims1
   = Ok (tokenOf minter600 now1_9 claims1, now1_9 + 600 * Second) /\
   now1_9 <= now1_9 + 599500000000 < now1_9 + 600 * Second /\
   Validate mac minter600 (now1_9 + 599500000000) (tokenOf minter600 now1_9 claims1)
   = Err (ErrParseToken (ErrTokenInvalidClaims [ErrTokenExpired]))) /\
  (ttl minter1500ms = 1500000000 /\
   (fun rc => (rc_ExpiresAt rc - rc_IssuedAt rc) * Second)
     <$> toOption (Validate mac minter1500ms (now1_6 + Second)
                     (tokenOf minter1500ms now1_6 claims1))
   = Some 2000000000) /\
  (Repository claimsFF = String "255" "" /\
   rc_Repo <$> toOption (Validate mac minter600 (now1 + Second)
                           (tokenOf minter600 now1 claimsFF))
   = Some (String "239" (String "191" (String "189" "")))).
Proof. repeat split; vm_compute; reflexivity || (intros H; discriminate H). Qed.

Lemma Mint_Validate_roundtrip_witness :
  Mint mac minter600 now1_9 "jti-1" claims1
  = Ok (tokenOf minter600 now1_9 claims1, now1_9 + 600 * Second) /\
  exists rc,
    Validate mac minter600 (now1_9 + 599 * Second) (tokenOf minter600 now1_9 claims1)
    = Ok rc /\
    rc_Repo rc = Repository claims1 /\ rc_Ref rc = Ref claims1 /\
    rc_Actor rc = Actor claims1 /\ rc_RunID rc = RunID claims1 /\
    rc_IssuedAt rc = Unix_of now1_9 /\
    rc_ExpiresAt rc = Unix_of (now1_9 + ttl minter600) /\
    (forall s, ttl minter600 = s * Second -> rc_ExpiresAt rc = rc_IssuedAt rc + s).
Proof.
  assert (Hmint : Mint mac minter600 now1_9 "jti-1" claims1
                  = Ok (tokenOf minter600 now1_9 claims1, now1_9 + 600 * Second))
    by (vm_compute; reflexivity).
  split; [exact Hmint|].
  apply (Mint_Validate_roundtrip mac minter600 now1_9 (now1_9 + 599 * Second) "jti-1"
           claims1 _ _ Hmint); try (vm_compute; reflexivity);
    vm_compute; split; intros H; discriminate H.
Defined.

End MinterExamples.

(** * Branches and lists of the policy *)

Section BranchProps.
Import policy props.

Lemma prefix_app (p s : string) : String.prefix p (p +:+ s) = true.
Proof.
  induction p as [|c p IH]; simpl.
  - by destruct s.
  - destruct (Ascii.ascii_dec c c) as [_|Hne]; [exact IH | by destruct Hne].
Qed.

Lemma prefix_split (p s : string) :
  String.prefix p s = true -> s = p +:+ strings.skip (String.length p) s.
Proof.
  revert s. induction p as [|c p IH]; intros s H; simpl.
  - reflexivity.
  - destruct s as [|c' s]; [discriminate H|]. simpl in H.
    destruct (Ascii.ascii_dec c c') as [->|Hne]; [|discriminate H].
    change (String c' s = String c' (p +:+ strings.skip (String.length p) s)).
    f_equal. by apply IH.
Qed.

Lemma skip_app (p s : string) : strings.skip (String.length p) (p +:+ s) = s.
Proof. induction p as [|c p IH]; [by destruct s | exact IH]. Qed.

(** X1: [ExtractBranch] takes the prefix refs/heads/ off a ref that has
    it, so that the ref is the prefix followed by the branch, and returns
    every other ref as it is. *)
Theorem ExtractBranch_inverts_prefix (ref : string) :
  (forall branch, ref = "refs/heads/" +:+ branch -> ExtractBranch ref = branch) /\
  (strings.HasPrefix ref "refs/heads/" = true ->
     ref = "refs/heads/" +:+ ExtractBranch ref) /\
  (strings.HasPrefix ref "refs/heads/" = false -> ExtractBranch ref = ref).
Proof.
  unfold ExtractBranch, strings.TrimPrefix, strings.HasPrefix. repeat split.
  - intros branch ->. rewrite prefix_app. apply (skip_app "refs/heads/").
  - intros H. rewrite H. by apply prefix_split.
  - intros H. by rewrite H.
Qed.

(** X2: when only the default branch is allowed, [Evaluate] lets a ref
    pass only if [IsDefaultBranch] holds of it, and then [ExtractBranch]
    gives the configured default branch. *)
Theorem Evaluate_allows_default_branch_only (e : Enforcer) (repository ref : string) :
  defaultBranchOnly e = true ->
  Evaluate e repository ref = None ->
  IsDefaultBranch e ref = true /\ ExtractBranch ref = defaultBranch e.
Proof.
  intros Hdbo. unfold Evaluate, IsDefaultBranch. rewrite Hdbo.
  destruct (index (denyList e) repository); [discriminate|].
  destruct (_ && _); [discriminate|].
  destruct (String.eqb_spec ref ("refs/heads/" +:+ defaultBranch e)) as [->|Hne];
    [|discriminate].
  intros _. split; [reflexivity|].
  unfold ExtractBranch, strings.TrimPrefix, strings.HasPrefix.
  rewrite prefix_app. apply (skip_app "refs/heads/").
Qed.

Lemma nonempty_sameMembers (l1 l2 : list string) :
  sameMembers l1 l2 -> bool_decide (l1 ≠ []) = bool_decide (l2 ≠ []).
Proof.
  intros H. apply bool_decide_ext.
  destruct l1 as [|x l1], l2 as [|y l2]; try done.
  - split; [done|]. intros _. exfalso.
    eapply not_elem_of_nil, (proj2 (H y)). by left.
  - split; [|done]. intros _. exfalso.
    eapply not_elem_of_nil, (proj1 (H x)). by left.
Qed.

(** X3: the decision of an enforcer depends on its two lists only as
    sets: the order of the entries and repeated entries make no
    difference. *)
Theorem NewEnforcer_lists_are_sets (dbo : bool) (branch : string)
    (allow allow' deny deny' : list string) (repository ref : string) :
  sameMembers allow allow' -> sameMembers deny deny' ->
  Evaluate (NewEnforcer dbo branch allow deny) repository ref
  = Evaluate (NewEnforcer dbo branch allow' deny') repository ref.
Proof.
  intros Ha Hd. unfold Evaluate, NewEnforcer.
  cbn [denyList allowList defaultBranchOnly defaultBranch].
  rewrite !index_mark_all, !size_mark_all.
  rewrite (nonempty_sameMembers _ _ Ha).
  rewrite (bool_decide_ext _ _ (Hd repository)), (bool_decide_ext _ _ (Ha repository)).
  reflexivity.
Qed.

End BranchProps.

Section BranchExamples.
Import policy props.

Lemma Evaluate_allows_default_branch_only_witness :
  defaultBranchOnly (NewEnforcer true "main" [] []) = true /\
  Evaluate (NewEnforcer true "main" [] []) "owner/repo" "refs/heads/main" = None /\
  IsDefaultBranch (NewEnforcer true "main" [] []) "refs/heads/main" = true /\
  ExtractBranch "refs/heads/main" = "main".
Proof.
  assert (H1 : defaultBranchOnly (NewEnforcer true "main" [] []) = true) by reflexivity.
  assert (H2 : Evaluate (NewEnforcer true "main" [] []) "owner/repo" "refs/heads/main"
               = None) by (vm_compute; reflexivity).
  split; [exact H1|]. split; [exact H2|].
  exact (Evaluate_allows_default_branch_only _ "owner/repo" "refs/heads/main" H1 H2).
Defined.

Lemma sameMembers_swap_dup :
  sameMembers ["a/x"; "b/y"] ["b/y"; "a/x"; "b/y"].
Proof.
  intros x. rewrite !elem_of_cons. pose proof (not_elem_of_nil x). tauto.
Defined.

Lemma sameMembers_refl (l : list string) : sameMembers l l.
Proof. intros x. reflexivity. Defined.

Lemma NewEnforcer_lists_are_sets_witness :
  sameMembers ["a/x"; "b/y"] ["b/y"; "a/x"; "b/y"] /\
  sameMembers ["evil/repo"] ["evil/repo"] /\
  Evaluate (NewEnforcer false "main" ["a/x"; "b/y"] ["evil/repo"]) "a/x" "refs/heads/dev"
  = Evaluate (NewEnforcer false "main" ["b/y"; "a/x"; "b/y"] ["evil/repo"]) "a/x"
      "refs/heads/dev".
Proof.
  split; [exact sameMembers_swap_dup|]. split; [apply sameMembers_refl|].
  exact (NewEnforcer_lists_are_sets false "main" _ _ _ _ "a/x" "refs/heads/dev"
           sameMembers_swap_dup (sameMembers_refl ["evil/repo"])).
Defined.

(** The refs of the branch test of the repository. *)
Example ExtractBranch_tests :
  ExtractBranch "refs/heads/main" = "main" /\
  ExtractBranch "refs/heads/feature/test" = "feature/test" /\
  ExtractBranch "refs/tags/v1.0.0" = "refs/tags/v1.0.0" /\
  ExtractBranch "main" = "main".
Proof. repeat split; vm_compute; reflexivity. Qed.

End BranchExamples.

(** * Buckets of the limiter *)

Section LimiterProps.
Import rate props.
Local Open Scope Q_scope.

Lemma bucketOf_other (l : ratelimit.Limiter) (repository other : string) (now : Z) :
  other <> repository ->
  ratelimit.bucketOf (snd (ratelimit.Allow l repository now)) other
  = ratelimit.bucketOf l other.
Proof.
  intros Hne. rewrite bucketOf_Allow. cbn [snd].
  unfold ratelimit.bucketOf, ratelimit.getLimiter. cbn [ratelimit.limiters].
  rewrite lookup_insert_ne by done.
  destruct (ratelimit.limiters l !! repository);
    cbn [snd ratelimit.limiters ratelimit.rps ratelimit.burst];
    rewrite ?lookup_insert_ne by done;
    destruct (ratelimit.limiters l !! other); reflexivity.
Qed.

(** X4: the buckets are kept apart by repository: a call of [Allow] for
    one repository leaves the bucket of every other repository as it was,
    and with it the answer that the other repository gets next. *)
Theorem Allow_isolates_repositories (l : ratelimit.Limiter)
    (repository other : string) (now now' : Z) :
  other <> repository ->
  ratelimit.bucketOf (snd (ratelimit.Allow l repository now)) other
  = ratelimit.bucketOf l other /\
  fst (ratelimit.Allow (snd (ratelimit.Allow l repository now)) other now')
  = fst (ratelimit.Allow l other now').
Proof.
  intros Hne. split; [by apply bucketOf_other|].
  rewrite (bucketOf_Allow _ other now'), (bucketOf_Allow l other now'). cbn [fst].
  by rewrite bucketOf_other.
Qed.

Lemma Allow_settings (l : ratelimit.Limiter) (repository : string) (now : Z) :
  let l' := snd (ratelimit.Allow l repository now) in
  dom (ratelimit.limiters l') = dom (ratelimit.limiters l) ∪ ({[repository]} : gset string) /\
  ratelimit.rps l' = ratelimit.rps l /\ ratelimit.burst l' = ratelimit.burst l.
Proof.
  rewrite bucketOf_Allow. cbn [snd ratelimit.limiters ratelimit.rps ratelimit.burst].
  split; [|done]. rewrite dom_insert_L.
  unfold ratelimit.getLimiter.
  destruct (ratelimit.limiters l !! repository) eqn:E; cbn [snd ratelimit.limiters].
  - apply (comm_L (∪)).
  - rewrite dom_insert_L, (assoc_L (∪)), (idemp_L (∪)). apply (comm_L (∪)).
Qed.

Lemma AllowEach_dom (reqs : list (string * Z)) (l : ratelimit.Limiter) :
  dom (ratelimit.limiters (snd (AllowEach reqs l)))
  = dom (ratelimit.limiters l) ∪ (list_to_set reqs.*1 : gset string).
Proof.
  revert l. induction reqs as [|[repository t] reqs IH]; intros l; cbn [AllowEach].
  - cbn. by rewrite (right_id_L ∅ (∪)).
  - destruct (Allow_settings l repository t) as (Hdom & _).
    destruct (ratelimit.Allow l repository t) as [ok l1]. cbn [snd] in Hdom.
    specialize (IH l1). destruct (AllowEach reqs l1) as [oks l2]. cbn [snd] in *.
    rewrite IH, Hdom. cbn [fmap list_fmap fst list_to_set].
    by rewrite (assoc_L (∪)).
Qed.

(** X5: the limiter keeps one bucket per repository: after any sequence
    of calls of [Allow], [GetLimiterCount] is the number of distinct
    repositories among those it held before and those of the calls; after
    [Reset] only the repositories of the later calls count. *)
Theorem GetLimiterCount_counts_repositories (reqs : list (string * Z))
    (l : ratelimit.Limiter) :
  ratelimit.GetLimiterCount (snd (AllowEach reqs l))
  = Z.of_nat (size (dom (ratelimit.limiters l) ∪ (list_to_set reqs.*1 : gset string))) /\
  ratelimit.GetLimiterCount (snd (AllowEach reqs (ratelimit.Reset l)))
  = Z.of_nat (size (list_to_set reqs.*1 : gset string)).
Proof.
  unfold ratelimit.GetLimiterCount. rewrite <- !size_dom, !AllowEach_dom.
  split; [reflexivity|]. cbn [ratelimit.Reset ratelimit.limiters].
  rewrite dom_empty_L, (left_id_L ∅ (∪)). reflexivity.
Qed.

Lemma tokensFromDuration_nonneg (lim : Q) (d : Z) :
  (0 <= d)%Z -> 0 <= tokensFromDuration lim d.
Proof.
  intros H. unfold tokensFromDuration.
  destruct (Qle_bool lim 0) eqn:E; [apply Qle_refl|].
  assert (Hl : 0 < lim).
  { apply Qnot_le_lt. intros Hle. apply Qle_bool_iff in Hle. congruence. }
  apply Qmult_le_0_compat; [|by apply Qlt_le_weak].
  apply Qle_shift_div_l; [reflexivity|].
  rewrite Qmult_0_l. change 0 with (inject_Z 0). rewrite <- Zle_Qle. exact H.
Qed.

(** A full bucket is full at every instant. *)
Lemma advance_full (lim : Limiter) (t : Z) :
  tokens lim == inject_Z (burst lim) ->
  exists toks, advance lim t = (t, toks) /\ toks == inject_Z (burst lim).
Proof.
  intros Ht. unfold advance. eexists. split; [reflexivity|].
  set (last0 := if (t <? last lim)%Z then t else last lim).
  assert (Hlast : (last0 <= t)%Z).
  { subst last0. destruct (Z.ltb_spec t (last lim)); lia. }
  pose proof (tokensFromDuration_nonneg (limit lim) _ (time_Sub_nonneg _ _ Hlast)) as Hd.
  destruct (Qltb _ _) eqn:E; [reflexivity|].
  apply Qltb_ge in E. apply Qle_antisym; [exact E|].
  rewrite <- Ht. rewrite <- (Qplus_0_r (tokens lim)) at 1. by apply Qplus_le_r.
Qed.

(** X6: the first call of [Allow] for a repository that has no bucket
    yet, under a positive finite rate, passes exactly when the burst is at
    least 1, at whatever instant it is made. *)
Theorem Allow_first_call (l : ratelimit.Limiter) (repository : string) (now : Z) :
  ratelimit.limiters l !! repository = None ->
  0 < ratelimit.rps l -> ~ ratelimit.rps l == Inf ->
  fst (ratelimit.Allow l repository now) = (1 <=? ratelimit.burst l)%Z.
Proof.
  intros Hnone Hpos Hfin. rewrite bucketOf_Allow. cbn [fst].
  unfold ratelimit.bucketOf, ratelimit.getLimiter. rewrite Hnone. cbn [fst].
  unfold Allow, reserveN. cbn [NewLimiter limit burst].
  destruct (Qeq_bool (ratelimit.rps l) Inf) eqn:E.
  { exfalso. apply Hfin. by apply Qeq_bool_iff. }
  destruct (advance_full (NewLimiter (ratelimit.rps l) (ratelimit.burst l)) now)
    as (toks & Ha & Ht); [reflexivity|].
  cbn [NewLimiter limit burst] in Ha, Ht. rewrite Ha.
  destruct (Z.leb_spec 1 (ratelimit.burst l)) as [Hb|Hb]; cbn [andb]; [|reflexivity].
  assert (Hw : Qltb (toks - inject_Z 1) 0 = false).
  { apply Qltb_ge. rewrite Ht. unfold Qminus. rewrite <- inject_Z_opp, <- inject_Z_plus.
    change 0 with (inject_Z 0). rewrite <- Zle_Qle. lia. }
  rewrite Hw. reflexivity.
Qed.

(** An empty bucket of rate 1 after [d] nanoseconds. *)
Lemma Allow_after_empty (B t d : Z) (lim : Limiter) :
  holds B t 0 lim -> (1 <= B)%Z -> (0 <= d <= maxDuration)%Z ->
  fst (Allow lim (t + d)) = (Second <=? d)%Z.
Proof.
  intros (Hl & Hb & Ht & _ & Hfull) HB Hd.
  destruct Hfull as [Hz | Hlast]; [lia|].
  unfold Allow, reserveN. rewrite Hl, one_is_not_Inf. unfold advance.
  rewrite Hlast, Hl, Hb.
  replace (t + d <? t)%Z with false by (symmetry; apply Z.ltb_ge; lia).
  replace (time_Sub (t + d) t) with d
    by (unfold time_Sub, minDuration, maxDuration in *; lia).
  set (toks0 := tokens lim + tokensFromDuration 1 d).
  assert (H0 : toks0 == inject_Z d / inject_Z Second).
  { subst toks0. rewrite Ht. unfold tokensFromDuration.
    change (Qle_bool 1 0) with false. cbv iota. rewrite Qmult_1_r, Qplus_0_l. reflexivity. }
  replace (1 <=? B)%Z with true by (symmetry; apply Z.leb_le; lia). cbn [andb].
  destruct (Z.leb_spec Second d) as [Hge|Hlt].
  - assert (Hc : Qltb ((if Qltb (inject_Z B) toks0 then inject_Z B else toks0)
                       - inject_Z 1) 0 = false).
    { apply Qltb_ge. destruct (Qltb (inject_Z B) toks0).
      - unfold Qminus. rewrite <- inject_Z_opp, <- inject_Z_plus.
        change 0 with (inject_Z 0). rewrite <- Zle_Qle. lia.
      - rewrite H0. revert Hge.
        unfold Qle, Qminus, Qplus, Qopp, Qdiv, Qmult, Qinv, inject_Z, Second. cbn. lia. }
    rewrite Hc. reflexivity.
  - assert (Hcap : Qltb (inject_Z B) toks0 = false).
    { apply Qltb_ge. rewrite H0. revert Hlt HB.
      unfold Qle, Qdiv, Qmult, Qinv, inject_Z, Second. cbn. lia. }
    rewrite Hcap.
    assert (Hc : Qltb (toks0 - inject_Z 1) 0 = true).
    { apply Qltb_lt. rewrite H0. revert Hlt.
      unfold Qlt, Qminus, Qplus, Qopp, Qdiv, Qmult, Qinv, inject_Z, Second. cbn. lia. }
    rewrite Hc.
    assert (W : durationFromTokens 1 (- (toks0 - inject_Z 1)) = (Second - d)%Z).
    { unfold durationFromTokens. change (Qle_bool 1 0) with false. cbv iota.
      assert (D : - (toks0 - inject_Z 1) / 1 * inject_Z Second == inject_Z (Second - d)).
      { rewrite H0.
        unfold Qeq, Qminus, Qplus, Qopp, Qdiv, Qmult, Qinv, inject_Z, Second. cbn. lia. }
      replace (Qltb _ _) with false.
      - apply Qtrunc_inject. exact D.
      - symmetry. apply Qltb_ge. rewrite D. rewrite <- Zle_Qle.
        unfold Second. lia. }
    rewrite W. replace (Second - d <=? 0)%Z with false; [reflexivity|].
    symmetry. apply Z.leb_gt. lia.
Qed.

(** X7: a bucket of rate 1 that was emptied by its burst of [N] calls at
    one instant (with [N] up to 2^53, which [float64] counts exactly)
    lets the next call pass when a full second has gone by since, and
    turns it down when two nanoseconds or more are missing to the full
    second. The last nanosecond before the full second is left open: the
    library computes the wait in [float64] and cuts it to whole
    nanoseconds, which can let a call pass there. *)
Theorem Allow_refills_after_a_second (repository : string) (N : nat) (now d : Z) :
  (1 <= N)%nat -> (Z.of_nat N <= 2 ^ 53)%Z -> (0 <= d <= maxDuration)%Z ->
  let l1 := snd (ratelimit.AllowTimes N (ratelimit.NewLimiter 1 (Z.of_nat N))
                   repository now) in
  ((Second <= d)%Z -> fst (ratelimit.Allow l1 repository (now + d)) = true) /\
  ((d <= Second - 2)%Z -> fst (ratelimit.Allow l1 repository (now + d)) = false).
Proof.
  intros HN _ Hd l1.
  enough (Hex : fst (ratelimit.Allow l1 repository (now + d)) = (Second <=? d)%Z).
  { rewrite Hex. split; intros H; [apply Z.leb_le | apply Z.leb_gt]; lia. }
  set (l0 := ratelimit.NewLimiter 1 (Z.of_nat N)) in *.
  assert (H0 : holds (Z.of_nat N) now (Z.of_nat N) (ratelimit.bucketOf l0 repository)).
  { unfold holds, l0, ratelimit.bucketOf. cbn.
    repeat split; try reflexivity; try lia. }
  destruct (AllowTimes_drains repository now (Z.of_nat N) N l0 eq_refl eq_refl H0)
    as [_ Hempty].
  fold l1 in Hempty. rewrite bucketOf_Allow. cbn [fst].
  apply (Allow_after_empty (Z.of_nat N)); [exact Hempty | lia | exact Hd].
Qed.

End LimiterProps.

Section LimiterExamples.
Import rate props.
Local Open Scope Q_scope.

Lemma Allow_isolates_repositories_witness :
  ("repo2" <> "repo1") /\
  ratelimit.bucketOf (snd (ratelimit.Allow (ratelimit.NewLimiter 1 1) "repo1" 0)) "repo2"
  = ratelimit.bucketOf (ratelimit.NewLimiter 1 1) "repo2" /\
  fst (ratelimit.Allow (snd (ratelimit.Allow (ratelimit.NewLimiter 1 1) "repo1" 0))
         "repo2" 0)
  = fst (ratelimit.Allow (ratelimit.NewLimiter 1 1) "repo2" 0).
Proof.
  assert (H : "repo2" <> "repo1") by discriminate.
  split; [exact H|].
  exact (Allow_isolates_repositories (ratelimit.NewLimiter 1 1) "repo1" "repo2" 0 0 H).
Defined.

Lemma Allow_first_call_witness :
  ratelimit.limiters (ratelimit.NewLimiter 10 10) !! "test/repo" = None /\
  0 < ratelimit.rps (ratelimit.NewLimiter 10 10) /\
  (~ ratelimit.rps (ratelimit.NewLimiter 10 10) == Inf) /\
  fst (ratelimit.Allow (ratelimit.NewLimiter 10 10) "test/repo" 1700000000000000000)
  = (1 <=? 10)%Z.
Proof.
  assert (H1 : ratelimit.limiters (ratelimit.NewLimiter 10 10) !! "test/repo" = None)
    by reflexivity.
  assert (H2 : 0 < ratelimit.rps (ratelimit.NewLimiter 10 10)) by reflexivity.
  assert (H3 : ~ ratelimit.rps (ratelimit.NewLimiter 10 10) == Inf)
    by (intros H; vm_compute in H; discriminate H).
  split; [exact H1|]. split; [exact H2|]. split; [exact H3|].
  exact (Allow_first_call _ "test/repo" 1700000000000000000 H1 H2 H3).
Defined.

Lemma Allow_refills_after_a_second_witness :
  (1 <= 3)%nat /\ (Z.of_nat 3 <= 2 ^ 53)%Z /\ (0 <= Second <= maxDuration)%Z /\
  (Second <= Second)%Z /\
  fst (ratelimit.Allow
         (snd (ratelimit.AllowTimes 3 (ratelimit.NewLimiter 1 3) "test/repo" 0))
         "test/repo" (0 + Second))
  = true.
Proof.
  assert (H1 : (1 <= 3)%nat) by lia.
  assert (H2 : (Z.of_nat 3 <= 2 ^ 53)%Z) by (vm_compute; discriminate).
  assert (H3 : (0 <= Second <= maxDuration)%Z) by (vm_compute; split; discriminate).
  assert (H4 : (Second <= Second)%Z) by lia.
  split; [exact H1|]. split; [exact H2|]. split; [exact H3|]. split; [exact H4|].
  exact (proj1 (Allow_refills_after_a_second "test/repo" 3 0 Second H1 H2 H3) H4).
Defined.

(** Half a second after the burst the bucket is still empty. *)
Example Allow_half_a_second_later :
  fst (ratelimit.Allow
         (snd (ratelimit.AllowTimes 3 (ratelimit.NewLimiter 1 3) "test/repo" 0))
         "test/repo" 500000000)
  = false.
Proof. vm_compute. reflexivity. Qed.

(** The isolation test of the repository: with burst 2, the third call
    for the first repository fails and the second repository still passes;
    two buckets are counted, none after [Reset]. *)
Example limiter_isolation_test :
  let reqs := [("repo1", 5%Z); ("repo1", 5%Z); ("repo1", 5%Z); ("repo2", 5%Z)] in
  let r := AllowEach reqs (ratelimit.NewLimiter 1 2) in
  fst r = [true; true; false; true] /\
  ratelimit.GetLimiterCount (snd r) = 2%Z /\
  ratelimit.GetLimiterCount (ratelimit.Reset (snd r)) = 0%Z.
Proof. repeat split; vm_compute; reflexivity. Qed.

End LimiterExamples.

(** * Hits, refreshes and the contents of the key cache *)

Section CacheHits.
Import json jwt types oidc props.

Lemma cached_fresh (env : Env) (c : JWKSCache) (kid : string) :
  (fresh env c kid -> exists key, keys c !! kid = Some key /\ cached env c kid = Some key) /\
  (~ fresh env c kid -> cached env c kid = None).
Proof.
  unfold fresh, cached. destruct (keys c !! kid) as [key|] eqn:E.
  - destruct (Z.ltb_spec (time_Sub (now env) (fetchedAt c)) (ttl c)) as [Hlt|Hge].
    + split; [intros _; by exists key | intros H; exfalso; apply H; split; [by eexists | done]].
    + split; [intros [_ H]; lia | done].
  - split; [intros [[k Hk] _]; discriminate Hk | done].
Qed.

(** X8: [GetKey] answers from the cache, without a fetch and without a
    change of the cache, when the cache holds the key and its last fetch
    is less than the TTL ago; in every other case it makes exactly one
    fetch, from the URL of the cache. *)
Theorem GetKey_fetches_only_when_stale (env : Env) (kid : string) (w : World) :
  (fresh env (cache w) kid ->
     exists key, keys (cache w) !! kid = Some key /\
       GetKey env kid w
       = (Ok key, {| cache := cache w; trace := (trace w ++ [EvGetKey kid])%list |})) /\
  (~ fresh env (cache w) kid ->
     trace (snd (GetKey env kid w))
     = (trace w ++ [EvGetKey kid; EvFetch (url (cache w))])%list).
Proof.
  destruct (cached_fresh env (cache w) kid) as [Hhit Hmiss]. split.
  - intros Hf. destruct (Hhit Hf) as (key & Hk & Hc). exists key. split; [exact Hk|].
    unfold GetKey. cbn [emit cache trace]. by rewrite Hc.
  - intros Hf. unfold GetKey. cbn [emit cache trace]. rewrite (Hmiss Hf).
    destruct (fetchJWKS env (cache w)) as [[err|] c]; cbn [snd trace].
    + by rewrite <- app_assoc.
    + destruct (keys c !! kid); cbn [snd trace]; by rewrite <- app_assoc.
Qed.

Lemma GetKey_Ok_keys (env : Env) (kid : string) (w : World) (key : PublicKey) :
  fst (GetKey env kid w) = Ok key ->
  keys (cache (snd (GetKey env kid w))) !! kid = Some key.
Proof.
  unfold GetKey, cached. cbn [emit cache trace].
  destruct (keys (cache w) !! kid) as [k|] eqn:E.
  - destruct (time_Sub (now env) (fetchedAt (cache w)) <? ttl (cache w)).
    + cbn. intros H. injection H as <-. exact E.
    + destruct (fetchJWKS env (cache w)) as [[err|] c]; cbn; [discriminate|].
      destruct (keys c !! kid) as [k'|] eqn:E'; cbn; [|discriminate].
      intros H. injection H as <-. exact E'.
  - destruct (fetchJWKS env (cache w)) as [[err|] c]; cbn; [discriminate|].
    destruct (keys c !! kid) as [k'|] eqn:E'; cbn; [|discriminate].
    intros H. injection H as <-. exact E'.
Qed.

(** X9: once [GetKey] has returned a key, the next call on the cache for
    the same key identifier, when it comes less than the TTL after the
    fetch time of the cache, returns the same key without a fetch and
    leaves the cache as it is. (A call for another key identifier in
    between can replace the key set, so this is about the call that
    follows directly.) *)
Theorem GetKey_serves_from_cache_afterwards (env env' : Env) (kid : string)
    (w : World) (key : PublicKey) :
  fst (GetKey env kid w) = Ok key ->
  let w1 := snd (GetKey env kid w) in
  time_Sub (now env') (fetchedAt (cache w1)) < ttl (cache w1) ->
  GetKey env' kid w1 = (Ok key, emit (EvGetKey kid) w1).
Proof.
  intros Hok w1 Hlt. pose proof (GetKey_Ok_keys env kid w key Hok) as Hk. fold w1 in Hk.
  unfold GetKey, cached. cbn [emit cache trace]. rewrite Hk.
  replace (_ <? _) with true by (symmetry; by apply Z.ltb_lt). reflexivity.
Qed.

Lemma usable_not_skipped (jwk : JWK) (key : PublicKey) :
  usable jwk key -> ~ skipped jwk.
Proof.
  intros [Hk Hp] [Hne | (e & He)]; [by apply Hne | congruence].
Qed.

Lemma addKey_cases (newKeys : gmap string PublicKey) (jwk : JWK) :
  (skipped jwk /\ addKey newKeys jwk = newKeys) \/
  (exists key, usable jwk key /\ addKey newKeys jwk = <[Kid jwk := key]> newKeys).
Proof.
  unfold addKey, skipped, usable.
  destruct (String.eqb_spec (Kty jwk) "RSA") as [Heq|Hne]; cbn [negb].
  - destruct (parseRSAPublicKey (jwk_N jwk) (jwk_E jwk)) as [key|e] eqn:E.
    + right. by exists key.
    + left. split; [right; by exists e | reflexivity].
  - left. split; [by left | reflexivity].
Qed.

(** The key under an identifier after the loop of [fetchJWKS] comes from
    the last entry of the document with this identifier that is not
    passed over. *)
Lemma foldl_addKey_lookup (doc : list JWK) (kid : string) (key : PublicKey) :
  foldl addKey ∅ doc !! kid = Some key <->
  exists l1 jwk l2,
    doc = (l1 ++ jwk :: l2)%list /\ Kid jwk = kid /\ usable jwk key /\
    forall j, j ∈ l2 -> Kid j = kid -> skipped j.
Proof.
  induction doc as [|j doc IH] using rev_ind.
  - cbn. rewrite lookup_empty. split; [discriminate|].
    intros (l1 & jwk & l2 & H & _). by destruct l1.
  - rewrite foldl_app. cbn [foldl].
    destruct (addKey_cases (foldl addKey ∅ doc) j) as [[Hs ->] | (kj & Hu & ->)].
    + rewrite IH. split.
      * intros (l1 & jwk & l2 & -> & Hkid & Hus & Hlater).
        exists l1, jwk, (l2 ++ [j])%list. rewrite <- app_assoc. split_and!; try done.
        intros j' Hin Hk. apply elem_of_app in Hin as [Hin | Hin]; [by apply Hlater|].
        apply list_elem_of_singleton in Hin. by subst j'.
      * intros (l1 & jwk & l2 & Hdoc & Hkid & Hus & Hlater).
        destruct l2 as [|x l2 _] using rev_ind.
        -- apply app_inj_tail in Hdoc as [_ ->]. by destruct (usable_not_skipped _ _ Hus).
        -- rewrite app_comm_cons, app_assoc in Hdoc.
           apply app_inj_tail in Hdoc as [-> ->].
           exists l1, jwk, l2. split_and!; try done.
           intros j' Hin. apply Hlater. apply elem_of_app. by left.
    + destruct (decide (Kid j = kid)) as [Heq|Hne].
      * rewrite Heq, lookup_insert_eq. split.
        -- intros H. injection H as <-. exists doc, j, []. split_and!; try done.
           intros j' Hin. by apply elem_of_nil in Hin.
        -- intros (l1 & jwk & l2 & Hdoc & Hkid & Hus & Hlater).
           destruct l2 as [|x l2 _] using rev_ind.
           ++ apply app_inj_tail in Hdoc as [_ ->].
              destruct Hu as [_ Hp], Hus as [_ Hp']. congruence.
           ++ rewrite app_comm_cons, app_assoc in Hdoc.
              apply app_inj_tail in Hdoc as [_ ->].
              exfalso. apply (usable_not_skipped _ _ Hu). apply Hlater; [|exact Heq].
              apply elem_of_app. right. by apply list_elem_of_singleton.
      * rewrite lookup_insert_ne by done. rewrite IH. split.
        -- intros (l1 & jwk & l2 & -> & Hkid & Hus & Hlater).
           exists l1, jwk, (l2 ++ [j])%list. rewrite <- app_assoc. split_and!; try done.
           intros j' Hin Hk. apply elem_of_app in Hin as [Hin | Hin]; [by apply Hlater|].
           apply list_elem_of_singleton in Hin. subst j'. by destruct Hne.
        -- intros (l1 & jwk & l2 & Hdoc & Hkid & Hus & Hlater).
           destruct l2 as [|x l2 _] using rev_ind.
           ++ apply app_inj_tail in Hdoc as [_ ->]. by destruct Hne.
           ++ rewrite app_comm_cons, app_assoc in Hdoc.
              apply app_inj_tail in Hdoc as [-> ->].
              exists l1, jwk, l2. split_and!; try done.
              intros j' Hin. apply Hlater. apply elem_of_app. by left.
Qed.

(** X10: a fetch that succeeds replaces the whole key set and stamps the
    cache with the instant of the fetch: afterwards the cache holds a key
    under an identifier exactly when the document has an RSA entry with
    this identifier whose modulus and exponent decode, and the key is that
    of the last such entry; what the cache held before is gone. *)
Theorem fetchJWKS_replaces_key_set (env : Env) (c : JWKSCache) (doc : list JWK) :
  jwksResponse env = Response 200 (Content (Some doc)) ->
  let c' := snd (fetchJWKS env c) in
  fst (fetchJWKS env c) = None /\
  fetchedAt c' = now env /\ url c' = url c /\ ttl c' = ttl c /\
  forall kid key,
    keys c' !! kid = Some key <->
    exists l1 jwk l2,
      doc = (l1 ++ jwk :: l2)%list /\ Kid jwk = kid /\ usable jwk key /\
      forall j, j ∈ l2 -> Kid j = kid -> skipped j.
Proof.
  intros Hresp c'. subst c'. unfold fetchJWKS. rewrite Hresp.
  cbn [Z.eqb Pos.eqb negb fst snd fetchedAt url ttl keys].
  repeat split; try reflexivity; apply foldl_addKey_lookup.
Qed.

(** X28: when the cache cannot answer and the key set that the endpoint
    serves has no usable entry for the key identifier, [GetKey] ends with
    the error that the key was not found, and the cache holds no key under
    this identifier afterwards, also if it held one before. *)
Theorem GetKey_unknown_after_refresh (env : Env) (kid : string) (w : World)
    (doc : list JWK) :
  ~ fresh env (cache w) kid ->
  jwksResponse env = Response 200 (Content (Some doc)) ->
  (forall j, j ∈ doc -> Kid j = kid -> skipped j) ->
  fst (GetKey env kid w) = Err (ErrKeyNotFound kid) /\
  keys (cache (snd (GetKey env kid w))) !! kid = None.
Proof.
  intros Hstale Hresp Hnone.
  destruct (cached_fresh env (cache w) kid) as [_ Hmiss].
  unfold GetKey. cbn [emit cache trace]. rewrite (Hmiss Hstale).
  unfold fetchJWKS. rewrite Hresp. cbn [Z.eqb Pos.eqb negb].
  cbn [fst snd cache keys].
  destruct (foldl addKey ∅ doc !! kid) as [key|] eqn:E; [|split; [reflexivity | exact E]].
  exfalso. apply foldl_addKey_lookup in E as (l1 & jwk & l2 & -> & Hkid & Hus & _).
  apply (usable_not_skipped _ _ Hus). apply Hnone; [|exact Hkid].
  apply elem_of_app. right. by left.
Qed.

Lemma GetKey_Ok_fresh (env : Env) (kid : string) (w : World) (key : PublicKey) :
  fst (GetKey env kid w) = Ok key -> 0 < ttl (cache w) ->
  time_Sub (now env) (fetchedAt (cache (snd (GetKey env kid w))))
  < ttl (cache (snd (GetKey env kid w))).
Proof.
  intros Hok Httl. revert Hok. unfold GetKey, cached. cbn [emit cache trace].
  assert (Hfetch : forall c, snd (fetchJWKS env (cache w)) = c ->
            fst (fetchJWKS env (cache w)) = None ->
            time_Sub (now env) (fetchedAt c) < ttl c).
  { intros c <-. unfold fetchJWKS.
    destruct (jwksResponse env) as [| |code body]; try discriminate.
    destruct (negb (code =? 200)); [discriminate|].
    destruct body as [|[doc|]]; try discriminate.
    intros _. cbn. by rewrite time_Sub_diag. }
  destruct (keys (cache w) !! kid) as [k|].
  - destruct (Z.ltb_spec (time_Sub (now env) (fetchedAt (cache w))) (ttl (cache w)))
      as [Hlt|Hge]; [intros _; exact Hlt|].
    specialize (Hfetch (snd (fetchJWKS env (cache w))) eq_refl).
    destruct (fetchJWKS env (cache w)) as [[err|] c]; cbn; [discriminate|].
    destruct (keys c !! kid); cbn; [|discriminate]. intros _. by apply Hfetch.
  - specialize (Hfetch (snd (fetchJWKS env (cache w))) eq_refl).
    destruct (fetchJWKS env (cache w)) as [[err|] c]; cbn; [discriminate|].
    destruct (keys c !! kid); cbn; [|discriminate]. intros _. by apply Hfetch.
Qed.

End CacheHits.

Section CacheHitExamples.
Import json jwt types oidc props fixtures.

Lemma GetKey_serves_from_cache_afterwards_witness :
  fst (GetKey env1 "k1" world1) = Ok key1 /\
  time_Sub (now env1) (fetchedAt (cache (snd (GetKey env1 "k1" world1))))
  < ttl (cache (snd (GetKey env1 "k1" world1))) /\
  GetKey env1 "k1" (snd (GetKey env1 "k1" world1))
  = (Ok key1, emit (EvGetKey "k1") (snd (GetKey env1 "k1" world1))).
Proof.
  assert (H1 : fst (GetKey env1 "k1" world1) = Ok key1) by reflexivity.
  assert (H2 : time_Sub (now env1) (fetchedAt (cache (snd (GetKey env1 "k1" world1))))
               < ttl (cache (snd (GetKey env1 "k1" world1)))) by reflexivity.
  split; [exact H1|]. split; [exact H2|].
  exact (GetKey_serves_from_cache_afterwards env1 env1 "k1" world1 key1 H1 H2).
Defined.

(** A key set document with two entries under one identifier, and the
    endpoint that serves it. *)
Lemma fetchJWKS_replaces_key_set_witness :
  let doc := [ {| Kid := "a"; Kty := "RSA"; Use := "sig"; jwk_N := "AQAB"; jwk_E := "AQAB" |};
               {| Kid := "a"; Kty := "RSA"; Use := "sig"; jwk_N := "AQAC"; jwk_E := "AQAB" |} ] in
  let env := {| now := now1; jwksResponse := Response 200 (Content (Some doc)) |} in
  jwksResponse env = Response 200 (Content (Some doc)) /\
  fetchedAt (snd (fetchJWKS env cache1)) = now1 /\
  keys (snd (fetchJWKS env cache1)) !! "k1" = None /\
  keys (snd (fetchJWKS env cache1)) !! "a" = Some {| N := 65538; E := 65537 |}.
Proof.
  intros doc env.
  assert (H : jwksResponse env = Response 200 (Content (Some doc))) by reflexivity.
  split; [exact H|].
  destruct (fetchJWKS_replaces_key_set env cache1 doc H) as (_ & Hat & _ & _ & _).
  split; [exact Hat|]. split; vm_compute; reflexivity.
Defined.

Lemma GetKey_unknown_after_refresh_witness :
  (~ fresh rotatedEnv (cache world1) "k1") /\
  jwksResponse rotatedEnv = Response 200 (Content (Some rotatedDoc)) /\
  keys (cache world1) !! "k1" = Some key1 /\
  fst (GetKey rotatedEnv "k1" world1) = Err (ErrKeyNotFound "k1") /\
  keys (cache (snd (GetKey rotatedEnv "k1" world1))) !! "k1" = None.
Proof.
  assert (H1 : ~ fresh rotatedEnv (cache world1) "k1").
  { intros [_ H]. vm_compute in H. discriminate H. }
  assert (H2 : jwksResponse rotatedEnv = Response 200 (Content (Some rotatedDoc)))
    by reflexivity.
  assert (H3 : forall j, j ∈ rotatedDoc -> Kid j = "k1" -> skipped j).
  { intros j Hin Hk. apply list_elem_of_singleton in Hin. subst j. discriminate Hk. }
  split; [exact H1|]. split; [exact H2|]. split; [reflexivity|].
  exact (GetKey_unknown_after_refresh rotatedEnv "k1" world1 rotatedDoc H1 H2 H3).
Defined.

End CacheHitExamples.

(** * What Verify accepts and what it does to the cache *)

Section VerifySound.
Import json jwt types oidc props.
Variable rsaVerify : SigningMethod -> TokenString -> PublicKey -> bool.

Lemma GetSigningMethod_RSA_family (alg : string) :
  alg ∈ RSAFamily -> GetSigningMethod alg = Some (SigningMethodRSA alg).
Proof.
  unfold RSAFamily. rewrite !elem_of_cons.
  intros [-> | [-> | [-> | Hin]]]; try reflexivity. by apply elem_of_nil in Hin.
Qed.

Lemma GetSigningMethod_RSA_alg (alg a : string) :
  GetSigningMethod alg = Some (SigningMethodRSA a) -> a = alg.
Proof.
  intros H. pose proof (GetSigningMethod_RSA _ _ H) as Hin.
  rewrite (GetSigningMethod_RSA_family _ Hin) in H. by injection H.
Qed.

Lemma GetSigningMethod_not_RSA (alg : string) (method : SigningMethod) :
  alg ∉ RSAFamily -> GetSigningMethod alg = Some method ->
  forall a, method <> SigningMethodRSA a.
Proof.
  intros Hout Hm a ->. apply Hout. by eapply GetSigningMethod_RSA.
Qed.

(** X11: all that [Verify] does to the key cache and to the outside is
    the one call of [GetKey] for the key identifier of the token, whether
    the token is accepted or not; a token that is malformed, whose
    signature segment does not decode, that names no algorithm of the RSA
    family or has no key identifier that is a string leaves everything as
    it was: the library decodes the signature segment before it asks for
    the key. *)
Theorem Verify_only_looks_up_key (v : GitHubVerifier) (env : Env)
    (tokenString : TokenString) (w : World) :
  snd (Verify rsaVerify v env tokenString w)
  = match keyIdOf tokenString with
    | Some kid => snd (GetKey env kid w)
    | None => w
    end.
Proof.
  unfold Verify, Parse, ParseUnverified, DecodeSignature, keyIdOf.
  destruct tokenString as [raw | header claims signature | header claims segment];
    [reflexivity | |].
  2: { destruct (header !! "alg") as [[| | |alg| |]|]; try reflexivity.
       destruct (GetSigningMethod alg); reflexivity. }
  destruct (header !! "alg") as [[| | |alg| |]|] eqn:Halg; try reflexivity.
  destruct (decide (alg ∈ RSAFamily)) as [Hin|Hout].
  - rewrite (GetSigningMethod_RSA_family _ Hin). unfold keyFunc. cbn [Method Header].
    destruct (header !! "kid") as [[| | |kid| |]|] eqn:Hkid;
      rewrite ?bool_decide_eq_true_2 by done; try reflexivity.
    destruct (GetKey env kid w) as [[key|e] w1]; cbn [snd]; [|reflexivity].
    destruct (negb (rsaVerify _ _ key)); [reflexivity|].
    destruct (jwt.Validate _ _ _); cbn [Valid negb snd]; reflexivity.
  - assert (Hnone : match header !! "kid" with
                    | Some (VString kid) =>
                        if bool_decide (alg ∈ RSAFamily) then Some kid else None
                    | _ => None
                    end = None).
    { destruct (header !! "kid") as [[| | |kid| |]|]; try reflexivity.
      by rewrite bool_decide_eq_false_2. }
    rewrite Hnone.
    destruct (GetSigningMethod alg) as [method|] eqn:Hm; [|reflexivity].
    pose proof (GetSigningMethod_not_RSA _ _ Hout Hm) as Hnot.
    unfold keyFunc. cbn [Method Header].
    destruct method as [a|a|a|a| |]; try reflexivity. by destruct (Hnot a).
Qed.

Lemma keyIdOf_Some (tokenString : TokenString) (kid : string) :
  keyIdOf tokenString = Some kid ->
  exists header claims signature alg,
    tokenString = Compact header claims signature /\
    header !! "alg" = Some (VString alg) /\ alg ∈ RSAFamily /\
    header !! "kid" = Some (VString kid).
Proof.
  unfold keyIdOf.
  destruct tokenString as [raw | header claims signature | header claims segment];
    [discriminate | | discriminate].
  destruct (header !! "alg") as [[| | |alg| |]|] eqn:Ha; try discriminate.
  destruct (header !! "kid") as [[| | |k| |]|] eqn:Hk; try discriminate.
  destruct (decide (alg ∈ RSAFamily)) as [Hin|Hout].
  - rewrite bool_decide_eq_true_2 by done. intros H. injection H as <-.
    by exists header, claims, signature, alg.
  - by rewrite bool_decide_eq_false_2.
Qed.

(** A token with a key identifier takes the world where [GetKey] leaves
    it. *)
Lemma Verify_world_after_GetKey (v : GitHubVerifier) (env : Env)
    (tokenString : TokenString) (kid : string) (w : World) :
  keyIdOf tokenString = Some kid ->
  snd (Verify rsaVerify v env tokenString w) = snd (GetKey env kid w).
Proof.
  intros Hkid.
  destruct (keyIdOf_Some _ _ Hkid) as (header & claims & signature & alg & -> & Ha & Hin & Hk).
  unfold Verify, Parse, ParseUnverified, DecodeSignature.
  rewrite Ha, (GetSigningMethod_RSA_family _ Hin).
  unfold keyFunc. cbn [Method Header]. rewrite Hk.
  destruct (GetKey env kid w) as [[key|e] w1]; cbn [snd]; [|reflexivity].
  destruct (negb (rsaVerify _ _ key)); [reflexivity|].
  destruct (jwt.Validate _ _ _); cbn [Valid negb snd]; reflexivity.
Qed.

(** X12: the first token that a new verifier sees with an algorithm of
    the RSA family, a key identifier and a signature segment that decodes
    makes it fetch the key set once, from the issuer's URL followed by
    /.well-known/jwks. *)
Theorem first_Verify_fetches_key_set (issuer audience : string) (skew jwksTTL : Z)
    (env : Env) (tokenString : TokenString) (kid : string) :
  keyIdOf tokenString = Some kid ->
  let vc := NewGitHubVerifier issuer audience skew jwksTTL in
  trace (snd (Verify rsaVerify (fst vc) env tokenString
                {| cache := snd vc; trace := [] |}))
  = [EvGetKey kid; EvFetch (issuer +:+ "/.well-known/jwks")].
Proof.
  intros Hkid vc. rewrite (Verify_world_after_GetKey _ _ _ kid) by exact Hkid.
  unfold GetKey, cached. cbn [emit cache trace vc NewGitHubVerifier snd NewJWKSCache keys].
  rewrite lookup_empty. cbn [app url].
  destruct (fetchJWKS env _) as [[err|] c]; cbn [snd trace]; [reflexivity|].
  destruct (keys c !! kid); reflexivity.
Qed.

(** X13: [Verify] accepts a token only if its three segments decode, its
    header names an algorithm of the RSA family and a key identifier, the
    cache holds a key under this identifier when the call returns, the
    signature verifies under this key, the claims pass the checks, and -
    for a clock and a skew within the 64 bits of a count of nanoseconds -
    the instant is inside the validity window, widened by the clock skew,
    of the dates that [time.Unix] makes of the claims. *)
Theorem Verify_accepts_only_signed_tokens (v : GitHubVerifier) (env : Env)
    (tokenString : TokenString) (w : World) (vc : VerifiedClaims) :
  fst (Verify rsaVerify v env tokenString w) = Ok vc ->
  exists header claims signature alg kid key,
    tokenString = Compact header claims signature /\
    header !! "alg" = Some (VString alg) /\ alg ∈ RSAFamily /\
    header !! "kid" = Some (VString kid) /\
    keys (cache (snd (Verify rsaVerify v env tokenString w))) !! kid = Some key /\
    rsaVerify (SigningMethodRSA alg) tokenString key = true /\
    (minDuration <= now env <= maxDuration ->
     - maxDuration <= clockSkew v <= maxDuration ->
     withinValidity (clockSkew v) claims (now env)) /\
    checkClaims v claims = Ok vc.
Proof.
  unfold Verify, Parse, ParseUnverified, DecodeSignature.
  destruct tokenString as [raw | header claims signature | header claims segment];
    [discriminate | |].
  2: { destruct (header !! "alg") as [[| | |alg| |]|]; try discriminate.
       destruct (GetSigningMethod alg); discriminate. }
  destruct (header !! "alg") as [[| | |alg| |]|] eqn:Halg; try discriminate.
  destruct (GetSigningMethod alg) as [method|] eqn:Hm; [|discriminate].
  unfold keyFunc. cbn [Method Header Claims].
  destruct method as [a|a|a|a| |]; try discriminate.
  pose proof (GetSigningMethod_RSA _ _ Hm) as Hin.
  apply GetSigningMethod_RSA_alg in Hm as ->.
  destruct (header !! "kid") as [[| | |kid| |]|] eqn:Hkid; try discriminate.
  pose proof (GetKey_Ok_keys env kid w) as Hkeys.
  destruct (GetKey env kid w) as [[key|e] w1]; [|discriminate]. cbn [fst snd] in Hkeys.
  destruct (rsaVerify (SigningMethodRSA alg) _ key) eqn:Hsig; [|discriminate].
  cbn [negb].
  destruct (jwt.Validate (clockSkew v) claims (now env)) as [|e errs] eqn:Hval;
    [|discriminate].
  cbn [Valid negb fst snd Claims]. intros Hok.
  exists header, claims, signature, alg, kid, key.
  split_and!; try done; [by apply Hkeys |].
  intros Hnow Hskew. by apply Validate_nil_iff.
Qed.

Lemma checkClaims_workflow (v : GitHubVerifier) (claims : gmap string Value)
    (vc : VerifiedClaims) :
  checkClaims v claims = Ok vc ->
  (asString claims "workflow_ref" = Some (Workflow vc) \/
   asString claims "workflow_ref" = None /\
   asString claims "job_workflow_ref" = Some (Workflow vc)) /\
  Workflow vc <> "".
Proof.
  unfold checkClaims. intros H.
  destruct (asString claims "iss") as [iss|]; [|discriminate].
  destruct (negb (iss =? issuer v)%string); [discriminate|].
  destruct (extractAudience claims) as [aud|]; [|discriminate].
  destruct (negb (containsAudience aud (audience v))); [discriminate|].
  destruct (asString claims "repository") as [[|c r]|]; try discriminate.
  destruct (asString claims "ref") as [[|c' r']|]; try discriminate.
  destruct (asString claims "actor") as [[|c'' r'']|]; try discriminate.
  destruct (extractRunID claims =? "")%string; [discriminate|].
  destruct (asString claims "workflow_ref") as [wf|].
  - destruct (String.eqb_spec wf "") as [Hw|Hw]; [discriminate|].
    injection H as <-. cbn. split; [by left | done].
  - destruct (asString claims "job_workflow_ref") as [jwf|]; [|discriminate].
    destruct (String.eqb_spec jwf "") as [Hw|Hw]; [discriminate|].
    injection H as <-. cbn. split; [by right | done].
Qed.

(** X14: the claims that [Verify] returns are those of the token: the
    issuer is the configured one, the configured audience is among the
    audiences, repository, ref and actor are the strings of the token and
    are not empty, the run identifier is not empty, and the workflow is
    the [workflow_ref] of the token when that is a string and its
    [job_workflow_ref] otherwise, and is not empty. *)
Theorem checkClaims_returns_token_claims (v : GitHubVerifier)
    (claims : gmap string Value) (vc : VerifiedClaims) :
  checkClaims v claims = Ok vc ->
  asString claims "iss" = Some (issuer v) /\
  (exists aud, extractAudience claims = Some aud /\ audience v ∈ aud) /\
  asString claims "repository" = Some (Repository vc) /\ Repository vc <> "" /\
  asString claims "ref" = Some (Ref vc) /\ Ref vc <> "" /\
  asString claims "actor" = Some (Actor vc) /\ Actor vc <> "" /\
  RunID vc = extractRunID claims /\ RunID vc <> "" /\
  (asString claims "workflow_ref" = Some (Workflow vc) \/
   asString claims "workflow_ref" = None /\
   asString claims "job_workflow_ref" = Some (Workflow vc)) /\
  Workflow vc <> "".
Proof.
  unfold checkClaims. intros H.
  destruct (asString claims "iss") as [iss|]; [|discriminate].
  destruct (String.eqb_spec iss (issuer v)) as [Heq|Hne]; [|discriminate]. cbn [negb] in H.
  rewrite Heq.
  destruct (extractAudience claims) as [aud|]; [|discriminate].
  destruct (containsAudience aud (audience v)) eqn:Ha; [|discriminate]. cbn [negb] in H.
  apply containsAudience_elem in Ha.
  destruct (asString claims "repository") as [[|c r]|]; try discriminate.
  destruct (asString claims "ref") as [[|c' r']|]; try discriminate.
  destruct (asString claims "actor") as [[|c'' r'']|]; try discriminate.
  destruct (String.eqb_spec (extractRunID claims) "") as [Hr|Hr]; [discriminate|].
  destruct (asString claims "workflow_ref") as [wf|].
  - destruct (String.eqb_spec wf "") as [Hw|Hw]; [discriminate|].
    injection H as <-. cbn. split_and!; try done; eauto.
  - destruct (asString claims "job_workflow_ref") as [jwf|]; [|discriminate].
    destruct (String.eqb_spec jwf "") as [Hw|Hw]; [discriminate|].
    injection H as <-. cbn. split_and!; try done; eauto.
Qed.

(** X15: a [workflow_ref] that is the empty string is not replaced by the
    [job_workflow_ref]: the token is turned down, for its workflow when
    nothing else is wrong with it, whatever [job_workflow_ref] holds. *)
Theorem empty_workflow_ref_is_rejected (v : GitHubVerifier) (claims : gmap string Value) :
  asString claims "workflow_ref" = Some "" ->
  isOk (checkClaims v claims) = false /\
  (upToActor v claims -> extractRunID claims <> "" ->
   checkClaims v claims = Err ErrWorkflow).
Proof.
  intros Hwf. split.
  - destruct (checkClaims v claims) as [vc|e] eqn:E; [|reflexivity].
    destruct (checkClaims_workflow v claims vc E) as [Hw Hne].
    exfalso. destruct Hw as [Hw | [Hw _]]; congruence.
  - intros (Hi & (aud & Ha & Hc) & (r & Hr & Hrn) & (f & Hf & Hfn) & (a & Hac & Han)) Hrun.
    unfold checkClaims. rewrite Hi, String.eqb_refl, Ha, Hc, Hr, Hf, Hac, Hwf.
    cbn [negb].
    destruct r; [congruence|]. destruct f; [congruence|]. destruct a; [congruence|].
    destruct (String.eqb_spec (extractRunID claims) ""); [congruence | reflexivity].
Qed.

(** X29: [Verify] keeps no record of the tokens it has seen: a token
    that was accepted is accepted again when it is presented once more at
    the same instant, with the same claims, and - the TTL of the cache
    being positive - its key comes from the cache without a fetch. *)
Theorem Verify_accepts_replay (v : GitHubVerifier) (env : Env)
    (tokenString : TokenString) (w : World) (vc : VerifiedClaims) :
  fst (Verify rsaVerify v env tokenString w) = Ok vc ->
  0 < ttl (cache w) ->
  let w1 := snd (Verify rsaVerify v env tokenString w) in
  exists kid,
    keyIdOf tokenString = Some kid /\
    Verify rsaVerify v env tokenString w1 = (Ok vc, emit (EvGetKey kid) w1).
Proof.
  intros Hok Httl w1. subst w1. revert Hok.
  unfold Verify, Parse, ParseUnverified, DecodeSignature, keyIdOf.
  destruct tokenString as [raw | header claims signature | header claims segment];
    [discriminate | |].
  2: { destruct (header !! "alg") as [[| | |alg| |]|]; try discriminate.
       destruct (GetSigningMethod alg); discriminate. }
  destruct (header !! "alg") as [[| | |alg| |]|] eqn:Halg; try discriminate.
  destruct (GetSigningMethod alg) as [method|] eqn:Hm; [|discriminate].
  unfold keyFunc. cbn [Method Header Claims].
  destruct method as [a|a|a|a| |]; try discriminate.
  pose proof (GetSigningMethod_RSA _ _ Hm) as Hin.
  destruct (header !! "kid") as [[| | |kid| |]|] eqn:Hkid; try discriminate.
  rewrite bool_decide_eq_true_2 by done.
  pose proof (GetKey_Ok_keys env kid w) as Hkeys.
  pose proof (GetKey_Ok_fresh env kid w) as Hfresh.
  destruct (GetKey env kid w) as [[key|e] w1] eqn:Hget; [|discriminate].
  cbn [fst snd] in Hkeys, Hfresh.
  specialize (Hkeys key eq_refl). specialize (Hfresh key eq_refl Httl).
  destruct (rsaVerify (SigningMethodRSA a) _ key) eqn:Hsig; [|discriminate].
  cbn [negb].
  destruct (jwt.Validate (clockSkew v) claims (now env)) as [|e errs] eqn:Hval;
    [|discriminate].
  cbn [Valid negb fst snd Claims]. intros Hok.
  exists kid. split; [reflexivity|].
  assert (Hhit : GetKey env kid w1 = (Ok key, emit (EvGetKey kid) w1)).
  { unfold GetKey, cached. cbn [emit cache trace]. rewrite Hkeys.
    replace (_ <? _) with true by (symmetry; by apply Z.ltb_lt). reflexivity. }
  rewrite Hhit. rewrite ?Hsig. cbn [negb Valid Claims]. by rewrite Hok.
Qed.

(** X16: the time that [extractTimestamp] reads from a claim is a whole
    number of seconds, and for a claim that is a whole number (below 2^53
    in absolute value) it is that second. *)
Theorem extractTimestamp_whole_seconds (claims : gmap string Value) (key : string) :
  Unix_of (extractTimestamp claims key) * Second = extractTimestamp claims key /\
  (forall n, Z.abs n < 2 ^ 53 ->
     claims !! key = Some (VFloat64 (float64.of_Z n)) ->
     Unix_of (extractTimestamp claims key) = n).
Proof.
  unfold extractTimestamp, Unix_of, time_Unix. split.
  - destruct (claims !! key) as [[| |f| | |]|]; try reflexivity.
    destruct (time_Unix_ns_whole (float64.to_int64 f)) as [e ->].
    rewrite Z.div_mul; [reflexivity | discriminate].
  - intros n Hn ->. rewrite to_int64_of_Z, time_Unix_small by exact Hn.
    apply Z.div_mul. discriminate.
Qed.

End VerifySound.

Section VerifySoundExamples.
Import json jwt types oidc props fixtures.

Lemma first_Verify_fetches_key_set_witness :
  keyIdOf (Compact headerRS256 baseClaims "sig") = Some "k1" /\
  trace (snd (Verify acceptAll
                (fst (NewGitHubVerifier "https://token.actions.githubusercontent.com"
                        "robohub" (60 * Second) (3600 * Second)))
                env1 (Compact headerRS256 baseClaims "sig")
                {| cache := snd (NewGitHubVerifier "https://token.actions.githubusercontent.com"
                                   "robohub" (60 * Second) (3600 * Second));
                   trace := [] |}))
  = [EvGetKey "k1";
     EvFetch ("https://token.actions.githubusercontent.com" +:+ "/.well-known/jwks")].
Proof.
  assert (H : keyIdOf (Compact headerRS256 baseClaims "sig") = Some "k1") by reflexivity.
  split; [exact H|].
  exact (first_Verify_fetches_key_set acceptAll
           "https://token.actions.githubusercontent.com" "robohub"
           (60 * Second) (3600 * Second) env1 _ "k1" H).
Defined.

(** A token with RS256, a key identifier and a signature segment that
    does not decode is turned down as malformed before any key is looked
    up: the cache and the trace stay as they were. *)
Example Verify_undecodable_signature :
  keyIdOf (BadSignature headerRS256 baseClaims "sig=") = None /\
  Verify acceptAll verifier1 env1 (BadSignature headerRS256 baseClaims "sig=") world1
  = (Err (ErrVerifyToken ErrTokenMalformed), world1).
Proof. split; vm_compute; reflexivity. Qed.

Lemma Verify_base_claims_Ok :
  fst (Verify acceptAll verifier1 env1 (Compact headerRS256 baseClaims "sig") world1)
  = Ok baseVerified.
Proof. vm_compute. reflexivity. Defined.

Lemma Verify_accepts_only_signed_tokens_witness :
  fst (Verify acceptAll verifier1 env1 (Compact headerRS256 baseClaims "sig") world1)
  = Ok baseVerified /\
  exists header claims signature alg kid key,
    Compact headerRS256 baseClaims "sig" = Compact header claims signature /\
    header !! "alg" = Some (VString alg) /\ alg ∈ RSAFamily /\
    header !! "kid" = Some (VString kid) /\
    keys (cache (snd (Verify acceptAll verifier1 env1
                        (Compact headerRS256 baseClaims "sig") world1))) !! kid
    = Some key /\
    acceptAll (SigningMethodRSA alg) (Compact headerRS256 baseClaims "sig") key = true /\
    (minDuration <= now env1 <= maxDuration ->
     - maxDuration <= clockSkew verifier1 <= maxDuration ->
     withinValidity (clockSkew verifier1) claims (now env1)) /\
    checkClaims verifier1 claims = Ok baseVerified.
Proof.
  split; [exact Verify_base_claims_Ok|].
  exact (Verify_accepts_only_signed_tokens acceptAll verifier1 env1 _ world1 baseVerified
           Verify_base_claims_Ok).
Defined.

Lemma Verify_accepts_replay_witness :
  fst (Verify acceptAll verifier1 env1 (Compact headerRS256 baseClaims "sig") world1)
  = Ok baseVerified /\
  0 < ttl (cache world1) /\
  exists kid,
    keyIdOf (Compact headerRS256 baseClaims "sig") = Some kid /\
    Verify acceptAll verifier1 env1 (Compact headerRS256 baseClaims "sig")
      (snd (Verify acceptAll verifier1 env1 (Compact headerRS256 baseClaims "sig") world1))
    = (Ok baseVerified,
       emit (EvGetKey kid)
         (snd (Verify acceptAll verifier1 env1 (Compact headerRS256 baseClaims "sig")
                 world1))).
Proof.
  assert (H : 0 < ttl (cache world1)) by reflexivity.
  split; [exact Verify_base_claims_Ok|]. split; [exact H|].
  exact (Verify_accepts_replay acceptAll verifier1 env1 _ world1 baseVerified
           Verify_base_claims_Ok H).
Defined.

Lemma checkClaims_base_Ok : checkClaims verifier1 baseClaims = Ok baseVerified.
Proof. vm_compute. reflexivity. Defined.

Lemma checkClaims_returns_token_claims_witness :
  checkClaims verifier1 baseClaims = Ok baseVerified /\
  asString baseClaims "repository" = Some (Repository baseVerified) /\
  Workflow baseVerified <> "".
Proof.
  split; [exact checkClaims_base_Ok|].
  destruct (checkClaims_returns_token_claims verifier1 baseClaims baseVerified
              checkClaims_base_Ok) as (_ & _ & Hrepo & _ & _ & _ & _ & _ & _ & _ & _ & Hwf).
  split; [exact Hrepo | exact Hwf].
Defined.

Lemma empty_workflow_ref_is_rejected_witness :
  asString emptyWorkflowClaims "workflow_ref" = Some "" /\
  asString emptyWorkflowClaims "job_workflow_ref"
  = Some "owner/repo/.github/workflows/ci.yml@refs/heads/main" /\
  isOk (checkClaims verifier1 emptyWorkflowClaims) = false.
Proof.
  assert (H : asString emptyWorkflowClaims "workflow_ref" = Some "") by reflexivity.
  split; [exact H|]. split; [reflexivity|].
  exact (proj1 (empty_workflow_ref_is_rejected verifier1 emptyWorkflowClaims H)).
Defined.

(** The timestamp test of the repository, and a fraction that is cut. *)
Example extractTimestamp_tests :
  Unix_of (extractTimestamp {["iat" := VFloat64 (float64.of_Z 1234567890)]} "iat")
  = 1234567890 /\
  extractTimestamp (∅ : gmap string Value) "iat" = zeroTime /\
  Unix_of (extractTimestamp {["iat" := VFloat64 f42_9]} "iat") = 42.
Proof. repeat split; vm_compute; reflexivity. Qed.

End VerifySoundExamples.

(** * What Validate accepts *)

Section ValidateProps.
Import json jwt types token props.
Variable hmac : string -> string -> gmap string Value -> gmap string Value
  -> Result SignError string.

Lemma GetSigningMethod_HMAC (alg a : string) :
  GetSigningMethod alg = Some (SigningMethodHMAC a) -> a = alg /\ alg ∈ HMACFamily.
Proof.
  unfold GetSigningMethod, HMACFamily.
  repeat match goal with
  | |- context [String.eqb alg ?s] =>
      destruct (String.eqb_spec alg s) as [->|?]; cbn [orb]
  end; intros H; try discriminate H; injection H as <-;
    (split; [reflexivity|]); rewrite !elem_of_cons; auto.
Qed.

Lemma GetSigningMethod_HMAC_family (alg : string) :
  alg ∈ HMACFamily -> GetSigningMethod alg = Some (SigningMethodHMAC alg).
Proof.
  unfold HMACFamily. rewrite !elem_of_cons.
  intros [-> | [-> | [-> | Hin]]]; try reflexivity. by apply elem_of_nil in Hin.
Qed.

Lemma hmacVerify_true (alg key sig : string) (header claims : gmap string Value) :
  hmacVerify hmac (SigningMethodHMAC alg) (Compact header claims sig) key = true
  <-> hmac alg key header claims = Ok sig.
Proof.
  cbn [hmacVerify]. destruct (hmac alg key header claims) as [sig'|e].
  - rewrite String.eqb_eq. split; [by intros -> | intros H; by injection H].
  - split; discriminate.
Qed.

(** X17: [Validate] accepts a token whose three segments decode exactly
    when its header names an algorithm of the HMAC family (HS256, HS384 or
    HS512), its signature is the MAC of this algorithm under the secret of
    the minter, and the instant is inside the validity window, without
    leeway, of the dates that [time.Unix] makes of its claims (it wraps
    around in 64 bits of seconds counted from the year 1); a string that
    is no token and a token whose signature segment does not decode are
    never accepted. *)
Theorem Validate_accepts_exactly (m : Minter) (now : Z)
    (header claims : gmap string Value) (sig raw segment : string) :
  (isOk (Validate hmac m now (Compact header claims sig)) = true <->
   exists alg,
     header !! "alg" = Some (VString alg) /\ alg ∈ HMACFamily /\
     hmac alg (secret m) header claims = Ok sig /\
     withinValidity 0 claims now) /\
  Validate hmac m now (Malformed raw) = Err (ErrParseToken ErrTokenMalformed) /\
  isOk (Validate hmac m now (BadSignature header claims segment)) = false.
Proof.
  split; [|split; [reflexivity|]].
  2: { unfold Validate, Parse, ParseUnverified, DecodeSignature.
       destruct (header !! "alg") as [[| | |alg| |]|]; try reflexivity.
       destruct (GetSigningMethod alg); reflexivity. }
  unfold Validate, Parse, ParseUnverified, DecodeSignature. split.
  - destruct (header !! "alg") as [[| | |alg| |]|] eqn:Halg; try discriminate.
    destruct (GetSigningMethod alg) as [method|] eqn:Hm; [|discriminate].
    unfold keyFunc. cbn [Method Header Claims].
    destruct method as [a|a|a|a| |]; try discriminate.
    apply GetSigningMethod_HMAC in Hm as [-> Hin].
    destruct (hmacVerify hmac _ _ (secret m)) eqn:Hv; [|discriminate].
    apply hmacVerify_true in Hv. cbn [negb].
    destruct (jwt.Validate 0 claims now) as [|e errs] eqn:Hval; [|discriminate].
    intros _. exists alg. split_and!; try done. by apply Validate_nil_iff_0.
  - intros (alg & -> & Hin & Hmac & Hwin).
    rewrite (GetSigningMethod_HMAC_family _ Hin). unfold keyFunc. cbn [Method Header Claims].
    apply hmacVerify_true in Hmac. rewrite Hmac. cbn [negb].
    apply Validate_nil_iff_0 in Hwin. rewrite Hwin. reflexivity.
Qed.

Ltac lookup_claim :=
  unfold minted, tokenClaims; rewrite lookup_fmap;
  repeat (rewrite lookup_insert_ne by discriminate);
  first [rewrite lookup_insert_eq | rewrite lookup_empty]; reflexivity.

Lemma minted_iss c now exp jti :
  minted c now exp jti !! "iss" = Some (VString "robohub-auth").
Proof. lookup_claim. Qed.

Lemma minted_sub c now exp jti :
  minted c now exp jti !! "sub"
  = Some (VString (coerceUTF8 ("repo:" +:+ Repository c))).
Proof. lookup_claim. Qed.

Lemma minted_aud c now exp jti :
  minted c now exp jti !! "aud" = Some (VString "robohub-api").
Proof. lookup_claim. Qed.

Lemma minted_jti c now exp jti :
  minted c now exp jti !! "jti" = Some (VString (coerceUTF8 jti)).
Proof. lookup_claim. Qed.

Lemma minted_scopes c now exp jti :
  minted c now exp jti !! "scopes" = Some (VArray [VString "ingest:build"]).
Proof. lookup_claim. Qed.

(** What [Validate] returns for a minted token that passes the time
    checks. *)
Lemma Validate_of_minted (m : Minter) (now now' : Z) (jti sig : string)
    (c : VerifiedClaims) :
  hmac "HS256" (secret m) headerHS256 (minted c now (now + ttl m) jti) = Ok sig ->
  jwt.Validate 0 (minted c now (now + ttl m) jti) now' = [] ->
  Validate hmac m now' (Compact headerHS256 (minted c now (now + ttl m) jti) sig)
  = Ok {| rc_Issuer := "robohub-auth";
          rc_Subject := coerceUTF8 ("repo:" +:+ Repository c);
          rc_Audience := "robohub-api";
          rc_IssuedAt := float64.to_int64 (float64.of_Z (Unix_of now));
          rc_ExpiresAt := float64.to_int64 (float64.of_Z (Unix_of (now + ttl m)));
          rc_JTI := coerceUTF8 jti;
          rc_Repo := coerceUTF8 (Repository c);
          rc_Ref := coerceUTF8 (Ref c);
          rc_Actor := coerceUTF8 (Actor c);
          rc_RunID := coerceUTF8 (RunID c);
          rc_Scopes := ["ingest:build"] |}.
Proof.
  intros Hsig Hval. unfold Validate, Parse, ParseUnverified, DecodeSignature.
  replace (headerHS256 !! "alg") with (Some (VString "HS256")) by reflexivity.
  replace (GetSigningMethod "HS256") with (Some (SigningMethodHMAC "HS256")) by reflexivity.
  unfold keyFunc. cbn [Method Claims hmacVerify].
  rewrite Hsig, String.eqb_refl. cbn [negb]. rewrite Hval. cbn [Valid negb Claims].
  unfold asString, asInt64.
  rewrite minted_repo, minted_ref, minted_actor, minted_run_id, minted_iat, minted_exp,
    minted_iss, minted_sub, minted_aud, minted_jti, minted_scopes.
  reflexivity.
Qed.

Lemma coerceUTF8_repo_prefix (s : string) :
  coerceUTF8 ("repo:" +:+ s) = "repo:" +:+ coerceUTF8 s.
Proof. reflexivity. Qed.

(** X18: the claims that [Validate] reads from a minted token always
    carry the issuer robohub-auth, the audience robohub-api, the single
    scope ingest:build, and as subject the text repo: followed by the
    repository claim of the same token. *)
Theorem Mint_fixed_claims (m : Minter) (now now' : Z) (jti : string)
    (claims : VerifiedClaims) (tokenString : TokenString) (expiresAt : Z)
    (rc : RoboHubClaims) :
  Mint hmac m now jti claims = Ok (tokenString, expiresAt) ->
  Validate hmac m now' tokenString = Ok rc ->
  rc_Issuer rc = "robohub-auth" /\ rc_Audience rc = "robohub-api" /\
  rc_Scopes rc = ["ingest:build"] /\
  rc_Subject rc = "repo:" +:+ rc_Repo rc.
Proof.
  intros Hmint Hval.
  destruct (Mint_inv _ _ _ _ _ _ _ Hmint) as (-> & sig & Hsig & ->).
  destruct (jwt.Validate 0 (minted claims now (now + ttl m) jti) now') as [|e errs] eqn:E.
  - rewrite (Validate_of_minted m now now' jti sig claims Hsig E) in Hval.
    injection Hval as <-. cbn. split_and!; try reflexivity.
  - exfalso. revert Hval. unfold Validate, Parse, ParseUnverified, DecodeSignature.
    replace (headerHS256 !! "alg") with (Some (VString "HS256")) by reflexivity.
    replace (GetSigningMethod "HS256") with (Some (SigningMethodHMAC "HS256"))
      by reflexivity.
    unfold keyFunc. cbn [Method Claims hmacVerify].
    rewrite Hsig, String.eqb_refl. cbn [negb]. rewrite E. discriminate.
Qed.

(** X19: a minted token is turned down as expired at every instant from
    its second of expiry on - the second of [now + ttl] - provided this
    second is not second 0 of the epoch, which the validator reads as no
    expiry at all. *)
Theorem Validate_rejects_expired (m : Minter) (now now' : Z) (jti : string)
    (claims : VerifiedClaims) (tokenString : TokenString) (expiresAt : Z) :
  Mint hmac m now jti claims = Ok (tokenString, expiresAt) ->
  minDuration <= now <= maxDuration -> minDuration <= ttl m <= maxDuration ->
  Unix_of (now + ttl m) <> 0 ->
  Unix_of (now + ttl m) * Second <= now' ->
  Validate hmac m now' tokenString
  = Err (ErrParseToken (ErrTokenInvalidClaims [ErrTokenExpired])).
Proof.
  intros Hmint Hnow Httl Hnz Hlate.
  assert (Hexp : Z.abs (Unix_of (now + ttl m)) < 2 ^ 53)
    by (apply Unix_of_small; unfold minDuration, maxDuration in *; lia).
  destruct (Mint_inv _ _ _ _ _ _ _ Hmint) as (-> & sig & Hsig & ->).
  assert (E : jwt.Validate 0 (minted claims now (now + ttl m) jti) now' = [ErrTokenExpired]).
  { unfold jwt.Validate, verifyExpiresAt, verifyNotBefore, parseNumericDate.
    rewrite minted_exp, minted_nbf, is_zero_of_Z by exact Hexp.
    replace (Unix_of (now + ttl m) =? 0) with false by (symmetry; by apply Z.eqb_neq).
    rewrite numericDate_of_Z by exact Hexp.
    rewrite time_Add_zero by (unfold unixToInternal; lia).
    replace (now' <? Unix_of (now + ttl m) * Second) with false; [reflexivity|].
    symmetry. apply Z.ltb_ge. lia. }
  unfold Validate, Parse, ParseUnverified, DecodeSignature.
  replace (headerHS256 !! "alg") with (Some (VString "HS256")) by reflexivity.
  replace (GetSigningMethod "HS256") with (Some (SigningMethodHMAC "HS256")) by reflexivity.
  unfold keyFunc. cbn [Method Claims hmacVerify].
  rewrite Hsig, String.eqb_refl. cbn [negb]. rewrite E. reflexivity.
Qed.

End ValidateProps.

Section ValidateExamples.
Import json jwt types token props fixtures.

Lemma Mint_fixture :
  Mint mac minter600 now1 "jti-1" claims1
  = Ok (tokenOf minter600 now1 claims1, now1 + 600 * Second).
Proof. vm_compute. reflexivity. Defined.

Lemma Validate_fixture :
  exists rc, Validate mac minter600 (now1 + Second) (tokenOf minter600 now1 claims1) = Ok rc.
Proof. eexists. vm_compute. reflexivity. Defined.

Lemma Mint_fixed_claims_witness :
  Mint mac minter600 now1 "jti-1" claims1
  = Ok (tokenOf minter600 now1 claims1, now1 + 600 * Second) /\
  exists rc,
    Validate mac minter600 (now1 + Second) (tokenOf minter600 now1 claims1) = Ok rc /\
    rc_Issuer rc = "robohub-auth" /\ rc_Audience rc = "robohub-api" /\
    rc_Scopes rc = ["ingest:build"] /\
    rc_Subject rc = "repo:" +:+ rc_Repo rc.
Proof.
  split; [exact Mint_fixture|].
  destruct Validate_fixture as [rc Hrc]. exists rc. split; [exact Hrc|].
  exact (Mint_fixed_claims mac minter600 now1 (now1 + Second) "jti-1" claims1 _ _ rc
           Mint_fixture Hrc).
Defined.

Lemma Validate_rejects_expired_witness :
  Mint mac minter600 now1 "jti-1" claims1
  = Ok (tokenOf minter600 now1 claims1, now1 + 600 * Second) /\
  Validate mac minter600 (now1 + 600 * Second) (tokenOf minter600 now1 claims1)
  = Err (ErrParseToken (ErrTokenInvalidClaims [ErrTokenExpired])).
Proof.
  split; [exact Mint_fixture|].
  apply (Validate_rejects_expired mac minter600 now1 (now1 + 600 * Second) "jti-1"
           claims1 _ _ Mint_fixture);
    vm_compute; try split; intros H; discriminate H.
Defined.

(** A token of the algorithm none, and a token signed with HS512 under
    the secret of the minter: the first is turned down, the second
    passes. *)
Example Validate_algorithms :
  Validate mac minter600 now1 (Compact {["alg" := VString "none"]} ∅ "")
  = Err (ErrParseToken (ErrKeyfunc (ErrUnexpectedSigningMethod (Some (VString "none"))))) /\
  isOk (Validate mac minter600 now1
          (Compact {["alg" := VString "HS512"]} ∅ "mac(HS512,test-secret)")) = true.
Proof. split; vm_compute; reflexivity. Qed.

End ValidateExamples.

(** * Responses of the handler *)

Section ResponseProps.
Import json types httpapi props.
Context {VS VE : Type}.
Variable hmac : string -> string -> gmap string json.Value -> gmap string json.Value
  -> Result token.SignError string.
Variable formatRFC3339 : Z -> string.

Local Abbreviation handle := (handleGitHubOIDC (VS := VS) (VE := VE) hmac formatRFC3339).
Local Abbreviation outcomeOf := (outcome (VS := VS) (VE := VE) hmac).

(** X20: the HTTP status of the response follows the outcome of the
    request: 400 for a malformed request, 401 for a failed verification,
    429 for an exhausted rate limit, 403 for a policy denial, 500 for a
    failure to mint, and 200 for a success. *)
Theorem handler_status_code (s : Server) (env : Env) (body : option AuthRequest)
    (st : State (VS := VS)) :
  statusCode (fst (handle s env body st)) = statusOf (outcomeOf s env body st).
Proof.
  unfold handleGitHubOIDC, outcome.
  destruct body as [req|]; [|reflexivity].
  destruct (isEmpty (OIDCToken req)); [reflexivity|].
  cbn [called vstate limiter calls].
  destruct (verifier s (OIDCToken req) (vstate st)) as [[claims|e] vs]; [|reflexivity].
  cbn [fst].
  destruct (ratelimit.Allow (limiter st) (Repository claims) (now env)) as [[|] lim];
    [|reflexivity].
  cbn [fst negb].
  destruct (policy.Evaluate (policy s) (Repository claims) (Ref claims)) as [err|];
    [reflexivity|].
  destruct (token.Mint hmac (minter s) (now env) (jti env) claims) as [[tok exp]|e];
    reflexivity.
Qed.

(** The token of a response is the one that [Mint] made, and its subject
    repeats the claims it was made from. *)
Lemma handler_success_mint (s : Server) (env : Env) (body : option AuthRequest)
    (st : State (VS := VS)) (status : Z) (resp : AuthResponse) :
  fst (handle s env body st) = RespondJSON status resp ->
  exists claims expiresAt,
    token.Mint hmac (minter s) (now env) (jti env) claims
    = Ok (AccessToken resp, expiresAt) /\
    sd_Repository (Subject resp) = Repository claims /\
    sd_Ref (Subject resp) = Ref claims /\
    sd_Actor (Subject resp) = Actor claims /\
    sd_RunID (Subject resp) = RunID claims.
Proof.
  unfold handleGitHubOIDC.
  destruct body as [req|]; [|discriminate].
  destruct (isEmpty (OIDCToken req)); [discriminate|].
  destruct (verifier s (OIDCToken req) _) as [[claims|e] vs]; [|discriminate].
  cbn [called vstate limiter calls].
  destruct (ratelimit.Allow (limiter st) (Repository claims) (now env)) as [[|] lim];
    [|discriminate].
  cbn [negb].
  destruct (policy.Evaluate (policy s) (Repository claims) (Ref claims)); [discriminate|].
  destruct (token.Mint hmac (minter s) (now env) (jti env) claims) as [[tok exp]|e] eqn:Hm;
    [|discriminate].
  cbn [fst]. intros H. injection H as <- <-.
  exists claims, exp. cbn [AccessToken Subject sd_Repository sd_Ref sd_Actor sd_RunID].
  by split_and!.
Qed.

(** X21: the handler hands out a token only when every check has let the
    request pass: a response with a token has status 200 and the token
    type Bearer, its token is the one that [Mint] made from the claims
    that the verifier returned for the token of the request, the limiter
    has let the repository of these claims pass, the policy has allowed
    their repository and ref, and the subject of the response repeats
    these claims under the provider github_actions. *)
Theorem handler_token_only_after_all_checks (s : Server) (env : Env)
    (body : option AuthRequest) (st : State (VS := VS)) (status : Z)
    (resp : AuthResponse) :
  fst (handle s env body st) = RespondJSON status resp ->
  exists req claims expiresAt,
    body = Some req /\ isEmpty (OIDCToken req) = false /\
    fst (verifier s (OIDCToken req) (vstate st)) = Ok claims /\
    fst (ratelimit.Allow (limiter st) (Repository claims) (now env)) = true /\
    policy.Evaluate (policy s) (Repository claims) (Ref claims) = None /\
    token.Mint hmac (minter s) (now env) (jti env) claims
    = Ok (AccessToken resp, expiresAt) /\
    status = 200 /\ TokenType resp = "Bearer" /\
    Subject resp
    = {| sd_Provider := "github_actions";
         sd_Repository := Repository claims;
         sd_Ref := Ref claims;
         sd_Workflow := Workflow claims;
         sd_RunID := RunID claims;
         sd_Actor := Actor claims |}.
Proof.
  unfold handleGitHubOIDC.
  destruct body as [req|]; [|discriminate].
  destruct (isEmpty (OIDCToken req)) eqn:Hempty; [discriminate|].
  cbn [called vstate limiter calls].
  destruct (verifier s (OIDCToken req) (vstate st)) as [[claims|e] vs] eqn:Hv;
    [|discriminate].
  destruct (ratelimit.Allow (limiter st) (Repository claims) (now env)) as [[|] lim] eqn:Ha;
    [|discriminate].
  cbn [negb].
  destruct (policy.Evaluate (policy s) (Repository claims) (Ref claims)) as [err|] eqn:Hp;
    [discriminate|].
  destruct (token.Mint hmac (minter s) (now env) (jti env) claims) as [[tok exp]|e] eqn:Hm;
    [|discriminate].
  cbn [fst]. intros H. injection H as <- <-.
  exists req, claims, exp. rewrite Hv, Ha. cbn [AccessToken TokenType Subject fst].
  split_and!; first [reflexivity | assumption].
Qed.

(** X22: the token of a successful response is accepted by [Validate]
    of the same minter at every instant before its second of expiry (the
    clock and the TTL being 64-bit counts of nanoseconds), and the
    validated claims name the repository, ref, actor and run of the
    subject of the response, as JSON carries them. *)
Theorem handler_token_validates (s : Server) (env : Env) (body : option AuthRequest)
    (st : State (VS := VS)) (status : Z) (resp : AuthResponse) (now' : Z) :
  fst (handle s env body st) = RespondJSON status resp ->
  minDuration <= now env <= maxDuration ->
  minDuration <= token.ttl (minter s) <= maxDuration ->
  now' < Unix_of (now env + token.ttl (minter s)) * Second ->
  exists rc,
    token.Validate hmac (minter s) now' (AccessToken resp) = Ok rc /\
    rc_Repo rc = coerceUTF8 (sd_Repository (Subject resp)) /\
    rc_Ref rc = coerceUTF8 (sd_Ref (Subject resp)) /\
    rc_Actor rc = coerceUTF8 (sd_Actor (Subject resp)) /\
    rc_RunID rc = coerceUTF8 (sd_RunID (Subject resp)) /\
    rc_Subject rc = "repo:" +:+ rc_Repo rc.
Proof.
  intros Hresp Hnow Httl Hlt.
  destruct (handler_success_mint s env body st status resp Hresp)
    as (claims & expiresAt & Hmint & Hrepo & Href & Hactor & Hrun).
  assert (Hexp : Z.abs (Unix_of (now env + token.ttl (minter s))) < 2 ^ 53)
    by (apply Unix_of_small; unfold minDuration, maxDuration in *; lia).
  destruct (Mint_inv _ _ _ _ _ _ _ Hmint) as (_ & sig & Hsig & ->).
  rewrite (Validate_of_minted hmac (minter s) (now env) now' (jti env) sig claims Hsig)
    by (by apply Validate_minted).
  eexists. split; [reflexivity|]. rewrite Hrepo, Href, Hactor, Hrun. cbn.
  split_and!; reflexivity.
Qed.

(** X23: a request touches only the bucket of the repository that the
    verifier returned for it: the bucket of every other repository is
    after the request what it was before. *)
Theorem handler_touches_one_bucket (s : Server) (env : Env) (body : option AuthRequest)
    (st : State (VS := VS)) (other : string) :
  (forall req claims,
     body = Some req ->
     fst (verifier s (OIDCToken req) (vstate st)) = Ok claims ->
     Repository claims <> other) ->
  ratelimit.bucketOf (limiter (snd (handle s env body st))) other
  = ratelimit.bucketOf (limiter st) other.
Proof.
  intros Hother. unfold handleGitHubOIDC.
  destruct body as [req|]; [|reflexivity].
  destruct (isEmpty (OIDCToken req)); [reflexivity|].
  cbn [called vstate limiter calls].
  specialize (Hother req).
  destruct (verifier s (OIDCToken req) (vstate st)) as [[claims|e] vs]; [|reflexivity].
  specialize (Hother claims eq_refl eq_refl).
  pose proof (bucketOf_other (limiter st) (Repository claims) other (now env)
                (not_eq_sym Hother)) as Hb.
  destruct (ratelimit.Allow (limiter st) (Repository claims) (now env)) as [[|] lim];
    cbn [snd] in Hb; cbn [negb]; [|exact Hb].
  destruct (policy.Evaluate (policy s) (Repository claims) (Ref claims)) as [err|];
    [exact Hb|].
  destruct (token.Mint hmac (minter s) (now env) (jti env) claims) as [[tok exp]|e];
    exact Hb.
Qed.

(** X30: of the errors of the collaborators only the text of the policy
    reaches the client: the response to a failed verification, to an
    exhausted rate limit and to a failure to mint is a fixed message,
    whatever the error was, and the response to a policy denial carries
    the text of [Evaluate] as its message. *)
Theorem handler_error_messages (s : Server) (env : Env) (body : option AuthRequest)
    (st : State (VS := VS)) :
  let response := fst (handle s env body st) in
  match outcomeOf s env body st with
  | MalformedRequest =>
      response = respondError 400 "invalid_request" "invalid JSON in request body" \/
      response = respondError 400 "invalid_request" "missing oidc_token field"
  | VerificationFailure =>
      response = respondError 401 "invalid_token" "failed to verify OIDC token"
  | RateLimitExhausted =>
      response = respondError 429 "rate_limited" "rate limit exceeded for repository"
  | PolicyDenial =>
      exists req claims err,
        body = Some req /\
        fst (verifier s (OIDCToken req) (vstate st)) = Ok claims /\
        policy.Evaluate (policy s) (Repository claims) (Ref claims) = Some err /\
        response = respondError 403 "policy_violation" err
  | InternalFailure =>
      response = respondError 500 "internal_error" "failed to create access token"
  | Success => errorCode response = None
  end.
Proof.
  unfold handleGitHubOIDC, outcome. cbn zeta.
  destruct body as [req|]; [|by left].
  destruct (isEmpty (OIDCToken req)); [by right|].
  cbn [called vstate limiter calls].
  destruct (verifier s (OIDCToken req) (vstate st)) as [[claims|e] vs] eqn:Hv;
    [|reflexivity].
  cbn [fst].
  destruct (ratelimit.Allow (limiter st) (Repository claims) (now env)) as [[|] lim];
    [|reflexivity].
  cbn [fst negb].
  destruct (policy.Evaluate (policy s) (Repository claims) (Ref claims)) as [err|] eqn:Hp.
  { exists req, claims, err. rewrite Hv. by split_and!. }
  destruct (token.Mint hmac (minter s) (now env) (jti env) claims) as [[tok exp]|e];
    reflexivity.
Qed.

End ResponseProps.

Section ResponseExamples.
Import json types httpapi props fixtures.

Local Abbreviation run := (handleGitHubOIDC (VS := unit) (VE := unit) mac rfc3339).

Lemma handler_ok_fixture :
  fst (run openServer testEnv validRequest (testState 10 10)) = RespondJSON 200 okResponse.
Proof. vm_compute. reflexivity. Defined.

Lemma handler_token_only_after_all_checks_witness :
  fst (run openServer testEnv validRequest (testState 10 10)) = RespondJSON 200 okResponse /\
  exists req claims expiresAt,
    validRequest = Some req /\ isEmpty (OIDCToken req) = false /\
    fst (verifier openServer (OIDCToken req) (vstate (testState 10 10))) = Ok claims /\
    fst (ratelimit.Allow (limiter (testState 10 10)) (Repository claims) (now testEnv))
    = true /\
    policy.Evaluate (policy openServer) (Repository claims) (Ref claims) = None /\
    token.Mint mac (minter openServer) (now testEnv) (jti testEnv) claims
    = Ok (AccessToken okResponse, expiresAt) /\
    200 = 200 /\ TokenType okResponse = "Bearer" /\
    Subject okResponse
    = {| sd_Provider := "github_actions";
         sd_Repository := Repository claims;
         sd_Ref := Ref claims;
         sd_Workflow := Workflow claims;
         sd_RunID := RunID claims;
         sd_Actor := Actor claims |}.
Proof.
  split; [exact handler_ok_fixture|].
  exact (handler_token_only_after_all_checks mac rfc3339 openServer testEnv validRequest
           (testState 10 10) 200 okResponse handler_ok_fixture).
Defined.

Lemma handler_token_validates_witness :
  fst (run openServer testEnv validRequest (testState 10 10)) = RespondJSON 200 okResponse /\
  exists rc,
    token.Validate mac (minter openServer) (now1 + 599 * Second) (AccessToken okResponse)
    = Ok rc /\
    rc_Repo rc = coerceUTF8 (sd_Repository (Subject okResponse)) /\
    rc_Ref rc = coerceUTF8 (sd_Ref (Subject okResponse)) /\
    rc_Actor rc = coerceUTF8 (sd_Actor (Subject okResponse)) /\
    rc_RunID rc = coerceUTF8 (sd_RunID (Subject okResponse)) /\
    rc_Subject rc = "repo:" +:+ rc_Repo rc.
Proof.
  split; [exact handler_ok_fixture|].
  apply (handler_token_validates mac rfc3339 openServer testEnv validRequest
           (testState 10 10) 200 okResponse (now1 + 599 * Second) handler_ok_fixture);
    vm_compute; try split; try reflexivity; intros H; discriminate H.
Defined.

Lemma handler_touches_one_bucket_witness :
  (forall req claims,
     validRequest = Some req ->
     fst (verifier openServer (OIDCToken req) (vstate (testState 10 10))) = Ok claims ->
     Repository claims <> "other/repo") /\
  ratelimit.bucketOf
    (limiter (snd (run openServer testEnv validRequest (testState 10 10)))) "other/repo"
  = ratelimit.bucketOf (limiter (testState 10 10)) "other/repo".
Proof.
  assert (H : forall req claims,
            validRequest = Some req ->
            fst (verifier openServer (OIDCToken req) (vstate (testState 10 10))) = Ok claims ->
            Repository claims <> "other/repo").
  { intros req claims _ Hv. cbn in Hv. injection Hv as <-. discriminate. }
  split; [exact H|].
  exact (handler_touches_one_bucket mac rfc3339 openServer testEnv validRequest
           (testState 10 10) "other/repo" H).
Defined.

End ResponseExamples.

(** * Settings read from the environment *)

Section TrimProps.
Import json strings.
Variable p1 : Z -> bool.
Variable p2 : Z -> Z -> bool.
Variable p3 : Z -> Z -> Z -> bool.

Lemma trimRunes_unfold (l : list ascii) :
  trimRunes p1 p2 p3 l
  = match width p1 p2 p3 l with
    | O => l
    | w => trimRunes p1 p2 p3 (drop w l)
    end.
Proof.
  destruct l as [|c0 r0]; [reflexivity|].
  change (trimRunes p1 p2 p3 (c0 :: r0))
    with (if p1 (byte c0) then trimRunes p1 p2 p3 r0
          else
            match r0 with
            | c1 :: r1 =>
                if p2 (byte c0) (byte c1) then trimRunes p1 p2 p3 r1
                else
                  match r1 with
                  | c2 :: r2 =>
                      if p3 (byte c0) (byte c1) (byte c2) then trimRunes p1 p2 p3 r2
                      else c0 :: r0
                  | [] => c0 :: r0
                  end
            | [] => c0 :: r0
            end).
  unfold width. destruct (p1 (byte c0)); [reflexivity|].
  destruct r0 as [|c1 r1]; [reflexivity|].
  destruct (p2 (byte c0) (byte c1)); [reflexivity|].
  destruct r1 as [|c2 r2]; [reflexivity|].
  destruct (p3 (byte c0) (byte c1) (byte c2)); reflexivity.
Qed.

Lemma width_le (l : list ascii) : (width p1 p2 p3 l <= length l)%nat.
Proof.
  destruct l as [|c0 [|c1 [|c2 r]]]; cbn;
    repeat match goal with |- context [if ?b then _ else _] => destruct b end;
    cbn; lia.
Qed.

Lemma trimRunes_spec (l : list ascii) :
  width p1 p2 p3 (trimRunes p1 p2 p3 l) = O /\ trimRunes p1 p2 p3 l `suffix_of` l.
Proof.
  remember (length l) as n eqn:Hn. revert l Hn.
  induction n as [n IH] using lt_wf_ind. intros l Hn.
  rewrite trimRunes_unfold.
  destruct (width p1 p2 p3 l) as [|w] eqn:Hw; [by split|].
  pose proof (width_le l) as Hle. rewrite Hw in Hle.
  destruct (IH (length (drop (S w) l))) with (l := drop (S w) l) as [H0 Hsuf];
    [rewrite length_drop; lia | reflexivity |].
  split; [exact H0|].
  etrans; [exact Hsuf | apply suffix_drop].
Qed.

Lemma trimRunes_fixed (l : list ascii) :
  width p1 p2 p3 l = O -> trimRunes p1 p2 p3 l = l.
Proof. intros H. by rewrite trimRunes_unfold, H. Qed.

Lemma width_app (l k : list ascii) :
  width p1 p2 p3 (l ++ k) = O -> width p1 p2 p3 l = O.
Proof.
  destruct l as [|c0 [|c1 [|c2 r]]]; cbn; try reflexivity;
    repeat match goal with |- context [if ?b then _ else _] => destruct b end;
    first [reflexivity | discriminate].
Qed.

End TrimProps.

Section ListSettings.
Import json strings config props.

Lemma TrimSpace_idempotent (s : string) : TrimSpace (TrimSpace s) = TrimSpace s.
Proof.
  unfold TrimSpace. rewrite list_ascii_of_string_of_list_ascii.
  set (y := trimStart (list_ascii_of_string s)).
  set (u := trimEnd (rev y)).
  destruct (trimRunes_spec space1 space2 space3 (list_ascii_of_string s)) as [Hy _].
  fold trimStart in Hy. fold y in Hy.
  destruct (trimRunes_spec space1 (fun b0 b1 => space2 b1 b0)
              (fun b0 b1 b2 => space3 b2 b1 b0) (rev y)) as [Hu [k Hk]].
  fold trimEnd in Hu, Hk. fold u in Hu, Hk.
  assert (Hstart : trimStart (rev u) = rev u).
  { apply trimRunes_fixed. apply (width_app _ _ _ _ (rev k)).
    rewrite <- rev_app_distr, <- Hk, rev_involutive. exact Hy. }
  rewrite Hstart, rev_involutive.
  assert (Hend : trimEnd u = u) by (by apply trimRunes_fixed).
  by rewrite Hend.
Qed.

Lemma elem_of_rev (c : ascii) (l : list ascii) : c ∈ rev l <-> c ∈ l.
Proof. rewrite !list_elem_of_In. symmetry. apply in_rev. Qed.

Lemma TrimSpace_bytes (s : string) (c : ascii) :
  c ∈ list_ascii_of_string (TrimSpace s) -> c ∈ list_ascii_of_string s.
Proof.
  unfold TrimSpace. rewrite list_ascii_of_string_of_list_ascii.
  destruct (trimRunes_spec space1 space2 space3 (list_ascii_of_string s)) as [_ [k1 Hy]].
  fold trimStart in Hy. set (y := trimStart (list_ascii_of_string s)) in *.
  destruct (trimRunes_spec space1 (fun b0 b1 => space2 b1 b0)
              (fun b0 b1 b2 => space3 b2 b1 b0) (rev y)) as [_ [k2 Hu]].
  fold trimEnd in Hu. set (u := trimEnd (rev y)) in *.
  intros Hin. rewrite Hy. apply elem_of_app. right.
  apply elem_of_rev. rewrite Hu. apply elem_of_app. right.
  by apply elem_of_rev.
Qed.

Lemma Split_nonempty (s : string) (sep : ascii) : Split s sep <> [].
Proof.
  destruct s as [|c r]; cbn; [discriminate|].
  destruct (Ascii.eqb c sep); [discriminate|]. by destruct (Split r sep).
Qed.

Lemma Split_pieces (s : string) (sep : ascii) (part : string) :
  part ∈ Split s sep -> sep ∉ list_ascii_of_string part.
Proof.
  revert part. induction s as [|c r IH]; intros part; cbn.
  - intros Hin. apply list_elem_of_singleton in Hin as ->. apply not_elem_of_nil.
  - destruct (Ascii.eqb_spec c sep) as [->|Hne].
    + intros Hin. apply elem_of_cons in Hin as [-> | Hin];
        [apply not_elem_of_nil | by apply IH].
    + destruct (Split r sep) as [|h t] eqn:E; [by destruct (Split_nonempty r sep)|].
      intros Hin. apply elem_of_cons in Hin as [-> | Hin].
      * cbn. apply not_elem_of_cons. split; [by apply not_eq_sym|]. apply IH. by left.
      * apply IH. by right.
Qed.

Lemma Split_whole (e : string) (sep : ascii) :
  sep ∉ list_ascii_of_string e -> Split e sep = [e].
Proof.
  induction e as [|c e IH]; cbn; [reflexivity|].
  intros Hnot. apply not_elem_of_cons in Hnot as [Hne Hnot].
  destruct (Ascii.eqb_spec c sep) as [->|_]; [by destruct Hne|].
  by rewrite IH.
Qed.

Lemma Split_app (e r : string) (sep : ascii) :
  sep ∉ list_ascii_of_string e ->
  Split (e +:+ String sep r) sep = e :: Split r sep.
Proof.
  induction e as [|c e IH]; intros Hnot.
  - change ("" +:+ String sep r) with (String sep r). cbn.
    by rewrite Ascii.eqb_refl.
  - change (String c e +:+ String sep r) with (String c (e +:+ String sep r)).
    cbn in Hnot. apply not_elem_of_cons in Hnot as [Hne Hnot].
    cbn [Split]. destruct (Ascii.eqb_spec c sep) as [->|_]; [by destruct Hne|].
    by rewrite IH.
Qed.

Lemma Split_Join (l : list string) (sep : ascii) :
  l <> [] -> Forall (fun e => sep ∉ list_ascii_of_string e) l ->
  Split (Join l (String sep "")) sep = l.
Proof.
  intros Hne Hall. induction Hall as [|e l He Hall IH]; [by destruct Hne|].
  destruct l as [|e' l].
  - by apply Split_whole.
  - change (Join (e :: e' :: l) (String sep ""))
      with (e +:+ String sep "" +:+ Join (e' :: l) (String sep "")).
    change (String sep "" +:+ Join (e' :: l) (String sep ""))
      with (String sep (Join (e' :: l) (String sep ""))).
    rewrite Split_app by exact He. f_equal. by apply IH.
Qed.

Lemma parseCommaSeparated_kept (value : string) :
  parseCommaSeparated value
  = if String.eqb value "" then [] else omap kept (Split value ",").
Proof.
  unfold parseCommaSeparated. destruct (String.eqb value ""); [reflexivity|].
  assert (G : forall l acc,
    foldl (fun result part =>
             let trimmed := TrimSpace part in
             if negb (String.eqb trimmed "") then (result ++ [trimmed])%list else result)
          acc l = (acc ++ omap kept l)%list).
  { induction l as [|part l IH]; intros acc; cbn [foldl omap list_omap].
    - by rewrite app_nil_r.
    - rewrite IH. unfold kept at 2. cbn zeta.
      destruct (negb (String.eqb (TrimSpace part) "")); [|reflexivity].
      by rewrite <- app_assoc. }
  apply G.
Qed.

Lemma kept_entry (part e : string) :
  (","%char ∉ list_ascii_of_string part) -> kept part = Some e -> entry e.
Proof.
  intros Hpart Hkept. unfold kept in Hkept. cbn zeta in Hkept.
  destruct (String.eqb_spec (TrimSpace part) "") as [Heq|Hne]; [discriminate|].
  cbn [negb] in Hkept. injection Hkept as <-.
  split; [exact Hne|]. split; [|apply TrimSpace_idempotent].
  intros Hc. by apply TrimSpace_bytes in Hc.
Qed.

Lemma parseCommaSeparated_Forall (value : string) :
  Forall entry (parseCommaSeparated value).
Proof.
  rewrite parseCommaSeparated_kept. destruct (String.eqb value ""); [constructor|].
  pose proof (Split_pieces value ","%char) as Hpieces.
  induction (Split value ",") as [|part parts IH]; [constructor|].
  cbn [omap list_omap].
  assert (Hrest : Forall entry (omap kept parts)).
  { apply IH. intros p Hin. apply Hpieces. by right. }
  destruct (kept part) as [e|] eqn:E; [|exact Hrest].
  constructor; [|exact Hrest].
  apply (kept_entry part); [apply Hpieces; by left | exact E].
Qed.

Lemma Join_empty (e : string) (l : list string) (sep : string) :
  Join (e :: l) sep = "" -> e = "".
Proof. destruct l; cbn; [done|]. by destruct e. Qed.

Lemma parseCommaSeparated_of_entries (l : list string) :
  Forall entry l -> parseCommaSeparated (Join l ",") = l.
Proof.
  intros Hall. destruct l as [|e l]; [reflexivity|].
  rewrite parseCommaSeparated_kept.
  destruct (String.eqb_spec (Join (e :: l) ",") "") as [Heq|_].
  { apply Join_empty in Heq. apply Forall_cons in Hall as [[Hne _] _]. by destruct Hne. }
  rewrite (Split_Join (e :: l) ","%char); [|discriminate|].
  - clear -Hall. induction Hall as [|x l' [Hne [_ Ht]] _ IH]; [reflexivity|].
    cbn [omap list_omap]. unfold kept at 1. cbn zeta. rewrite Ht.
    destruct (String.eqb_spec x "") as [Heq|_]; [by destruct Hne|].
    cbn [negb]. f_equal. exact IH.
  - eapply Forall_impl; [exact Hall|]. by intros x (_ & Hc & _).
Qed.

(** X24: every entry that [parseCommaSeparated] returns is a piece of
    the setting between two commas with the white space at its ends cut
    off: it is not empty, holds no comma, and neither starts nor ends with
    white space. *)
Theorem parseCommaSeparated_entries (value e : string) :
  e ∈ parseCommaSeparated value -> entry e.
Proof.
  rewrite parseCommaSeparated_kept.
  destruct (String.eqb value ""); [intros H; by apply elem_of_nil in H|].
  intros Hin. apply list_elem_of_omap in Hin as (part & Hpart & Hkept).
  apply (kept_entry part); [|exact Hkept].
  by apply (Split_pieces value).
Qed.

(** X25: [parseCommaSeparated] reads back a list that is written with
    commas between its entries, and so leaves its own result alone: the
    result joined with commas parses to the same list. *)
Theorem parseCommaSeparated_reads_back_Join (value : string) :
  (forall l, Forall entry l -> parseCommaSeparated (Join l ",") = l) /\
  parseCommaSeparated (Join (parseCommaSeparated value) ",") = parseCommaSeparated value.
Proof.
  split; [apply parseCommaSeparated_of_entries|].
  apply parseCommaSeparated_of_entries, parseCommaSeparated_Forall.
Qed.

End ListSettings.

Section EnvProps.
Import json strings config props.
Variable environ : gmap string string.
Variable ParseFloat : string -> option Q.

Local Abbreviation load := (LoadFromEnv environ ParseFloat).

(** X26: [LoadFromEnv] fails exactly when the variable of the secret is
    unset or empty, whatever the other variables hold; and when the
    secret is set and every other variable is unset or empty, the result
    is the default configuration with this secret. *)
Theorem LoadFromEnv_needs_only_secret :
  (load = Err ErrSecretRequired <-> Getenv environ "ROBOHUB_JWT_SECRET" = "") /\
  (Getenv environ "ROBOHUB_JWT_SECRET" <> "" ->
   (forall key, key ∈ optionalVariables -> Getenv environ key = "") ->
   load = Ok (defaultConfig (Getenv environ "ROBOHUB_JWT_SECRET"))).
Proof.
  split.
  - unfold LoadFromEnv. cbn [JWTSecret].
    destruct (String.eqb_spec (Getenv environ "ROBOHUB_JWT_SECRET") "") as [Heq|Hne].
    + by split.
    + split; [discriminate | intros H; by destruct Hne].
  - intros Hsecret Hunset. unfold LoadFromEnv. cbn [JWTSecret].
    destruct (String.eqb_spec (Getenv environ "ROBOHUB_JWT_SECRET") "") as [Heq|_];
      [by destruct Hsecret|].
    unfold getEnv, getEnvInt, getEnvBool, getEnvFloat.
    apply Forall_forall in Hunset. unfold optionalVariables in Hunset.
    repeat (apply Forall_cons in Hunset as [Hkey Hunset]; rewrite Hkey; clear Hkey).
    reflexivity.
Qed.

(** X27: the lifetime of the tokens is the number of seconds that the
    variable ROBOHUB_TOKEN_TTL_SECONDS holds when that is a decimal
    integer of at most 9223372036 in absolute value - zero and negative
    numbers included - and 600 seconds when the variable is unset, empty
    or not an integer of 64 bits. *)
Theorem LoadFromEnv_token_ttl (cfg : Config) :
  load = Ok cfg ->
  let value := Getenv environ "ROBOHUB_TOKEN_TTL_SECONDS" in
  (strconv.Atoi value = None -> TokenTTL cfg = 600 * Second) /\
  (forall n, strconv.Atoi value = Some n -> -9223372036 <= n <= 9223372036 ->
     TokenTTL cfg = n * Second).
Proof.
  unfold LoadFromEnv. destruct (String.eqb _ ""); [discriminate|].
  intros H. injection H as <-. cbn [TokenTTL]. unfold getEnvInt.
  destruct (String.eqb_spec (Getenv environ "ROBOHUB_TOKEN_TTL_SECONDS") "") as [Heq|Hne];
    cbn [negb].
  - rewrite Heq. split; [reflexivity | discriminate].
  - split.
    + intros ->. reflexivity.
    + intros n -> Hn. unfold seconds, oidc.wrap64, Second.
      rewrite Z.mod_small by lia. lia.
Qed.

End EnvProps.

Section EnvExamples.
Import json strings config props fixtures.

Lemma parseCommaSeparated_entries_witness :
  "repo/b" ∈ parseCommaSeparated "repo/a, repo/b ,repo/c" /\ entry "repo/b".
Proof.
  assert (H : "repo/b" ∈ parseCommaSeparated "repo/a, repo/b ,repo/c").
  { replace (parseCommaSeparated "repo/a, repo/b ,repo/c")
      with ["repo/a"; "repo/b"; "repo/c"] by (vm_compute; reflexivity).
    rewrite !elem_of_cons. right. by left. }
  split; [exact H|].
  exact (parseCommaSeparated_entries "repo/a, repo/b ,repo/c" "repo/b" H).
Defined.

Lemma LoadFromEnv_fixture : LoadFromEnv testEnviron parseNoFloat = Ok testConfig.
Proof. vm_compute. reflexivity. Defined.

Lemma LoadFromEnv_token_ttl_witness :
  LoadFromEnv testEnviron parseNoFloat = Ok testConfig /\
  TokenTTL testConfig = 300 * Second.
Proof.
  split; [exact LoadFromEnv_fixture|].
  destruct (LoadFromEnv_token_ttl testEnviron parseNoFloat testConfig LoadFromEnv_fixture)
    as [_ H].
  apply (H 300); [reflexivity | lia].
Defined.

(** The table of the list test of the repository, and a piece with a
    no-break space at its end. *)
Example parseCommaSeparated_tests :
  parseCommaSeparated "" = [] /\
  parseCommaSeparated "repo/a" = ["repo/a"] /\
  parseCommaSeparated "repo/a,repo/b,repo/c" = ["repo/a"; "repo/b"; "repo/c"] /\
  parseCommaSeparated "repo/a, repo/b , repo/c" = ["repo/a"; "repo/b"; "repo/c"] /\
  parseCommaSeparated "repo/a,repo/b," = ["repo/a"; "repo/b"] /\
  parseCommaSeparated (" , " +:+ String "009" ("repo/a" +:+ String "194" (String "160" "")))
  = ["repo/a"].
Proof. repeat split; vm_compute; reflexivity. Qed.

(** Settings of the token lifetime: a number, a number with a sign, text,
    and a number of seconds that does not fit a duration. *)
Example getEnvInt_tests :
  getEnvInt {["N" := "300"]} "N" 600 = 300 /\
  getEnvInt {["N" := "-5"]} "N" 600 = -5 /\
  getEnvInt {["N" := "+7"]} "N" 600 = 7 /\
  getEnvInt {["N" := "10m"]} "N" 600 = 600 /\
  getEnvInt {["N" := "1_000"]} "N" 600 = 600 /\
  getEnvInt {["N" := "9223372036854775808"]} "N" 600 = 600 /\
  seconds (getEnvInt {["N" := "9223372037"]} "N" 600) = -9223372036709551616.
Proof. repeat split; vm_compute; reflexivity. Qed.

(** The settings of a switch. *)
Example getEnvBool_tests :
  getEnvBool {["B" := "true"]} "B" false = true /\
  getEnvBool {["B" := "1"]} "B" false = true /\
  getEnvBool {["B" := "yes"]} "B" false = false /\
  getEnvBool {["B" := "FALSE"]} "B" true = false /\
  getEnvBool (∅ : gmap string string) "B" true = true.
Proof. repeat split; vm_compute; reflexivity. Qed.

End EnvExamples.
